(** * plugins:inspect: dependency resolution walker and report builder

    A shallow embedding of [src/commands/plugins/inspect.ts]: the helper
    [trimUntil], the methods [findDep], [findPlugin], [inspect],
    [parsePluginName] and [run] of the [PluginsInspect] command, and the
    JavaScript and [node:path] primitives they call.

    Conventions of the embedding:
    - a JavaScript string is a [string] (a sequence of 8-bit characters);
    - paths are POSIX paths: [path.sep] is ["/"];
    - a JavaScript number that may be [-Infinity] is a [Num];
    - a promise that may reject, or a call that may throw, is a [Result];
    - an object is the list of its own properties in order of creation;
      [Object.keys] lists the array indices first, and a name the object
      does not have is looked up in [Object.prototype];
    - the file system is a function from a manifest path to what
      [JSON.parse(await readFile(path, 'utf8'))] followed by [.version]
      does there. *)

From Stdlib Require Import String Ascii List ZArith Lia Bool Arith.
From Stdlib Require Import Sorted Permutation.
Import ListNotations.

Local Open Scope string_scope.

(* ================================================================= *)
(** ** JavaScript primitives *)

Module JS.

(** [s.split(c)] for a one-character separator [c]. *)
Fixpoint split (c : ascii) (s : string) : list string :=
  match s with
  | EmptyString => [EmptyString]
  | String a r =>
      if Ascii.eqb a c then EmptyString :: split c r
      else match split c r with
           | h :: t => String a h :: t
           | [] => [String a EmptyString]
           end
  end.

(** [parts.join(sep)]. *)
Definition join (sep : string) (parts : list string) : string :=
  String.concat sep parts.

(** Numbers as [trimUntil] meets them: integers and [-Infinity]. *)
Inductive Num : Type :=
| NegInfinity
| Int (z : Z).

Definition num_max (a b : Num) : Num :=
  match a, b with
  | NegInfinity, _ => b
  | _, NegInfinity => a
  | Int x, Int y => Int (Z.max x y)
  end.

(** [Math.max(...l)]: [-Infinity] when [l] is empty. *)
Definition Math_max (l : list Z) : Num :=
  fold_left (fun m x => num_max m (Int x)) l NegInfinity.

(** [a === b] on numbers. *)
Definition num_eqb (a b : Num) : bool :=
  match a, b with
  | NegInfinity, NegInfinity => true
  | Int x, Int y => Z.eqb x y
  | _, _ => false
  end.

(** [n + z]; [-Infinity + z] is [-Infinity]. *)
Definition num_add (n : Num) (z : Z) : Num :=
  match n with
  | NegInfinity => NegInfinity
  | Int a => Int (a + z)
  end.

(** [l.slice(0, e)]: a negative [e] counts from the end, [-Infinity] clamps
    to [0], and the end is clamped to the length. *)
Definition slice0 {A : Type} (l : list A) (e : Num) : list A :=
  let len := Z.of_nat (List.length l) in
  let final :=
    match e with
    | NegInfinity => 0%Z
    | Int z => if (z <? 0)%Z then Z.max (len + z) 0 else Z.min z len
    end in
  firstn (Z.to_nat final) l.

(** [(s.match(/pat/g) || []).length] for a literal pattern: the matches are
    found left to right and do not overlap.  [skip] is the number of
    characters still covered by the last match. *)
Fixpoint countMatches (pat s : string) (skip : nat) : nat :=
  match s with
  | EmptyString => 0
  | String _ r =>
      match skip with
      | S k => countMatches pat r k
      | O =>
          if String.prefix pat s
          then S (countMatches pat r (String.length pat - 1))
          else countMatches pat r 0
      end
  end.

(** JavaScript truthiness of a value that is a string, [null] or
    [undefined]: only a non-empty string is truthy. *)
Definition truthy (v : option string) : bool :=
  match v with
  | Some EmptyString => false
  | Some _ => true
  | None => false
  end.

(** A [null] interpolated in a template literal. *)
Definition show (v : option string) : string :=
  match v with
  | Some s => s
  | None => "null"
  end.

(** [s.includes(c)] for a one-character [c]. *)
Fixpoint includes (c : ascii) (s : string) : bool :=
  match s with
  | EmptyString => false
  | String a r => Ascii.eqb a c || includes c r
  end.

(** [s.slice(1)]. *)
Definition slice1 (s : string) : string :=
  match s with
  | EmptyString => EmptyString
  | String _ r => r
  end.

(** [const [x] = s.split(c)]: the array that [split] returns is never
    empty. *)
Definition firstPart (c : ascii) (s : string) : string :=
  hd EmptyString (split c s).

End JS.

(* ================================================================= *)
(** ** [node:path], POSIX flavour *)

Module Path.

Definition sep : string := "/".
Definition sepChar : ascii := "/"%char.

(** The scan of [dirname] from the last character down to index 1, on the
    reversed tail of the path: trailing separators are skipped, then the
    last segment; the result is the number of characters of the tail that
    precede the separator found, if one is. *)
Fixpoint skipSegment (r : list ascii) : option nat :=
  match r with
  | [] => None
  | c :: r' => if Ascii.eqb c sepChar then Some (List.length r') else skipSegment r'
  end.

Fixpoint skipSeparators (r : list ascii) : option nat :=
  match r with
  | [] => None
  | c :: r' => if Ascii.eqb c sepChar then skipSeparators r' else skipSegment r'
  end.

(** [path.dirname(p)]. *)
Definition dirname (p : string) : string :=
  match p with
  | EmptyString => "."
  | String c0 rest =>
      let hasRoot := Ascii.eqb c0 sepChar in
      match skipSeparators (rev (list_ascii_of_string rest)) with
      | None => if hasRoot then "/" else "."
      | Some k =>
          if hasRoot && Nat.eqb k 0 then "//"
          else String.substring 0 (S k) p
      end
  end.

(** One step of the normalisation: [stack] holds the segments kept so far,
    innermost first. *)
Definition normalizeStep (allowAboveRoot : bool) (stack : list string)
  (seg : string) : list string :=
  if (seg =? "") || (seg =? ".") then stack
  else if seg =? ".." then
    match stack with
    | top :: below =>
        if top =? ".." then (if allowAboveRoot then ".." :: stack else stack)
        else below
    | [] => if allowAboveRoot then [".."] else []
    end
  else seg :: stack.

Definition normalizeString (p : string) (allowAboveRoot : bool) : string :=
  JS.join sep
    (rev (fold_left (normalizeStep allowAboveRoot) (JS.split sepChar p) [])).

Definition lastChar (p : string) : option ascii :=
  last (map Some (list_ascii_of_string p)) None.

(** [path.normalize(p)]. *)
Definition normalize (p : string) : string :=
  match p with
  | EmptyString => "."
  | String c0 _ =>
      let isAbsolute := Ascii.eqb c0 sepChar in
      let trailingSeparator :=
        match lastChar p with
        | Some c => Ascii.eqb c sepChar
        | None => false
        end in
      let q := normalizeString p (negb isAbsolute) in
      match q with
      | EmptyString =>
          if isAbsolute then "/" else if trailingSeparator then "./" else "."
      | _ =>
          let q' := if trailingSeparator then q ++ "/" else q in
          if isAbsolute then "/" ++ q' else q'
      end
  end.

(** [path.join(...args)]: the non-empty arguments are glued with ["/"] and
    the result is normalised. *)
Definition join (args : list string) : string :=
  match filter (fun a => negb (a =? "")) args with
  | [] => "."
  | parts => normalize (JS.join "/" parts)
  end.

End Path.

(* ================================================================= *)
(** ** [trimUntil] *)

Definition markerIndices (parts : list string) (part : string) : list Z :=
  fst (fold_left
         (fun (st : list Z * Z) (e : string) =>
            let (a, i) := st in
            ((if e =? part then (a ++ [i])%list else a), (i + 1)%Z))
         parts ([], 0%Z)).

Definition partIndexOf (fsPath part : string) : JS.Num :=
  JS.Math_max (markerIndices (JS.split Path.sepChar fsPath) part).

Definition trimUntil (fsPath part : string) : string :=
  let parts := JS.split Path.sepChar fsPath in
  let indices := markerIndices parts part in
  let partIndex := JS.Math_max indices in
  if JS.num_eqb partIndex (JS.Int (-1)) then fsPath
  else JS.join Path.sep (JS.slice0 parts (JS.num_add partIndex 1)).

(* ================================================================= *)
(** ** Results of calls that may throw *)

Inductive JSError : Type :=
| FsError (code : string)      (* [readFile] rejected: ENOENT, EACCES, ... *)
| SyntaxError                  (* thrown by [JSON.parse] *)
| TypeError                    (* a property read on [null] or [undefined] *)
| Error (message : string).    (* [new Error(message)] *)

Inductive Result (A : Type) : Type :=
| Ok (a : A)
| Throw (e : JSError).

Arguments Ok {A} a.
Arguments Throw {A} e.

Definition bind {A B : Type} (r : Result A) (k : A -> Result B) : Result B :=
  match r with
  | Ok a => k a
  | Throw e => Throw e
  end.

Notation "x <- r ;; k" := (bind r (fun x => k))
  (at level 61, r at next level, right associativity).

(** A [for (const x of l)] loop whose body updates a state and may throw. *)
Fixpoint forOf {A S : Type} (l : list A) (body : S -> A -> Result S) (s : S)
  : Result S :=
  match l with
  | [] => Ok s
  | x :: rest => s' <- body s x ;; forOf rest body s'
  end.

(* ================================================================= *)
(** ** Sorting *)

Section InsertionSort.
Context {A : Type} (le : A -> A -> bool).

Fixpoint insertSorted (x : A) (l : list A) : list A :=
  match l with
  | [] => [x]
  | y :: r => if le x y then x :: l else y :: insertSorted x r
  end.

Definition isort (l : list A) : list A :=
  fold_right insertSorted [] l.
End InsertionSort.

(** Modelled from the spec: [sortBy] of [src/util.ts], which is not among
    the sources.  The spec says of both of its uses that the list comes out
    "sorted lexicographically ascending"; the strings are compared
    character by character, a proper prefix coming first. *)
Definition sortBy {A : Type} (arr : list A) (fn : A -> string) : list A :=
  isort (fun a b => String.leb (fn a) (fn b)) arr.

(* ================================================================= *)
(** ** Objects used as records keyed by strings *)

Module Obj.

(** The properties in order of creation. *)
Definition t (A : Type) : Type := list (string * A).

(** [o[k]] among the properties of [o] itself; [None] when [o] has no
    property [k] of its own. *)
Fixpoint get {A : Type} (k : string) (o : t A) : option A :=
  match o with
  | [] => None
  | (k', v) :: r => if k' =? k then Some v else get k r
  end.

(** [o[k] = v]: an existing property keeps its place. *)
Fixpoint set {A : Type} (k : string) (v : A) (o : t A) : t A :=
  match o with
  | [] => [(k, v)]
  | (k', v') :: r => if k' =? k then (k, v) :: r else (k', v') :: set k v r
  end.

Definition isDigit (c : ascii) : bool :=
  let n := nat_of_ascii c in ((48 <=? n)%nat && (n <=? 57)%nat).

Fixpoint digitsValue (s : string) (acc : N) : option N :=
  match s with
  | EmptyString => Some acc
  | String c r =>
      if isDigit c then digitsValue r (10 * acc + (N_of_ascii c - 48))%N
      else None
  end.

(** A property name is an array index when it is the decimal writing,
    without leading zero, of an integer below [2^32 - 1]. *)
Definition arrayIndex (k : string) : option N :=
  match k with
  | EmptyString => None
  | String c r =>
      if Ascii.eqb c "0"%char && negb (r =? "") then None
      else match digitsValue k 0 with
           | Some n => if (n <? 4294967295)%N then Some n else None
           | None => None
           end
  end.

Definition indexKeys (ks : list string) : list (N * string) :=
  flat_map (fun k => match arrayIndex k with
                     | Some n => [(n, k)]
                     | None => []
                     end) ks.

Definition nameKeys (ks : list string) : list string :=
  filter (fun k => match arrayIndex k with Some _ => false | None => true end) ks.

(** [Object.keys(o)], also the order in which [JSON.stringify] and the
    spread [{...o}] visit the properties: array indices first, in
    ascending numeric order, then the other names in order of creation. *)
Definition keys {A : Type} (o : t A) : list string :=
  let ks := map fst o in
  (map snd (isort (fun a b => (fst a <=? fst b)%N) (indexKeys ks))
   ++ nameKeys ks)%list.

(** The names that every object literal and every object read from JSON
    inherits from [Object.prototype].  What is found under them is a
    function, or the prototype itself under [__proto__]: never a string,
    never [null], and always truthy. *)
Definition inherited : list string :=
  ["constructor"; "__defineGetter__"; "__defineSetter__"; "hasOwnProperty";
   "__lookupGetter__"; "__lookupSetter__"; "isPrototypeOf";
   "propertyIsEnumerable"; "toString"; "valueOf"; "__proto__";
   "toLocaleString"].

Definition isInherited (k : string) : bool :=
  existsb (String.eqb k) inherited.

(** [{...o}], where [o] may be [undefined]. *)
Definition spread {A : Type} (o : option (t A)) : t A :=
  match o with
  | None => []
  | Some o =>
      flat_map (fun k => match get k o with
                         | Some v => [(k, v)]
                         | None => []
                         end) (keys o)
  end.

End Obj.

(* ================================================================= *)
(** ** The hierarchy shown to the user *)

(** [ux.tree()] of [@oclif/core]: a node holds its children in the object
    [nodes], keyed by label.  The list keeps the properties in order of
    creation; the children are shown in the order of [Object.keys], which
    is [Obj.keys] of the list. *)
#[warnings="-register-all"] Inductive Tree : Type :=
| MkTree (nodes : Obj.t Tree).

Module TreeOps.

Definition nodes (t : Tree) : Obj.t Tree :=
  match t with MkTree ns => ns end.

(** [t.insert(child)], that is [this.nodes[child] = new Tree()]: the child
    is a fresh empty tree, and a label already present keeps its place. *)
Definition insert (child : string) (t : Tree) : Tree :=
  MkTree (Obj.set child (MkTree []) (nodes t)).

(** [t.nodes[key].<op>]: [op] acts on the child in place; a missing child
    is [undefined] and the call throws. *)
Definition at_ (key : string) (op : Tree -> Result Tree) (t : Tree)
  : Result Tree :=
  match Obj.get key (nodes t) with
  | None => Throw TypeError
  | Some child => child' <- op child ;; Ok (MkTree (Obj.set key child' (nodes t)))
  end.

(** The object [t.nodes[key].nodes], for reading the result. *)
Definition childrenAt (key : string) (t : Tree) : Obj.t Tree :=
  match Obj.get key (nodes t) with
  | None => []
  | Some child => nodes child
  end.

End TreeOps.

(* ================================================================= *)
(** ** Plugins and the file system *)

Module PJSON.
Record t : Type := mk {
  homepage : option string;
  dependencies : option (Obj.t string)
}.
End PJSON.

Module Plugin.
Record t : Type := mk {
  name : string;
  version : string;
  tag : option string;
  root : string;
  commandIDs : list string;
  pjson : PJSON.t
}.
End Plugin.

(** [this.config]: the installed plugins, and the object
    [pjson.oclif.jitPlugins], from names to versions, which may be
    [undefined]. *)
Module Config.
Record t : Type := mk {
  getPluginsList : list Plugin.t;
  jitPlugins : option (Obj.t string)
}.
End Config.

(** What reading a manifest does at one path:
    [JSON.parse(await readFile(pkgJsonPath, 'utf8'))], then [.version].
    The source takes the version to be a string ([as string]); a manifest
    without the property has it [undefined]. *)
Inductive ManifestFile : Type :=
| Unreadable (code : string)          (* [readFile] rejects with this code *)
| Malformed                           (* the text is not JSON *)
| JsonNull                            (* the text is the JSON [null] *)
| Manifest (version : option string). (* a JSON value and its [version] *)

Definition FileSystem : Type := string -> ManifestFile.

(** The value [findDep] resolves to. *)
Module Found.
Record t : Type := mk {
  pkgPath : option string;
  version : option string
}.
End Found.

(** An entry of [Dependencies]. *)
Module Dep.
Record t : Type := mk {
  from : option string;
  version : string
}.
End Dep.

Definition Dependencies : Type := Obj.t Dep.t.

Module PluginWithDeps.
Record t : Type := mk {
  plugin : Plugin.t;
  deps : Dependencies
}.
End PluginWithDeps.

(* ================================================================= *)
(** ** [findDep] *)

(** The [while] loop of [findDep], with the paths it pushes.  [fuel] bounds
    the number of iterations; the length of [start] is enough
    ([chainLoop_enough_fuel]). *)
Fixpoint chainLoop (fuel : nat) (start : string) : list string :=
  if (1 <? JS.countMatches "node_modules" start 0)%nat then
    match fuel with
    | O => []
    | S fuel' =>
        let start' := trimUntil (Path.dirname start) "node_modules" in
        start' :: chainLoop fuel' start'
    end
  else [].

(** The same loop as a relation, with no bound: [ChainLoop start pushed]
    holds when the loop, entered with [start], exits having pushed
    [pushed]. *)
Inductive ChainLoop : string -> list string -> Prop :=
| ChainLoop_exit start :
    JS.countMatches "node_modules" start 0 <= 1 ->
    ChainLoop start []
| ChainLoop_iter start pushed :
    1 < JS.countMatches "node_modules" start 0 ->
    ChainLoop (trimUntil (Path.dirname start) "node_modules") pushed ->
    ChainLoop start (trimUntil (Path.dirname start) "node_modules" :: pushed).

Definition searchPaths (root : string) : list string :=
  let start := Path.join [root; "node_modules"] in
  start :: chainLoop (String.length start) start.

Definition dependencyPathOf (dependency : string) : string :=
  Path.join (JS.split "/"%char dependency).

(** The body of the [try] block. *)
Definition readManifest (fs : FileSystem) (fullPath pkgJsonPath : string)
  : Result Found.t :=
  match fs pkgJsonPath with
  | Unreadable code => Throw (FsError code)
  | Malformed => Throw SyntaxError
  | JsonNull => Throw TypeError
  | Manifest version => Ok (Found.mk (Some fullPath) version)
  end.

(** The [for (const p of paths)] loop. *)
Fixpoint tryPaths (fs : FileSystem) (dependencyPath : string)
  (paths : list string) : Result Found.t :=
  match paths with
  | [] => Ok (Found.mk None None)
  | p :: rest =>
      let fullPath := Path.join [p; dependencyPath] in
      let pkgJsonPath := Path.join [fullPath; "package.json"] in
      match readManifest fs fullPath pkgJsonPath with
      | Ok found => Ok found
      | Throw _ => tryPaths fs dependencyPath rest  (* try the next path *)
      end
  end.

Definition findDep (fs : FileSystem) (plugin : Plugin.t) (dependency : string)
  : Result Found.t :=
  let dependencyPath := dependencyPathOf dependency in
  tryPaths fs dependencyPath (searchPaths (Plugin.root plugin)).

(** The candidate install paths of a dependency, innermost first. *)
Definition candidates (plugin : Plugin.t) (dependency : string) : list string :=
  map (fun p => Path.join [p; dependencyPathOf dependency])
      (searchPaths (Plugin.root plugin)).

Definition manifestPath (candidate : string) : string :=
  Path.join [candidate; "package.json"].

(* ================================================================= *)
(** ** [findPlugin] and [inspect] *)

Definition findPlugin (config : Config.t) (pluginName : string)
  : Result Plugin.t :=
  match find (fun plg => Plugin.name plg =? pluginName)
             (Config.getPluginsList config) with
  | Some pluginConfig => Ok pluginConfig
  | None => Throw (Error (pluginName ++ " not installed"))
  end.

(** The test [this.config.pjson.oclif.jitPlugins?.[pluginName]]: nothing
    is read from an [undefined] object; a property of the object itself
    counts when it is a non-empty string; a name the object does not have
    is looked up in [Object.prototype], where what is found is truthy. *)
Definition isJitPlugin (config : Config.t) (pluginName : string) : bool :=
  match Config.jitPlugins config with
  | None => false
  | Some jitPlugins =>
      match Obj.get pluginName jitPlugins with
      | Some version => JS.truthy (Some version)
      | None => Obj.isInherited pluginName
      end
  end.

(** What [findPlugin] passes to [this.warn] before it throws; the warning
    goes to the error stream and changes nothing else. *)
Definition findPluginWarning (config : Config.t) (pluginName : string)
  : option string :=
  match find (fun plg => Plugin.name plg =? pluginName)
             (Config.getPluginsList config) with
  | Some _ => None
  | None =>
      if isJitPlugin config pluginName
      then Some ("Plugin " ++ pluginName
                 ++ " is a JIT plugin. It will be installed the first time you run one of it's commands.")
      else None
  end.

(** What a call of [inspect] leaves behind: the tree it built, whether it
    displayed it, and the value it returns. *)
Module Inspection.
Record t : Type := mk {
  tree : Tree;
  displayed : bool;
  value : PluginWithDeps.t
}.
End Inspection.

Section Inspect.

(** The styles of [chalk]: what they add depends on the terminal. *)
Variable chalk_dim : string -> string.
Variable chalk_bold_cyan : string -> string.

(** The text of [versionMsg], line 113. *)
Definition versionMsgOf (from : option string) (version : string) : string :=
  chalk_dim (if JS.truthy from then JS.show from ++ " => " ++ version
             else version).

(** The text of [msg], line 114. *)
Definition msgOf (verbose : bool) (dep versionMsg : string)
  (pkgPath : option string) : string :=
  if verbose then dep ++ " " ++ versionMsg ++ " " ++ JS.show pkgPath
  else dep ++ " " ++ versionMsg.

(** The body of the loop over the dependencies. *)
Definition depStep (fs : FileSystem) (plugin : Plugin.t)
  (dependencies : Obj.t string) (pluginHeader : string) (verbose : bool)
  (st : Tree * Dependencies) (dep : string) : Result (Tree * Dependencies) :=
  let (tree, depsJson) := st in
  found <- findDep fs plugin dep ;;
  match Found.version found with
  | None => Ok st
  | Some version =>
      if version =? "" then Ok st  (* [if (!version) continue] *)
      else
        let from := Obj.get dep dependencies in
        let versionMsg := versionMsgOf from version in
        let msg := msgOf verbose dep versionMsg (Found.pkgPath found) in
        tree' <- TreeOps.at_ pluginHeader
                   (TreeOps.at_ "dependencies"
                      (fun t => Ok (TreeOps.insert msg t))) tree ;;
        Ok (tree', Obj.set dep (Dep.mk from version) depsJson)
  end.

Definition inspect (config : Config.t) (fs : FileSystem) (jsonEnabled : bool)
  (pluginName : string) (verbose : bool) : Result Inspection.t :=
  plugin <- findPlugin config pluginName ;;
  let tree := MkTree [] in
  let pluginHeader := chalk_bold_cyan (Plugin.name plugin) in
  let tree := TreeOps.insert pluginHeader tree in
  let under (child : string) (t : Tree) : Result Tree :=
    TreeOps.at_ pluginHeader (fun h => Ok (TreeOps.insert child h)) t in
  tree <- under ("version " ++ Plugin.version plugin) tree ;;
  tree <- (if JS.truthy (Plugin.tag plugin)
           then under ("tag " ++ JS.show (Plugin.tag plugin)) tree
           else Ok tree) ;;
  tree <- (if JS.truthy (PJSON.homepage (Plugin.pjson plugin))
           then under ("homepage "
                       ++ JS.show (PJSON.homepage (Plugin.pjson plugin))) tree
           else Ok tree) ;;
  tree <- under ("location " ++ Plugin.root plugin) tree ;;
  tree <- under "commands" tree ;;
  let commands := sortBy (Plugin.commandIDs plugin) (fun c => c) in
  tree <- forOf commands
            (fun t cmd =>
               TreeOps.at_ pluginHeader
                 (TreeOps.at_ "commands"
                    (fun c => Ok (TreeOps.insert cmd c))) t)
            tree ;;
  let dependencies := Obj.spread (PJSON.dependencies (Plugin.pjson plugin)) in
  tree <- under "dependencies" tree ;;
  let deps := sortBy (Obj.keys dependencies) (fun d => d) in
  let depsJson : Dependencies := [] in
  st <- forOf deps (depStep fs plugin dependencies pluginHeader verbose)
          (tree, depsJson) ;;
  let (tree, depsJson) := st in
  Ok (Inspection.mk tree (negb jsonEnabled) (PluginWithDeps.mk plugin depsJson)).

End Inspect.

(* ================================================================= *)
(** ** [parsePluginName] and [run] *)

(** What [run] leaves behind: the trees displayed, the lines logged, and
    the value it resolves to or the error it throws. *)
Module RunOutcome.
Record t : Type := mk {
  shown : list Tree;
  logged : list string;
  result : Result (list PluginWithDeps.t)
}.
End RunOutcome.

(** The value of [name] after line 151: a string, or what
    [Object.prototype] holds under an inherited name, a function or the
    prototype itself. *)
Inductive NameValue : Type :=
| NameString (s : string)
| NameInherited.

(** [aliases[name]], where a property of [aliases] itself holds a name or
    [null]: the test [aliases[name] === null] followed by [this.error],
    which throws, then [aliases[name] || name].  A name that [aliases] does
    not have is looked up in [Object.prototype]: what is found there is
    not [null] and is truthy. *)
Definition aliasOf (aliases : Obj.t (option string)) (name : string)
  : Result NameValue :=
  match Obj.get name aliases with
  | Some None => Throw (Error (name ++ " is blocked"))
  | Some (Some target) =>
      if JS.truthy (Some target) then Ok (NameString target)
      else Ok (NameString name)
  | None =>
      if Obj.isInherited name then Ok NameInherited else Ok (NameString name)
  end.

(** [this.log(message)] of [@oclif/core]: the line is written unless JSON
    output is enabled. *)
Definition log (jsonEnabled : bool) (message : string) : list string :=
  if jsonEnabled then [] else [message].

Section Run.

Variable chalk_dim : string -> string.
Variable chalk_bold_cyan : string -> string.
Variable chalk_bold_red : string -> string.

(** [this.plugins.maybeUnfriendlyName] of [src/plugins.ts], which is not
    among the sources: it is taken as it comes. *)
Variable maybeUnfriendlyName : string -> Result string.

(** [this.config], [this.config.pjson.oclif.aliases || {}], the file
    system, [this.jsonEnabled()], and what
    [JSON.parse(await readFile('package.json', 'utf8')).name] gives in the
    working directory: a name, taken to be a string, or the error thrown. *)
Variable config : Config.t.
Variable aliases : Obj.t (option string).
Variable fs : FileSystem.
Variable jsonEnabled : bool.
Variable packageJsonName : Result string.

Definition parsePluginName (input : string) : Result string :=
  if JS.includes "@"%char input && JS.includes "/"%char input then
    let input := JS.slice1 input in
    let name := JS.firstPart "@"%char input in
    Ok ("@" ++ name)
  else
    let splitName := JS.firstPart "@"%char input in
    name <- maybeUnfriendlyName splitName ;;
    Ok name.

(** Lines 144 to 152: from an argument to the name of the plugin to
    inspect.  [parsePluginName] called with a value that is not a string
    throws at [input.includes], which is not a function. *)
Definition pluginNameOf (name : string) : Result string :=
  name <- (if name =? "." then packageJsonName else Ok name) ;;
  name <- aliasOf aliases name ;;
  match name with
  | NameString name => parsePluginName name
  | NameInherited => Throw TypeError
  end.

(** The loop of [run] over [argv]; [plugins] and [shown] are the results
    pushed and the trees displayed so far. *)
Fixpoint runLoop (verbose : bool) (argv : list string)
  (plugins : list PluginWithDeps.t) (shown : list Tree) : RunOutcome.t :=
  match argv with
  | [] => RunOutcome.mk shown [] (Ok plugins)
  | name :: rest =>
      match pluginNameOf name with
      | Throw e => RunOutcome.mk shown [] (Throw e)
      | Ok pluginName =>
          match inspect chalk_dim chalk_bold_cyan config fs jsonEnabled
                  pluginName verbose with
          | Ok out =>
              runLoop verbose rest
                (plugins ++ [Inspection.value out])%list
                (if Inspection.displayed out
                 then (shown ++ [Inspection.tree out])%list else shown)
          | Throw e =>
              RunOutcome.mk shown (log jsonEnabled (chalk_bold_red "failed"))
                (Throw e)
          end
      end
  end.

(** [run], given what [this.parse] returns; setting
    [this.plugins.verbose] changes nothing here. *)
Definition run (argv : list string) (verbose : bool) : RunOutcome.t :=
  runLoop verbose argv [] [].

End Run.

(* ================================================================= *)
(** * Notions used to state the properties *)

(** ** Numbers and orders *)

Definition num_nonneg (n : JS.Num) : Prop :=
  match n with
  | JS.NegInfinity => True
  | JS.Int z => (0 <= z)%Z
  end.

(** The ascending order of strings, and that of array indices. *)
Definition str_le (a b : string) : Prop := String.leb a b = true.


(** ** The walk of [findDep], read off the candidates *)

(** A candidate holds a manifest that is read and parsed, and whose
    [version] can be asked for. *)
Definition readable (fs : FileSystem) (candidate : string) : bool :=
  match fs (manifestPath candidate) with
  | Manifest _ => true
  | _ => false
  end.

(** The walk as a function of the candidates alone. *)
Fixpoint firstReadable (fs : FileSystem) (cands : list string) : Found.t :=
  match cands with
  | [] => Found.mk None None
  | c :: rest =>
      match fs (manifestPath c) with
      | Manifest version => Found.mk (Some c) version
      | _ => firstReadable fs rest
      end
  end.

Definition locate (fs : FileSystem) (plugin : Plugin.t) (dependency : string)
  : Found.t :=
  firstReadable fs (candidates plugin dependency).

(** File systems in which some failures are replaced by the absence of
    the file. *)
Definition malformedAsAbsent (fs : FileSystem) : FileSystem :=
  fun p => match fs p with
           | Malformed => Unreadable "ENOENT"
           | other => other
           end.


(** ** Properties created one after the other *)

(** The elements of [l] whose key is met for the first time, [seen] being
    the keys met before. *)
Fixpoint keepFirst {A : Type} (f : A -> string) (seen : list string)
  (l : list A) : list A :=
  match l with
  | [] => []
  | x :: r =>
      if existsb (String.eqb (f x)) seen then keepFirst f seen r
      else x :: keepFirst f (seen ++ [f x]) r
  end.

(** ** The report in closed form *)

Definition leaf : Tree := MkTree [].

(** The tree made of one root labelled [h] with children [ns]. *)
Definition rooted (h : string) (ns : list (string * Tree)) : Tree :=
  MkTree [(h, MkTree ns)].

(** The children left by inserting the labels [l] one after the other. *)
Definition insertAll (l : list string) (cs : list (string * Tree))
  : list (string * Tree) :=
  fold_left (fun c x => Obj.set x leaf c) l cs.

(** [findDep] found a version that passes [if (!version) continue]. *)
Definition resolvedb (fs : FileSystem) (plugin : Plugin.t) (dep : string) : bool :=
  JS.truthy (Found.version (locate fs plugin dep)).

Definition declared (plugin : Plugin.t) : Obj.t string :=
  Obj.spread (PJSON.dependencies (Plugin.pjson plugin)).

Definition sortedDeps (plugin : Plugin.t) : list string :=
  sortBy (Obj.keys (declared plugin)) (fun d => d).

(** The dependencies that reach the report, in the order of the loop. *)
Definition resolvedDeps (fs : FileSystem) (plugin : Plugin.t) : list string :=
  filter (resolvedb fs plugin) (sortedDeps plugin).

Definition entryOf (fs : FileSystem) (plugin : Plugin.t) (dep : string) : Dep.t :=
  Dep.mk (Obj.get dep (declared plugin))
         (JS.show (Found.version (locate fs plugin dep))).

Definition reportDeps (fs : FileSystem) (plugin : Plugin.t) : Dependencies :=
  fold_left (fun o d => Obj.set d (entryOf fs plugin d) o)
            (resolvedDeps fs plugin) [].

Definition fixedNodes (plugin : Plugin.t) : list (string * Tree) :=
  let tagNode :=
    if JS.truthy (Plugin.tag plugin)
    then [("tag " ++ JS.show (Plugin.tag plugin), leaf)] else [] in
  let homepageNode :=
    if JS.truthy (PJSON.homepage (Plugin.pjson plugin))
    then [("homepage " ++ JS.show (PJSON.homepage (Plugin.pjson plugin)), leaf)]
    else [] in
  ("version " ++ Plugin.version plugin, leaf)
  :: List.app tagNode
       (List.app homepageNode [("location " ++ Plugin.root plugin, leaf)]).

Section ReportShape.

Variable chalk_dim : string -> string.
Variable chalk_bold_cyan : string -> string.

Definition labelOf (fs : FileSystem) (plugin : Plugin.t) (verbose : bool)
  (dep : string) : string :=
  msgOf verbose dep
    (versionMsgOf chalk_dim (Obj.get dep (declared plugin))
       (JS.show (Found.version (locate fs plugin dep))))
    (Found.pkgPath (locate fs plugin dep)).

Definition reportTree (fs : FileSystem) (plugin : Plugin.t) (verbose : bool)
  : Tree :=
  rooted (chalk_bold_cyan (Plugin.name plugin))
    (fixedNodes plugin
     ++ [("commands",
          MkTree (insertAll (sortBy (Plugin.commandIDs plugin) (fun c => c)) []));
         ("dependencies",
          MkTree (insertAll (map (labelOf fs plugin verbose)
                                 (resolvedDeps fs plugin)) []))])%list.

End ReportShape.

(** ** Reading a report *)

(** The flat record of a call of [inspect]: the value it resolves to. *)
Definition flatOf (r : Result Inspection.t) : Result PluginWithDeps.t :=
  match r with
  | Ok out => Ok (Inspection.value out)
  | Throw e => Throw e
  end.

(** The labels listed, in the order of [Object.keys], under the node
    [name] of the plugin's root node. *)
Definition sectionOf (t : Tree) (name : string) : list string :=
  match TreeOps.nodes t with
  | [(_, header)] => Obj.keys (TreeOps.childrenAt name header)
  | _ => []
  end.

(** ** Sample plugins and file systems *)

Module Sample.

Definition plain (s : string) : string := s.

(** A plugin installed under another package's [node_modules], so that
    the search chain has two containers. *)
Definition foo : Plugin.t :=
  Plugin.mk "foo" "0.1.0" None "/plugins/node_modules/foo"
    ["foo:zeta"; "foo:alpha"; "foo:mid"]
    (PJSON.mk None (Some [("zeta", "^2.0.0"); ("bar", "^1.0.0");
                          ("alpha", "1.2.0"); ("baz", "^3.0.0")])).

Definition config : Config.t := Config.mk [foo] None.

Definition inner : string := "/plugins/node_modules/foo/node_modules".
Definition outer : string := "/plugins/node_modules".

Definition files (l : list (string * ManifestFile)) : FileSystem :=
  fun p => match Obj.get p l with
           | Some f => f
           | None => Unreadable "ENOENT"
           end.

(** [bar] is installed next to the plugin and, in another version, one
    level up. *)
Definition twoCopies : FileSystem :=
  files [("/plugins/node_modules/foo/node_modules/bar/package.json",
          Manifest (Some "1.2.0"));
         ("/plugins/node_modules/bar/package.json", Manifest (Some "1.9.9"));
         ("/plugins/node_modules/foo/node_modules/alpha/package.json",
          Manifest (Some "1.2.0"));
         ("/plugins/node_modules/zeta/package.json", Manifest (Some "2.1.0"))].

(** [bar] in the same version, nested or hoisted. *)
Definition nested : FileSystem :=
  files [("/plugins/node_modules/foo/node_modules/bar/package.json",
          Manifest (Some "1.2.0"))].

Definition hoisted : FileSystem :=
  files [("/plugins/node_modules/bar/package.json", Manifest (Some "1.2.0"))].

(** The nested manifest of [bar] is corrupt, or may not be read. *)
Definition corruptInner : FileSystem :=
  files [("/plugins/node_modules/foo/node_modules/bar/package.json", Malformed);
         ("/plugins/node_modules/bar/package.json", Manifest (Some "1.2.0"))].





End Sample.

(** ** Notions for the further properties *)

(** The indices, counted from [i], of the segments equal to [part]. *)
Fixpoint positions (part : string) (parts : list string) (i : Z) : list Z :=
  match parts with
  | [] => []
  | e :: r =>
      if e =? part then i :: positions part r (i + 1)%Z
      else positions part r (i + 1)%Z
  end.

(** A segment that [path.join] leaves as it is: not empty, neither [.]
    nor [..], and without separator. *)
Definition isPlainSegment (s : string) : bool :=
  negb (s =? "") && negb (s =? ".") && negb (s =? "..")
  && negb (JS.includes Path.sepChar s).

(** File systems in which a manifest holding the JSON [null] is a missing
    file. *)
Definition nullAsAbsent (fs : FileSystem) : FileSystem :=
  fun p => match fs p with
           | JsonNull => Unreadable "ENOENT"
           | other => other
           end.

(** [b] is strictly shorter than [a]. *)
Definition shorter (a b : string) : Prop := String.length b < String.length a.

(** A clean segment: plain, and either the marker [node_modules] itself
    or a name in which the marker does not occur. *)
Definition isCleanSegment (s : string) : bool :=
  isPlainSegment s
  && ((s =? "node_modules") || (JS.countMatches "node_modules" s 0 =? 0)%nat).

(** The absolute path made of the segments. *)
Definition absolute (segs : list string) : string :=
  "/" ++ String.concat "/" segs.

(** Of segments given innermost first, the leading parts of the path that
    end in the marker, the longest first. *)
Fixpoint markerEnds (reversed : list string) : list (list string) :=
  match reversed with
  | [] => []
  | s :: r =>
      if s =? "node_modules" then rev (s :: r) :: markerEnds r
      else markerEnds r
  end.

(** The folders named [node_modules] on the way from the root of the file
    system to the folder [node_modules] of the plugin, innermost first. *)
Definition containersOf (segs : list string) : list string :=
  map absolute (markerEnds (rev (segs ++ ["node_modules"]))).

(** The outcome [o] of a run, coming after the results [plugins] and the
    trees [shown] of an earlier one. *)
Definition withBefore (plugins : list PluginWithDeps.t) (shown : list Tree)
  (o : RunOutcome.t) : RunOutcome.t :=
  RunOutcome.mk (shown ++ RunOutcome.shown o)%list (RunOutcome.logged o)
    match RunOutcome.result o with
    | Ok l => Ok (plugins ++ l)%list
    | Throw e => Throw e
    end.

(** More sample plugins and file systems. *)
Module Sample2.

(** A plugin installed on its own, with [bar] next to it. *)
Definition direct : Plugin.t :=
  Plugin.mk "foo" "0.1.0" (Some "latest") "/plugins/foo" ["foo:b"; "foo:a"; "foo:b"]
    (PJSON.mk (Some "https://example.org/foo") (Some [("bar", "^1.0.0")])).

Definition directFiles : FileSystem :=
  Sample.files [("/plugins/foo/node_modules/bar/package.json",
                 Manifest (Some "1.2.0"))].

(** [Sample.nested] with a file that no candidate of [bar] names. *)
Definition nestedAndMore : FileSystem :=
  Sample.files [("/plugins/node_modules/foo/node_modules/bar/package.json",
                 Manifest (Some "1.2.0"));
                ("/elsewhere/node_modules/bar/package.json",
                 Manifest (Some "9.9.9"))].

(** The nested manifest of [bar] is the JSON [null], or has no version;
    a copy with a version lies one level up. *)
Definition nullInner : FileSystem :=
  Sample.files [("/plugins/node_modules/foo/node_modules/bar/package.json",
                 JsonNull);
                ("/plugins/node_modules/bar/package.json", Manifest (Some "1.2.0"))].

Definition versionlessInner : FileSystem :=
  Sample.files [("/plugins/node_modules/foo/node_modules/bar/package.json",
                 Manifest None);
                ("/plugins/node_modules/bar/package.json", Manifest (Some "1.2.0"))].

(** A plugin without dependencies, and one with the commands of
    [Sample.foo] declared in another order. *)
Definition bare : Plugin.t :=
  Plugin.mk "bare" "2.0.0" None "/plugins/bare" ["bare:run"] (PJSON.mk None None).

Definition fooReordered : Plugin.t :=
  Plugin.mk "foo" "0.1.0" None "/plugins/node_modules/foo"
    ["foo:alpha"; "foo:mid"; "foo:zeta"]
    (PJSON.mk None (Some [("zeta", "^2.0.0"); ("bar", "^1.0.0");
                          ("alpha", "1.2.0"); ("baz", "^3.0.0")])).

Definition plugins : Config.t :=
  Config.mk [Sample.foo; bare; direct] (Some [("jit", "1.0.0")]).

(** The registry of [maybeUnfriendlyName], here without any friendly
    name. *)
Definition asGiven (name : string) : Result string := Ok name.

Definition aliases : Obj.t (option string) :=
  [("old", Some "bare"); ("banned", None)].

End Sample2.

(** ** Claims that fail, as propositions *)


(** The claim C1: the install path a dependency resolved to can be read
    off its entry in the flat record. *)
Definition flat_entry_carries_path : Prop :=
  exists resolvedPath : Dep.t -> option string,
  forall config fs jsonEnabled pluginName verbose out dep entry found,
    inspect Sample.plain Sample.plain config fs jsonEnabled pluginName verbose
    = Ok out ->
    Obj.get dep (PluginWithDeps.deps (Inspection.value out)) = Some entry ->
    findDep fs (PluginWithDeps.plugin (Inspection.value out)) dep = Ok found ->
    resolvedPath entry = Found.pkgPath found.

(** The claim C7, for the part of the label that shows the versions: it
    reads [declaredRange => resolvedVersion] exactly when the declared
    range is not the resolved version. *)
Definition arrow_iff_range_differs : Prop :=
  forall (from : option string) (version : string),
    version <> "" ->
    versionMsgOf Sample.plain from version = JS.show from ++ " => " ++ version
    <-> from <> Some version.



(* ================================================================= *)
(** * Properties *)

(** ** The model at work *)

Example trimUntil_ex1 :
  trimUntil "/a/node_modules/b/node_modules/c" "node_modules"
  = "/a/node_modules/b/node_modules".
Proof. reflexivity. Qed.

Example trimUntil_ex2 : trimUntil "/a/b/c" "node_modules" = "".
Proof. reflexivity. Qed.

Example dirname_ex :
  map Path.dirname ["/a/b/c"; "/a"; "a//b"; "//a"; "abc"; "/a/b/"; ""; "/"]
  = ["/a/b"; "/"; "a/"; "//"; "."; "/a"; "."; "/"].
Proof. reflexivity. Qed.

Example join_ex :
  map Path.join [["/p/foo"; "node_modules"]; [""; "bar"]; ["@scope"; "name"];
                 ["/a/../.."; "b/"]; ["a"; "../../c"]; [""]; ["/p//q/./r"; ".."]]
  = ["/p/foo/node_modules"; "bar"; "@scope/name"; "/b/"; "../c"; "."; "/p/q"].
Proof. reflexivity. Qed.

Example searchPaths_sample :
  searchPaths (Plugin.root Sample.foo) = [Sample.inner; Sample.outer].
Proof. reflexivity. Qed.

Example candidates_scoped :
  candidates Sample.foo "@scope/name"
  = ["/plugins/node_modules/foo/node_modules/@scope/name";
     "/plugins/node_modules/@scope/name"].
Proof. reflexivity. Qed.

Example inspect_sample :
  inspect Sample.plain Sample.plain Sample.config Sample.twoCopies false "foo" true
  = Ok (Inspection.mk
          (MkTree
             [("foo",
               MkTree
                 [("version 0.1.0", leaf);
                  ("location /plugins/node_modules/foo", leaf);
                  ("commands",
                   MkTree [("foo:alpha", leaf); ("foo:mid", leaf);
                           ("foo:zeta", leaf)]);
                  ("dependencies",
                   MkTree
                     [("alpha 1.2.0 => 1.2.0 /plugins/node_modules/foo/node_modules/alpha", leaf);
                      ("bar ^1.0.0 => 1.2.0 /plugins/node_modules/foo/node_modules/bar", leaf);
                      ("zeta ^2.0.0 => 2.1.0 /plugins/node_modules/zeta", leaf)])])])
          true
          (PluginWithDeps.mk Sample.foo
             [("alpha", Dep.mk (Some "1.2.0") "1.2.0");
              ("bar", Dep.mk (Some "^1.0.0") "1.2.0");
              ("zeta", Dep.mk (Some "^2.0.0") "2.1.0")])).
Proof. reflexivity. Qed.

(** ** Strings and lists of segments *)

Lemma length_list_ascii_of_string (s : string) :
  List.length (list_ascii_of_string s) = String.length s.
Proof. induction s; simpl; congruence. Qed.

Lemma length_append (s1 s2 : string) :
  String.length (s1 ++ s2) = String.length s1 + String.length s2.
Proof. induction s1; simpl; congruence. Qed.

Lemma string_append_nil_r (s : string) : s ++ "" = s.
Proof. induction s; simpl; congruence. Qed.

Lemma length_substring0_le (n : nat) (s : string) :
  String.length (String.substring 0 n s) <= n.
Proof.
  revert s; induction n as [|n IH]; intros [|c s]; simpl; try lia.
  specialize (IH s); lia.
Qed.

Lemma prefix_length (s1 s2 : string) :
  String.prefix s1 s2 = true -> String.length s1 <= String.length s2.
Proof.
  revert s2; induction s1 as [|a s1 IH]; intros [|b s2] H; simpl in *;
    try lia; try discriminate.
  destruct (ascii_dec a b); [apply IH in H; lia | discriminate].
Qed.

Lemma split_not_nil (c : ascii) (s : string) : JS.split c s <> [].
Proof.
  destruct s as [|a r]; simpl; [discriminate|].
  destruct (Ascii.eqb a c); [discriminate|].
  destruct (JS.split c r); discriminate.
Qed.

(** Splitting at the separator and joining with it gives the path back. *)
Lemma join_split (s : string) :
  JS.join Path.sep (JS.split Path.sepChar s) = s.
Proof.
  unfold JS.join, Path.sep.
  induction s as [|a r IH]; [reflexivity|].
  simpl JS.split.
  destruct (Ascii.eqb_spec a Path.sepChar) as [->|Hne].
  - pose proof (split_not_nil Path.sepChar r) as Hnn.
    destruct (JS.split Path.sepChar r) as [|h t] eqn:E; [congruence|].
    change (String.concat "/" ("" :: h :: t))
      with ("" ++ "/" ++ String.concat "/" (h :: t)).
    rewrite IH. reflexivity.
  - pose proof (split_not_nil Path.sepChar r) as Hnn.
    destruct (JS.split Path.sepChar r) as [|h t] eqn:E; [congruence|].
    rewrite <- IH. destruct t; reflexivity.
Qed.

Lemma concat_cons_length (sep x : string) (l : list string) :
  String.length x <= String.length (String.concat sep (x :: l)).
Proof.
  destruct l; simpl; [lia|]. rewrite length_append. lia.
Qed.

Lemma concat_firstn_length (sep : string) (l : list string) (n : nat) :
  String.length (String.concat sep (firstn n l))
  <= String.length (String.concat sep l).
Proof.
  revert n; induction l as [|x l IH]; intros [|n]; simpl firstn;
    try (simpl; lia).
  destruct l as [|y l].
  - rewrite firstn_nil. simpl. lia.
  - destruct n as [|n].
    + simpl firstn. change (String.concat sep [x]) with x.
      apply concat_cons_length.
    + specialize (IH (S n)). simpl firstn in *.
      change (String.concat sep (x :: y :: firstn n l))
        with (x ++ sep ++ String.concat sep (y :: firstn n l)).
      change (String.concat sep (x :: y :: l))
        with (x ++ sep ++ String.concat sep (y :: l)).
      rewrite !length_append. lia.
Qed.

(** ** [trimUntil] *)

Lemma markerIndices_fold (part : string) (parts : list string)
  (a : list Z) (i : Z) :
  Forall (fun z => 0 <= z)%Z a -> (0 <= i)%Z ->
  let r := fst (fold_left
                  (fun (st : list Z * Z) (e : string) =>
                     let (a, i) := st in
                     ((if e =? part then (a ++ [i])%list else a), (i + 1)%Z))
                  parts (a, i)) in
  Forall (fun z => 0 <= z)%Z r /\ (~ In part parts -> r = a).
Proof.
  revert a i; induction parts as [|e parts IH]; intros a i Ha Hi; simpl.
  - split; auto.
  - destruct (String.eqb_spec e part) as [->|Hne].
    + destruct (IH (a ++ [i])%list (i + 1)%Z) as [H1 _];
        [apply Forall_app; split; auto | lia |].
      split; [exact H1 | intros Hn; exfalso; apply Hn; now left].
    + destruct (IH a (i + 1)%Z Ha) as [H1 H2]; [lia|].
      split; [exact H1 | intros Hn; apply H2; intros Hin; apply Hn; now right].
Qed.

Lemma markerIndices_nonneg (parts : list string) (part : string) :
  Forall (fun z => 0 <= z)%Z (markerIndices parts part).
Proof.
  apply (markerIndices_fold part parts [] 0%Z); [constructor | lia].
Qed.

Lemma markerIndices_absent (parts : list string) (part : string) :
  ~ In part parts -> markerIndices parts part = [].
Proof.
  apply (markerIndices_fold part parts [] 0%Z); [constructor | lia].
Qed.

Lemma Math_max_nonneg (l : list Z) :
  Forall (fun z => 0 <= z)%Z l -> num_nonneg (JS.Math_max l).
Proof.
  unfold JS.Math_max.
  assert (G : forall m, num_nonneg m ->
              Forall (fun z => 0 <= z)%Z l ->
              num_nonneg (fold_left (fun m x => JS.num_max m (JS.Int x)) l m)).
  { induction l as [|x l IH]; intros m Hm Hl; simpl; [exact Hm|].
    inversion Hl; subst. apply IH; [|assumption].
    destruct m; simpl in *; lia. }
  intros Hl. apply G; [exact I | exact Hl].
Qed.

Lemma slice0_is_firstn {A : Type} (l : list A) (e : JS.Num) :
  exists n, JS.slice0 l e = firstn n l.
Proof. unfold JS.slice0. eexists; reflexivity. Qed.

Lemma trimUntil_length (fsPath part : string) :
  String.length (trimUntil fsPath part) <= String.length fsPath.
Proof.
  unfold trimUntil.
  destruct (JS.num_eqb _ _); [lia|].
  destruct (slice0_is_firstn (JS.split Path.sepChar fsPath)
              (JS.num_add (JS.Math_max
                 (markerIndices (JS.split Path.sepChar fsPath) part)) 1))
    as [n ->].
  unfold JS.join.
  etransitivity; [apply concat_firstn_length|].
  pose proof (join_split fsPath) as E. unfold JS.join in E.
  rewrite E. lia.
Qed.

(** ** [path.dirname] *)

Lemma skipSegment_bound (r : list ascii) (k : nat) :
  Path.skipSegment r = Some k -> k < List.length r.
Proof.
  induction r as [|c r IH]; simpl; [discriminate|].
  destruct (Ascii.eqb c Path.sepChar).
  - intros [= <-]. lia.
  - intros H. apply IH in H. lia.
Qed.

Lemma skipSeparators_bound (r : list ascii) (k : nat) :
  Path.skipSeparators r = Some k -> k + 2 <= List.length r.
Proof.
  induction r as [|c r IH]; simpl; [discriminate|].
  destruct (Ascii.eqb c Path.sepChar).
  - intros H. apply IH in H. lia.
  - intros H. apply skipSegment_bound in H. lia.
Qed.

Lemma dirname_length (p : string) :
  2 <= String.length p ->
  String.length (Path.dirname p) < String.length p.
Proof.
  destruct p as [|c0 rest]; [simpl; lia|].
  intros Hlen. unfold Path.dirname.
  destruct (Path.skipSeparators (rev (list_ascii_of_string rest))) as [k|] eqn:E.
  - apply skipSeparators_bound in E.
    rewrite length_rev, length_list_ascii_of_string in E.
    destruct (Ascii.eqb c0 Path.sepChar && Nat.eqb k 0).
    + simpl. lia.
    + pose proof (length_substring0_le (S k) (String c0 rest)).
      simpl String.length in *. lia.
  - destruct (Ascii.eqb c0 Path.sepChar); simpl in *; lia.
Qed.

(** ** The search chain *)

Lemma countMatches_length (pat s : string) (skip : nat) :
  0 < JS.countMatches pat s skip -> String.length pat <= String.length s.
Proof.
  revert skip; induction s as [|a r IH]; intros skip.
  - simpl. lia.
  - destruct skip as [|k].
    + change (JS.countMatches pat (String a r) 0)
        with (if String.prefix pat (String a r)
              then S (JS.countMatches pat r (String.length pat - 1))
              else JS.countMatches pat r 0).
      destruct (String.prefix pat (String a r)) eqn:E.
      * intros _. now apply prefix_length.
      * intros H. apply IH in H. simpl. lia.
    + intros H. apply IH in H. simpl. lia.
Qed.

(** Every iteration of the loop strictly shortens [start]. *)
Lemma chain_step_shorter (start : string) :
  1 < JS.countMatches "node_modules" start 0 ->
  String.length (trimUntil (Path.dirname start) "node_modules")
  < String.length start.
Proof.
  intros H.
  assert (L : String.length "node_modules" <= String.length start)
    by (apply (countMatches_length _ _ 0); lia).
  change (String.length "node_modules") with 12 in L.
  pose proof (trimUntil_length (Path.dirname start) "node_modules").
  pose proof (dirname_length start). lia.
Qed.

Lemma chainLoop_unfold (fuel : nat) (start : string) :
  chainLoop fuel start =
  if (1 <? JS.countMatches "node_modules" start 0)%nat then
    match fuel with
    | O => []
    | S fuel' =>
        trimUntil (Path.dirname start) "node_modules"
        :: chainLoop fuel' (trimUntil (Path.dirname start) "node_modules")
    end
  else [].
Proof. destruct fuel; reflexivity. Qed.

Lemma chainLoop_enough_fuel (fuel : nat) (start : string) :
  String.length start <= fuel ->
  ChainLoop start (chainLoop fuel start)
  /\ List.length (chainLoop fuel start) <= String.length start.
Proof.
  revert start; induction fuel as [|fuel IH]; intros start Hlen;
    rewrite chainLoop_unfold;
    destruct (Nat.ltb_spec 1 (JS.countMatches "node_modules" start 0))
      as [Hgt|Hle];
    try (split; [now apply ChainLoop_exit | simpl; lia]).
  - assert (L : String.length "node_modules" <= String.length start)
      by (apply (countMatches_length _ _ 0); lia).
    simpl in L. lia.
  - pose proof (chain_step_shorter start Hgt) as Hs.
    destruct (IH (trimUntil (Path.dirname start) "node_modules")) as [H1 H2];
      [lia|].
    split; [now apply ChainLoop_iter | simpl; lia].
Qed.

Lemma ChainLoop_deterministic (start : string) (l1 l2 : list string) :
  ChainLoop start l1 -> ChainLoop start l2 -> l1 = l2.
Proof.
  intros H1; revert l2; induction H1; intros l2 H2; inversion H2; subst;
    try lia; try reflexivity.
  f_equal. now apply IHChainLoop.
Qed.

(** ** [findDep]: the walk over the candidates *)

Lemma tryPaths_firstReadable (fs : FileSystem) (dp : string)
  (paths : list string) :
  tryPaths fs dp paths
  = Ok (firstReadable fs (map (fun p => Path.join [p; dp]) paths)).
Proof.
  induction paths as [|p rest IH]; [reflexivity|].
  cbn [tryPaths map firstReadable]. unfold readManifest, manifestPath.
  destruct (fs (Path.join [Path.join [p; dp]; "package.json"]));
    try exact IH; reflexivity.
Qed.

Lemma findDep_locate (fs : FileSystem) (plugin : Plugin.t) (dep : string) :
  findDep fs plugin dep = Ok (locate fs plugin dep).
Proof. unfold findDep, locate, candidates. apply tryPaths_firstReadable. Qed.

Lemma firstReadable_hit (fs : FileSystem) (pre post : list string)
  (c : string) (v : option string) :
  (forall c', In c' pre -> readable fs c' = false) ->
  fs (manifestPath c) = Manifest v ->
  firstReadable fs (pre ++ c :: post) = Found.mk (Some c) v.
Proof.
  intros Hpre Hc. induction pre as [|c0 pre IH]; simpl.
  - now rewrite Hc.
  - pose proof (Hpre c0 (or_introl eq_refl)) as H0. unfold readable in H0.
    destruct (fs (manifestPath c0)); try discriminate;
      apply IH; intros c' Hin; apply Hpre; now right.
Qed.

Lemma firstReadable_none (fs : FileSystem) (cands : list string) :
  (forall c, In c cands -> readable fs c = false) ->
  firstReadable fs cands = Found.mk None None.
Proof.
  induction cands as [|c0 cands IH]; intros H; simpl; [reflexivity|].
  pose proof (H c0 (or_introl eq_refl)) as H0. unfold readable in H0.
  destruct (fs (manifestPath c0)); try discriminate;
    apply IH; intros c' Hin; apply H; now right.
Qed.

(** Only whether a candidate is readable, and with which version, matters. *)
Lemma firstReadable_ext (fs fs' : FileSystem) (cands : list string) :
  (forall c, In c cands ->
     match fs (manifestPath c), fs' (manifestPath c) with
     | Manifest v, Manifest v' => v = v'
     | Manifest _, _ | _, Manifest _ => False
     | _, _ => True
     end) ->
  firstReadable fs cands = firstReadable fs' cands.
Proof.
  induction cands as [|c0 cands IH]; intros H; simpl; [reflexivity|].
  pose proof (H c0 (or_introl eq_refl)) as H0.
  assert (IH' : firstReadable fs cands = firstReadable fs' cands)
    by (apply IH; intros c Hin; apply H; now right).
  destruct (fs (manifestPath c0)), (fs' (manifestPath c0));
    try contradiction; try exact IH'.
  now subst.
Qed.

(** A version found comes with the path it was found at. *)
Lemma firstReadable_version_path (fs : FileSystem) (cands : list string)
  (v : string) :
  Found.version (firstReadable fs cands) = Some v ->
  exists c, In c cands /\ Found.pkgPath (firstReadable fs cands) = Some c
            /\ fs (manifestPath c) = Manifest (Some v).
Proof.
  induction cands as [|c0 cands IH]; simpl; [discriminate|].
  destruct (fs (manifestPath c0)) eqn:E; simpl;
    try (intros H; destruct (IH H) as (c & Hin & Hp & Hf);
         exists c; repeat split; auto).
  intros ->. exists c0. repeat split; auto.
Qed.

(** ** Objects *)

Lemma get_set_same {A : Type} (k : string) (v : A) (o : Obj.t A) :
  Obj.get k (Obj.set k v o) = Some v.
Proof.
  induction o as [|[k' v'] o IH]; simpl.
  - now rewrite String.eqb_refl.
  - destruct (String.eqb_spec k' k) as [->|Hne]; simpl.
    + now rewrite String.eqb_refl.
    + destruct (String.eqb_spec k' k); [contradiction | exact IH].
Qed.

Lemma get_set_other {A : Type} (k k' : string) (v : A) (o : Obj.t A) :
  k <> k' -> Obj.get k' (Obj.set k v o) = Obj.get k' o.
Proof.
  intros Hne. induction o as [|[k0 v0] o IH]; simpl.
  - destruct (String.eqb_spec k k'); [contradiction | reflexivity].
  - destruct (String.eqb_spec k0 k) as [->|Hne0]; simpl.
    + destruct (String.eqb_spec k k'); [contradiction | reflexivity].
    + destruct (String.eqb_spec k0 k'); [reflexivity | exact IH].
Qed.

Lemma set_set {A : Type} (k : string) (v v' : A) (o : Obj.t A) :
  Obj.set k v' (Obj.set k v o) = Obj.set k v' o.
Proof.
  induction o as [|[k0 v0] o IH]; simpl.
  - now rewrite String.eqb_refl.
  - destruct (String.eqb_spec k0 k) as [->|Hne]; simpl.
    + now rewrite String.eqb_refl.
    + destruct (String.eqb_spec k0 k); [contradiction | now rewrite IH].
Qed.

Lemma set_get_same {A : Type} (k : string) (v : A) (o : Obj.t A) :
  Obj.get k o = Some v -> Obj.set k v o = o.
Proof.
  induction o as [|[k0 v0] o IH]; simpl; [discriminate|].
  destruct (String.eqb_spec k0 k) as [->|Hne].
  - now intros [= ->].
  - intros H. f_equal. now apply IH.
Qed.

Lemma get_some_in_keys {A : Type} (k : string) (v : A) (o : Obj.t A) :
  Obj.get k o = Some v -> In k (map fst o).
Proof.
  induction o as [|[k0 v0] o IH]; simpl; [discriminate|].
  destruct (String.eqb_spec k0 k) as [->|Hne]; [now left | intros H; right; auto].
Qed.

Lemma keys_set {A : Type} (k : string) (v : A) (o : Obj.t A) :
  map fst (Obj.set k v o)
  = if existsb (String.eqb k) (map fst o) then map fst o
    else (map fst o ++ [k])%list.
Proof.
  induction o as [|[k0 v0] o IH]; simpl; [reflexivity|].
  rewrite (String.eqb_sym k k0).
  destruct (String.eqb_spec k0 k) as [->|Hne]; simpl; [reflexivity|].
  rewrite IH. destruct (existsb (String.eqb k) (map fst o)); reflexivity.
Qed.

(** Setting properties one after the other creates them in the order of
    their first occurrence. *)
Lemma keys_fold_set {A B : Type} (f : A -> string) (g : A -> B)
  (l : list A) (o : Obj.t B) :
  map fst (fold_left (fun o x => Obj.set (f x) (g x) o) l o)
  = (map fst o ++ map f (keepFirst f (map fst o) l))%list.
Proof.
  revert o; induction l as [|x r IH]; intros o; simpl.
  - now rewrite app_nil_r.
  - rewrite IH, keys_set.
    destruct (existsb (String.eqb (f x)) (map fst o)); [reflexivity|].
    simpl. now rewrite <- app_assoc.
Qed.

Lemma get_fold_set {A B : Type} (f : A -> string) (g : A -> B)
  (l : list A) (o : Obj.t B) (k : string) (v : B) :
  Obj.get k (fold_left (fun o x => Obj.set (f x) (g x) o) l o) = Some v ->
  (exists x, In x l /\ f x = k /\ g x = v) \/ Obj.get k o = Some v.
Proof.
  revert o; induction l as [|x r IH]; intros o; simpl; [now right|].
  intros H. destruct (IH _ H) as [(y & Hin & Hf & Hg)|Hget].
  - left. exists y. auto.
  - destruct (String.eqb_spec (f x) k) as [E|Hne].
    + subst k. rewrite get_set_same in Hget. injection Hget as <-.
      left. exists x. auto.
    + rewrite get_set_other in Hget by assumption. now right.
Qed.

Lemma keepFirst_incl {A : Type} (f : A -> string) (seen : list string)
  (l : list A) (x : A) :
  In x (keepFirst f seen l) -> In x l.
Proof.
  revert seen; induction l as [|y r IH]; intros seen; simpl; [tauto|].
  destruct (existsb (String.eqb (f y)) seen).
  - intros H. right. eapply IH, H.
  - intros [->|H]; [now left | right; eapply IH, H].
Qed.

Lemma keepFirst_complete {A : Type} (f : A -> string) (seen : list string)
  (l : list A) (x : A) :
  In x l -> In (f x) seen \/ In (f x) (map f (keepFirst f seen l)).
Proof.
  revert seen; induction l as [|y r IH]; intros seen; simpl; [tauto|].
  intros [->|Hin].
  - destruct (existsb (String.eqb (f x)) seen) eqn:E.
    + left. apply existsb_exists in E. destruct E as (k & Hk & Ek).
      apply String.eqb_eq in Ek. now subst.
    + right. now left.
  - destruct (existsb (String.eqb (f y)) seen).
    + now apply IH.
    + destruct (IH (seen ++ [f y])%list Hin) as [H|H].
      * apply in_app_or in H. destruct H as [H|[H|[]]];
          [now left | right; left; exact H].
      * right. now right.
Qed.




(** ** The order of [sortBy] *)

Lemma ascii_compare_refl (a : ascii) : Ascii.compare a a = Eq.
Proof. unfold Ascii.compare. apply N.compare_refl. Qed.

Lemma ascii_compare_lt_trans (a b c : ascii) :
  Ascii.compare a b = Lt -> Ascii.compare b c = Lt -> Ascii.compare a c = Lt.
Proof.
  unfold Ascii.compare. rewrite !N.compare_lt_iff. apply N.lt_trans.
Qed.

Lemma string_compare_lt_trans (s1 s2 s3 : string) :
  String.compare s1 s2 = Lt -> String.compare s2 s3 = Lt ->
  String.compare s1 s3 = Lt.
Proof.
  revert s2 s3; induction s1 as [|a s1 IH]; intros [|b s2] [|c s3];
    simpl; try discriminate; try reflexivity.
  destruct (Ascii.compare a b) eqn:Eab; try discriminate;
    destruct (Ascii.compare b c) eqn:Ebc; try discriminate; intros H1 H2.
  - apply Ascii.compare_eq_iff in Eab, Ebc. subst.
    rewrite ascii_compare_refl. eapply IH; eassumption.
  - apply Ascii.compare_eq_iff in Eab. subst. now rewrite Ebc.
  - apply Ascii.compare_eq_iff in Ebc. subst. now rewrite Eab.
  - now rewrite (ascii_compare_lt_trans a b c).
Qed.

Lemma str_le_trans (a b c : string) : str_le a b -> str_le b c -> str_le a c.
Proof.
  unfold str_le, String.leb. intros H1 H2.
  destruct (String.compare a b) eqn:Eab; try discriminate;
    destruct (String.compare b c) eqn:Ebc; try discriminate.
  - apply String.compare_eq_iff in Eab. subst. now rewrite Ebc.
  - apply String.compare_eq_iff in Eab. subst. now rewrite Ebc.
  - apply String.compare_eq_iff in Ebc. subst. now rewrite Eab.
  - now rewrite (string_compare_lt_trans a b c).
Qed.

Section InsertionSortFacts.
Context {A : Type} (le : A -> A -> bool).
Hypothesis le_total : forall a b, le a b = true \/ le b a = true.
Hypothesis le_trans :
  forall a b c, le a b = true -> le b c = true -> le a c = true.

Let R (a b : A) : Prop := le a b = true.

Lemma insertSorted_perm (x : A) (l : list A) :
  Permutation (x :: l) (insertSorted le x l).
Proof.
  induction l as [|y r IH]; simpl; [reflexivity|].
  destruct (le x y); [reflexivity|].
  rewrite perm_swap. now constructor.
Qed.

Lemma isort_perm (l : list A) : Permutation l (isort le l).
Proof.
  induction l as [|x r IH]; simpl; [constructor|].
  etransitivity; [|apply insertSorted_perm]. now constructor.
Qed.

Lemma insertSorted_sorted (x : A) (l : list A) :
  StronglySorted R l -> StronglySorted R (insertSorted le x l).
Proof.
  induction 1 as [|y r Hs IH Hy]; simpl.
  - constructor; constructor.
  - destruct (le x y) eqn:E.
    + constructor; [now constructor|].
      constructor; [exact E|].
      eapply Forall_impl; [|exact Hy]. intros z Hz. eapply le_trans; eauto.
    + constructor; [exact IH|].
      assert (Hyx : le y x = true) by (destruct (le_total x y); congruence).
      apply Forall_forall. intros z Hz.
      apply (Permutation_in _ (Permutation_sym (insertSorted_perm x r))) in Hz.
      destruct Hz as [<-|Hz]; [exact Hyx|].
      revert z Hz. now apply Forall_forall.
Qed.

Lemma isort_sorted (l : list A) : StronglySorted R (isort le l).
Proof.
  induction l as [|x r IH]; simpl; [constructor|].
  now apply insertSorted_sorted.
Qed.
End InsertionSortFacts.

Lemma sortBy_sorted (l : list string) :
  StronglySorted str_le (sortBy l (fun s => s)).
Proof.
  unfold sortBy.
  apply (isort_sorted (fun a b => String.leb a b)).
  - intros a b. apply String.leb_total.
  - intros a b c. apply str_le_trans.
Qed.

Lemma sortBy_perm (l : list string) :
  Permutation l (sortBy l (fun s => s)).
Proof. apply isort_perm. Qed.

(** ** [inspect]: the report in closed form *)

Lemma at_rooted (h : string) (op : Tree -> Result Tree)
  (ns : list (string * Tree)) :
  TreeOps.at_ h op (rooted h ns)
  = (c <- op (MkTree ns) ;; Ok (MkTree [(h, c)])).
Proof.
  unfold TreeOps.at_, rooted. cbn [TreeOps.nodes Obj.get Obj.set].
  rewrite String.eqb_refl. reflexivity.
Qed.

Lemma under_rooted (h child : string) (ns : list (string * Tree)) :
  TreeOps.at_ h (fun x => Ok (TreeOps.insert child x)) (rooted h ns)
  = Ok (rooted h (Obj.set child leaf ns)).
Proof. rewrite at_rooted. reflexivity. Qed.

Lemma insert_at_rooted (h k x : string) (ns cs : list (string * Tree)) :
  Obj.get k ns = Some (MkTree cs) ->
  TreeOps.at_ h (TreeOps.at_ k (fun c => Ok (TreeOps.insert x c))) (rooted h ns)
  = Ok (rooted h (Obj.set k (MkTree (Obj.set x leaf cs)) ns)).
Proof.
  intros Hk. rewrite at_rooted. unfold TreeOps.at_ at 1. simpl.
  rewrite Hk. reflexivity.
Qed.

Lemma forOf_insert_rooted (h k : string) (l : list string)
  (ns cs : list (string * Tree)) :
  Obj.get k ns = Some (MkTree cs) ->
  forOf l (fun t x =>
             TreeOps.at_ h (TreeOps.at_ k (fun c => Ok (TreeOps.insert x c))) t)
        (rooted h ns)
  = Ok (rooted h (Obj.set k (MkTree (insertAll l cs)) ns)).
Proof.
  revert ns cs; induction l as [|x r IH]; intros ns cs Hk; simpl.
  - now rewrite (set_get_same _ _ _ Hk).
  - rewrite (insert_at_rooted h k x ns cs Hk). simpl.
    rewrite (IH _ (Obj.set x leaf cs)) by apply get_set_same.
    now rewrite set_set.
Qed.

Section InspectFacts.

Variable chalk_dim : string -> string.
Variable chalk_bold_cyan : string -> string.

Lemma depStep_rooted (fs : FileSystem) (plugin : Plugin.t) (h : string)
  (verbose : bool) (ns ds : list (string * Tree)) (dj : Dependencies)
  (dep : string) :
  Obj.get "dependencies" ns = Some (MkTree ds) ->
  depStep chalk_dim fs plugin (declared plugin) h verbose (rooted h ns, dj) dep
  = Ok (if resolvedb fs plugin dep
        then (rooted h (Obj.set "dependencies"
                          (MkTree (Obj.set (labelOf chalk_dim fs plugin verbose dep) leaf ds))
                          ns),
              Obj.set dep (entryOf fs plugin dep) dj)
        else (rooted h ns, dj)).
Proof.
  intros Hk. unfold depStep, resolvedb, labelOf, entryOf.
  rewrite findDep_locate. cbn [bind].
  destruct (Found.version (locate fs plugin dep)) as [[|c v]|];
    cbn [JS.truthy JS.show String.eqb]; try reflexivity.
  rewrite (insert_at_rooted h "dependencies" _ ns ds Hk). reflexivity.
Qed.

Lemma forOf_depStep_rooted (fs : FileSystem) (plugin : Plugin.t) (h : string)
  (verbose : bool) (l : list string) (ns ds : list (string * Tree))
  (dj : Dependencies) :
  Obj.get "dependencies" ns = Some (MkTree ds) ->
  forOf l (depStep chalk_dim fs plugin (declared plugin) h verbose)
        (rooted h ns, dj)
  = Ok (rooted h (Obj.set "dependencies"
                    (MkTree (insertAll (map (labelOf chalk_dim fs plugin verbose)
                                            (filter (resolvedb fs plugin) l)) ds))
                    ns),
        fold_left (fun o d => Obj.set d (entryOf fs plugin d) o)
                  (filter (resolvedb fs plugin) l) dj).
Proof.
  revert ns ds dj; induction l as [|d r IH]; intros ns ds dj Hk.
  - simpl. now rewrite (set_get_same _ _ _ Hk).
  - cbn [forOf]. rewrite (depStep_rooted fs plugin h verbose ns ds dj d Hk).
    cbn [bind filter].
    destruct (resolvedb fs plugin d).
    + rewrite (IH _ (Obj.set (labelOf chalk_dim fs plugin verbose d) leaf ds))
        by apply get_set_same.
      now rewrite set_set.
    + now apply IH.
Qed.

(** What [inspect] builds for an installed plugin. *)
Lemma inspect_installed (config : Config.t) (fs : FileSystem)
  (jsonEnabled : bool) (pluginName : string) (verbose : bool)
  (plugin : Plugin.t) :
  findPlugin config pluginName = Ok plugin ->
  inspect chalk_dim chalk_bold_cyan config fs jsonEnabled pluginName verbose
  = Ok (Inspection.mk (reportTree chalk_dim chalk_bold_cyan fs plugin verbose) (negb jsonEnabled)
          (PluginWithDeps.mk plugin (reportDeps fs plugin))).
Proof.
  intros Hfind. unfold inspect. rewrite Hfind. cbn [bind]. cbv zeta.
  change (TreeOps.insert (chalk_bold_cyan (Plugin.name plugin)) (MkTree []))
    with (rooted (chalk_bold_cyan (Plugin.name plugin)) []).
  set (h := chalk_bold_cyan (Plugin.name plugin)).
  rewrite under_rooted. cbn [bind].
  unfold reportTree, reportDeps, fixedNodes, resolvedDeps, sortedDeps.
  fold h. fold (declared plugin).
  destruct (JS.truthy (Plugin.tag plugin));
    destruct (JS.truthy (PJSON.homepage (Plugin.pjson plugin)));
    cbn [bind]; repeat (rewrite under_rooted; cbn [bind]);
    rewrite (forOf_insert_rooted h "commands" _ _ []) by apply get_set_same;
    cbn [bind]; rewrite under_rooted; cbn [bind];
    rewrite (forOf_depStep_rooted fs plugin h verbose _ _ []) by apply get_set_same;
    cbn [bind]; rewrite !set_set; reflexivity.
Qed.

Lemma inspect_not_installed (config : Config.t) (fs : FileSystem)
  (jsonEnabled : bool) (pluginName : string) (verbose : bool) (e : JSError) :
  findPlugin config pluginName = Throw e ->
  inspect chalk_dim chalk_bold_cyan config fs jsonEnabled pluginName verbose
  = Throw e.
Proof. intros Hfind. unfold inspect. now rewrite Hfind. Qed.

End InspectFacts.

(** ** Reading the closed form *)

Lemma get_none_not_in {A : Type} (k : string) (o : Obj.t A) :
  Obj.get k o = None -> ~ In k (map fst o).
Proof.
  induction o as [|[k0 v0] o IH]; simpl; [tauto|].
  destruct (String.eqb_spec k0 k) as [->|Hne]; [discriminate|].
  intros H [E|Hin]; [contradiction | now apply IH].
Qed.

Lemma indexKeys_In (ks : list string) (n : N) (k : string) :
  In (n, k) (Obj.indexKeys ks) <-> In k ks /\ Obj.arrayIndex k = Some n.
Proof.
  unfold Obj.indexKeys. rewrite in_flat_map. split.
  - intros (k' & Hin & H). destruct (Obj.arrayIndex k') eqn:E; [|destruct H].
    destruct H as [[= <- <-]|[]]. auto.
  - intros [Hin E]. exists k. rewrite E. split; [exact Hin | now left].
Qed.

Lemma nameKeys_In (ks : list string) (k : string) :
  In k (Obj.nameKeys ks) <-> In k ks /\ Obj.arrayIndex k = None.
Proof.
  unfold Obj.nameKeys. rewrite filter_In.
  destruct (Obj.arrayIndex k); intuition discriminate.
Qed.

(** [Object.keys] lists every property once created, and nothing else. *)
Lemma keys_In {A : Type} (o : Obj.t A) (k : string) :
  In k (Obj.keys o) <-> In k (map fst o).
Proof.
  unfold Obj.keys. rewrite in_app_iff, nameKeys_In, in_map_iff. split.
  - intros [((n, k') & E & Hin)|[Hin _]]; [|exact Hin].
    simpl in E. subst k'.
    apply (Permutation_in _ (Permutation_sym (isort_perm _ _))) in Hin.
    now apply indexKeys_In in Hin.
  - intros Hin. destruct (Obj.arrayIndex k) as [n|] eqn:E; [left | now right].
    exists (n, k). split; [reflexivity|].
    apply (Permutation_in _ (isort_perm _ _)). now apply indexKeys_In.
Qed.

(** Without array indices among the names, [Object.keys] follows the
    order of creation. *)
Lemma keys_without_index {A : Type} (o : Obj.t A) :
  (forall k, In k (map fst o) -> Obj.arrayIndex k = None) ->
  Obj.keys o = map fst o.
Proof.
  intros H. unfold Obj.keys.
  assert (E1 : Obj.indexKeys (map fst o) = []).
  { destruct (Obj.indexKeys (map fst o)) as [|[n k] r] eqn:E; [reflexivity|].
    assert (Hin : In (n, k) (Obj.indexKeys (map fst o)))
      by (rewrite E; now left).
    apply indexKeys_In in Hin. destruct Hin as [Hin Hk].
    rewrite (H k Hin) in Hk. discriminate. }
  assert (E2 : Obj.nameKeys (map fst o) = map fst o).
  { unfold Obj.nameKeys. apply forallb_filter_id. apply forallb_forall.
    intros k Hin. now rewrite (H k Hin). }
  rewrite E1, E2. reflexivity.
Qed.



(** Two ascending lists with the same elements are the same list. *)
Lemma sorted_perm_eq (l1 l2 : list string) :
  StronglySorted str_le l1 -> StronglySorted str_le l2 ->
  Permutation l1 l2 -> l1 = l2.
Proof.
  intros H1; revert l2; induction H1 as [|x r1 Hs1 IH Hx]; intros l2 H2 Hp.
  - now apply Permutation_nil in Hp.
  - destruct H2 as [|y r2 Hs2 Hy].
    + apply Permutation_sym, Permutation_nil in Hp. discriminate.
    + assert (Hxy : str_le x y).
      { assert (Hin : In y (x :: r1))
          by (eapply Permutation_in; [apply Permutation_sym, Hp | now left]).
        destruct Hin as [<-|Hin].
        - unfold str_le. destruct (String.leb_total x x); assumption.
        - rewrite Forall_forall in Hx. now apply Hx. }
      assert (Hyx : str_le y x).
      { assert (Hin : In x (y :: r2))
          by (eapply Permutation_in; [apply Hp | now left]).
        destruct Hin as [<-|Hin].
        - unfold str_le. destruct (String.leb_total y y); assumption.
        - rewrite Forall_forall in Hy. now apply Hy. }
      assert (E : x = y) by now apply String.leb_antisym.
      subst y. f_equal. apply IH; [exact Hs2|].
      eapply Permutation_cons_inv, Hp.
Qed.

(** The result of [sortBy] does not depend on the order of its input. *)
Lemma sortBy_order_independent (l l' : list string) :
  Permutation l l' -> sortBy l (fun s => s) = sortBy l' (fun s => s).
Proof.
  intros Hp. apply sorted_perm_eq; try apply sortBy_sorted.
  etransitivity; [apply Permutation_sym, sortBy_perm|].
  etransitivity; [exact Hp | apply sortBy_perm].
Qed.

Lemma fold_left_map_set {A B : Type} (f : A -> string) (v : B)
  (l : list A) (o : Obj.t B) :
  fold_left (fun c x => Obj.set x v c) (map f l) o
  = fold_left (fun c x => Obj.set (f x) v c) l o.
Proof. revert o; induction l as [|x r IH]; intros o; simpl; auto. Qed.

(** A name with a space in it is no array index. *)
Lemma digitsValue_space (a b : string) (acc : N) :
  Obj.digitsValue (a ++ " " ++ b) acc = None.
Proof.
  revert acc; induction a as [|c a IH]; intros acc; [reflexivity|].
  cbn [append Obj.digitsValue]. destruct (Obj.isDigit c); [apply IH | reflexivity].
Qed.

Lemma arrayIndex_space (a b : string) : Obj.arrayIndex (a ++ " " ++ b) = None.
Proof.
  unfold Obj.arrayIndex.
  destruct (a ++ " " ++ b) as [|c r] eqn:E; [reflexivity|].
  destruct (Ascii.eqb c "0" && negb (r =? "")); [reflexivity|].
  now rewrite <- E, digitsValue_space.
Qed.

Lemma insertAll_labels (l : list string) :
  map fst (insertAll l []) = keepFirst (fun x => x) [] l.
Proof.
  unfold insertAll.
  rewrite (keys_fold_set (fun x => x) (fun _ => leaf) l []).
  simpl. apply map_id.
Qed.

Lemma insertAll_map_labels {A : Type} (f : A -> string) (l : list A) :
  map fst (insertAll (map f l) []) = map f (keepFirst f [] l).
Proof.
  unfold insertAll. rewrite fold_left_map_set.
  now rewrite (keys_fold_set f (fun _ => leaf) l []).
Qed.

Lemma resolvedDeps_In (fs : FileSystem) (plugin : Plugin.t) (d : string) :
  In d (resolvedDeps fs plugin)
  <-> In d (Obj.keys (declared plugin)) /\ resolvedb fs plugin d = true.
Proof.
  unfold resolvedDeps, sortedDeps. rewrite filter_In. split.
  - intros [Hin Hr]. split; [|exact Hr].
    eapply Permutation_in; [apply Permutation_sym, sortBy_perm | exact Hin].
  - intros [Hin Hr]. split; [|exact Hr].
    eapply Permutation_in; [apply sortBy_perm | exact Hin].
Qed.


(** What [resolvedb] says of the result of [findDep]. *)
Lemma resolvedb_found (fs : FileSystem) (plugin : Plugin.t) (d : string) :
  resolvedb fs plugin d = true <->
  exists version, Found.version (locate fs plugin d) = Some version
                  /\ version <> "".
Proof.
  unfold resolvedb. destruct (Found.version (locate fs plugin d)) as [[|c v]|];
    simpl; split; try discriminate.
  - intros (w & [= <-] & Hne). now contradiction Hne.
  - intros _. eexists; split; [reflexivity | discriminate].
  - reflexivity.
  - intros (w & H & _). discriminate.
Qed.

Lemma reportDeps_keys (fs : FileSystem) (plugin : Plugin.t) :
  map fst (reportDeps fs plugin)
  = keepFirst (fun d => d) [] (resolvedDeps fs plugin).
Proof.
  unfold reportDeps.
  rewrite (keys_fold_set (fun d => d) (entryOf fs plugin) _ []).
  simpl. apply map_id.
Qed.

Lemma reportDeps_get (fs : FileSystem) (plugin : Plugin.t) (d : string)
  (e : Dep.t) :
  Obj.get d (reportDeps fs plugin) = Some e ->
  In d (resolvedDeps fs plugin) /\ e = entryOf fs plugin d.
Proof.
  unfold reportDeps. intros H.
  apply (get_fold_set (fun d => d) (entryOf fs plugin)) in H.
  destruct H as [(x & Hin & -> & <-)|H]; [auto | discriminate].
Qed.

Section ReportFacts.

Variable chalk_dim : string -> string.
Variable chalk_bold_cyan : string -> string.

Lemma inspect_ok_inv (config : Config.t) (fs : FileSystem)
  (jsonEnabled : bool) (pluginName : string) (verbose : bool)
  (out : Inspection.t) :
  inspect chalk_dim chalk_bold_cyan config fs jsonEnabled pluginName verbose
  = Ok out ->
  exists plugin,
    findPlugin config pluginName = Ok plugin
    /\ out = Inspection.mk
               (reportTree chalk_dim chalk_bold_cyan fs plugin verbose)
               (negb jsonEnabled)
               (PluginWithDeps.mk plugin (reportDeps fs plugin)).
Proof.
  destruct (findPlugin config pluginName) as [plugin|e] eqn:E.
  - rewrite (inspect_installed _ _ _ _ _ _ _ _ E). intros [= <-]. eauto.
  - rewrite (inspect_not_installed _ _ _ _ _ _ _ _ E). discriminate.
Qed.

Lemma section_commands (fs : FileSystem) (plugin : Plugin.t) (verbose : bool) :
  sectionOf (reportTree chalk_dim chalk_bold_cyan fs plugin verbose) "commands"
  = Obj.keys
      (insertAll (sortBy (Plugin.commandIDs plugin) (fun c => c)) []).
Proof.
  unfold sectionOf, reportTree, rooted, fixedNodes, TreeOps.childrenAt.
  cbn [TreeOps.nodes].
  destruct (JS.truthy (Plugin.tag plugin));
    destruct (JS.truthy (PJSON.homepage (Plugin.pjson plugin))); reflexivity.
Qed.

(** The labels under [dependencies] hold a space: none is an array
    index, and they are listed in the order of their creation. *)
Lemma labelOf_no_index (fs : FileSystem) (plugin : Plugin.t) (verbose : bool)
  (d : string) :
  Obj.arrayIndex (labelOf chalk_dim fs plugin verbose d) = None.
Proof.
  unfold labelOf, msgOf. destruct verbose; apply arrayIndex_space.
Qed.

Lemma section_dependencies (fs : FileSystem) (plugin : Plugin.t)
  (verbose : bool) :
  sectionOf (reportTree chalk_dim chalk_bold_cyan fs plugin verbose)
    "dependencies"
  = map (labelOf chalk_dim fs plugin verbose)
      (keepFirst (labelOf chalk_dim fs plugin verbose) []
         (resolvedDeps fs plugin)).
Proof.
  rewrite <- insertAll_map_labels.
  rewrite <- keys_without_index.
  - unfold sectionOf, reportTree, rooted, fixedNodes, TreeOps.childrenAt.
    cbn [TreeOps.nodes].
    destruct (JS.truthy (Plugin.tag plugin));
      destruct (JS.truthy (PJSON.homepage (Plugin.pjson plugin))); reflexivity.
  - intros k Hin. rewrite insertAll_map_labels in Hin.
    apply in_map_iff in Hin. destruct Hin as (d & <- & _).
    apply labelOf_no_index.
Qed.

End ReportFacts.

(* ================================================================= *)
(** * The claims *)

(** ** C1 *)

(** C1, counterexample.  [bar] resolves to the copy next to the plugin in
    one file system and to the hoisted copy in the other; the flat record
    is the same in both, its entry for [bar] being [{from, version}]. *)
Lemma flat_record_omits_path :
  findDep Sample.nested Sample.foo "bar"
  = Ok (Found.mk (Some "/plugins/node_modules/foo/node_modules/bar")
          (Some "1.2.0"))
  /\ findDep Sample.hoisted Sample.foo "bar"
     = Ok (Found.mk (Some "/plugins/node_modules/bar") (Some "1.2.0"))
  /\ flatOf (inspect Sample.plain Sample.plain Sample.config Sample.nested
               true "foo" true)
     = Ok (PluginWithDeps.mk Sample.foo
             [("bar", Dep.mk (Some "^1.0.0") "1.2.0")])
  /\ flatOf (inspect Sample.plain Sample.plain Sample.config Sample.hoisted
               true "foo" true)
     = Ok (PluginWithDeps.mk Sample.foo
             [("bar", Dep.mk (Some "^1.0.0") "1.2.0")])
  /\ ~ flat_entry_carries_path.
Proof.
  repeat split; try reflexivity.
  intros [resolvedPath H].
  pose proof (H Sample.config Sample.nested true "foo" true _ "bar" _ _
                eq_refl eq_refl eq_refl) as H1.
  pose proof (H Sample.config Sample.hoisted true "foo" true _ "bar" _ _
                eq_refl eq_refl eq_refl) as H2.
  simpl in H1, H2. rewrite H1 in H2. discriminate H2.
Qed.

(** C1, as amended.  Every entry of the flat record is stored under the
    name of a declared dependency and holds two fields: [from], the
    declared range, and [version], the non-empty version [findDep]
    resolved to. *)
Theorem flat_entry_is_from_and_version
  (chalk_dim chalk_bold_cyan : string -> string) (config : Config.t)
  (fs : FileSystem) (jsonEnabled : bool) (pluginName : string)
  (verbose : bool) (out : Inspection.t) (dep : string) (entry : Dep.t) :
  inspect chalk_dim chalk_bold_cyan config fs jsonEnabled pluginName verbose
  = Ok out ->
  Obj.get dep (PluginWithDeps.deps (Inspection.value out)) = Some entry ->
  let plugin := PluginWithDeps.plugin (Inspection.value out) in
  exists found version,
    In dep (Obj.keys (declared plugin))
    /\ findDep fs plugin dep = Ok found
    /\ Found.version found = Some version
    /\ version <> ""
    /\ entry = Dep.mk (Obj.get dep (declared plugin)) version.
Proof.
  intros Hout Hget.
  apply inspect_ok_inv in Hout. destruct Hout as (plugin & _ & ->).
  simpl in *. apply reportDeps_get in Hget. destruct Hget as [Hin ->].
  apply resolvedDeps_In in Hin. destruct Hin as [Hin Hr].
  apply resolvedb_found in Hr. destruct Hr as (version & Hv & Hne).
  exists (locate fs plugin dep), version. repeat split; auto.
  - apply findDep_locate.
  - unfold entryOf. now rewrite Hv.
Qed.

Lemma flat_entry_is_from_and_version_witness :
  exists found version,
    In "bar" (Obj.keys (declared Sample.foo))
    /\ findDep Sample.hoisted Sample.foo "bar" = Ok found
    /\ Found.version found = Some version
    /\ version <> ""
    /\ Dep.mk (Some "^1.0.0") "1.2.0"
       = Dep.mk (Obj.get "bar" (declared Sample.foo)) version.
Proof.
  exact (flat_entry_is_from_and_version Sample.plain Sample.plain Sample.config
           Sample.hoisted true "foo" true _ "bar" _ eq_refl eq_refl).
Defined.

(** ** C2 *)



(** ** C3 *)

(** C3.  When [c] is the first candidate of the chain that holds a
    readable manifest, [findDep] resolves to [c] and to the version of its
    manifest, whatever the candidates after [c] hold. *)
Theorem findDep_innermost_wins (fs : FileSystem) (plugin : Plugin.t)
  (dep : string) (pre post : list string) (c : string) (v : option string) :
  candidates plugin dep = (pre ++ c :: post)%list ->
  (forall c', In c' pre -> readable fs c' = false) ->
  fs (manifestPath c) = Manifest v ->
  findDep fs plugin dep = Ok (Found.mk (Some c) v).
Proof.
  intros Hc Hpre Hv. rewrite findDep_locate. unfold locate. rewrite Hc.
  f_equal. now apply firstReadable_hit.
Qed.

Lemma findDep_innermost_wins_witness :
  readable Sample.twoCopies "/plugins/node_modules/foo/node_modules/bar" = true
  /\ readable Sample.twoCopies "/plugins/node_modules/bar" = true
  /\ findDep Sample.twoCopies Sample.foo "bar"
     = Ok (Found.mk (Some "/plugins/node_modules/foo/node_modules/bar")
             (Some "1.2.0")).
Proof.
  split; [reflexivity|]. split; [reflexivity|].
  apply (findDep_innermost_wins Sample.twoCopies Sample.foo "bar" []
           ["/plugins/node_modules/bar"]).
  - reflexivity.
  - intros c' [].
  - reflexivity.
Defined.

(** ** C4 *)

(** C4.  When no candidate of the chain holds a readable manifest,
    [findDep] resolves to [{pkgPath: null, version: null}]; the turn of
    the loop of [inspect] for that dependency leaves the tree and the flat
    record as they were; and the flat record of the report has no
    property of that name. *)
Theorem unresolved_dependency_is_omitted (fs : FileSystem) (plugin : Plugin.t)
  (dep : string) :
  (forall c, In c (candidates plugin dep) -> readable fs c = false) ->
  findDep fs plugin dep = Ok (Found.mk None None)
  /\ (forall chalk_dim dependencies pluginHeader verbose st,
         depStep chalk_dim fs plugin dependencies pluginHeader verbose st dep
         = Ok st)
  /\ (forall chalk_dim chalk_bold_cyan config jsonEnabled pluginName verbose out,
         inspect chalk_dim chalk_bold_cyan config fs jsonEnabled pluginName verbose
         = Ok out ->
         PluginWithDeps.plugin (Inspection.value out) = plugin ->
         Obj.get dep (PluginWithDeps.deps (Inspection.value out)) = None
         /\ ~ In dep (Obj.keys (PluginWithDeps.deps (Inspection.value out)))).
Proof.
  intros Hnone.
  assert (Hloc : locate fs plugin dep = Found.mk None None)
    by (apply firstReadable_none, Hnone).
  split; [|split].
  - rewrite findDep_locate. now rewrite Hloc.
  - intros chalk_dim dependencies pluginHeader verbose [tree depsJson].
    unfold depStep. rewrite findDep_locate, Hloc. reflexivity.
  - intros chalk_dim chalk_bold_cyan config jsonEnabled pluginName verbose out
      Hout Hplugin.
    apply inspect_ok_inv in Hout. destruct Hout as (plugin' & _ & ->).
    simpl in Hplugin. subst plugin'. simpl.
    assert (Hget : Obj.get dep (reportDeps fs plugin) = None).
    { destruct (Obj.get dep (reportDeps fs plugin)) as [e|] eqn:E; [|reflexivity].
      apply reportDeps_get in E. destruct E as [Hin _].
      apply resolvedDeps_In in Hin. destruct Hin as [_ Hr].
      unfold resolvedb in Hr. rewrite Hloc in Hr. discriminate. }
    split; [exact Hget|].
    rewrite keys_In. now apply get_none_not_in.
Qed.

Lemma unresolved_dependency_is_omitted_witness :
  (forall c, In c (candidates Sample.foo "baz") ->
             readable Sample.twoCopies c = false)
  /\ findDep Sample.twoCopies Sample.foo "baz" = Ok (Found.mk None None).
Proof.
  assert (H : forall c, In c (candidates Sample.foo "baz") ->
                        readable Sample.twoCopies c = false).
  { intros c [<-|[<-|[]]]; reflexivity. }
  split; [exact H|].
  exact (proj1 (unresolved_dependency_is_omitted
                  Sample.twoCopies Sample.foo "baz" H)).
Defined.

(** ** C5 *)

(** C5.  A manifest that is not JSON counts as a missing one: [findDep]
    gives the same result when every such manifest is taken away, and it
    resolves to the first readable candidate when the candidates before
    it hold manifests that are not JSON. *)
Theorem malformed_manifest_is_skipped (fs : FileSystem) (plugin : Plugin.t)
  (dep : string) :
  findDep fs plugin dep = findDep (malformedAsAbsent fs) plugin dep
  /\ forall pre post c v,
      candidates plugin dep = (pre ++ c :: post)%list ->
      (forall c', In c' pre -> fs (manifestPath c') = Malformed) ->
      fs (manifestPath c) = Manifest v ->
      findDep fs plugin dep = Ok (Found.mk (Some c) v).
Proof.
  split.
  - rewrite !findDep_locate. unfold locate. f_equal.
    apply firstReadable_ext. intros c _. unfold malformedAsAbsent.
    destruct (fs (manifestPath c)); auto.
  - intros pre post c v Hc Hpre Hv.
    rewrite findDep_locate. unfold locate. rewrite Hc. f_equal.
    apply firstReadable_hit; [|exact Hv].
    intros c' Hin. unfold readable. now rewrite (Hpre c' Hin).
Qed.

Lemma malformed_manifest_is_skipped_witness :
  Sample.corruptInner
    (manifestPath "/plugins/node_modules/foo/node_modules/bar") = Malformed
  /\ findDep Sample.corruptInner Sample.foo "bar"
     = Ok (Found.mk (Some "/plugins/node_modules/bar") (Some "1.2.0")).
Proof.
  split; [reflexivity|].
  apply (proj2 (malformed_manifest_is_skipped Sample.corruptInner Sample.foo "bar")
           ["/plugins/node_modules/foo/node_modules/bar"] []).
  - reflexivity.
  - intros c' [<-|[]]. reflexivity.
  - reflexivity.
Defined.

(** ** C6 *)




(** ** C7 *)

(** C7, counterexample.  A declared range equal to the resolved version is
    shown with the arrow all the same, and an absent range is not shown
    at all. *)
Lemma arrow_shown_for_equal_range :
  versionMsgOf Sample.plain (Some "1.2.0") "1.2.0" = "1.2.0 => 1.2.0"
  /\ versionMsgOf Sample.plain None "1.2.0" = "1.2.0"
  /\ (exists out,
         inspect Sample.plain Sample.plain Sample.config Sample.twoCopies
           true "foo" false = Ok out
         /\ sectionOf (Inspection.tree out) "dependencies"
            = ["alpha 1.2.0 => 1.2.0"; "bar ^1.0.0 => 1.2.0";
               "zeta ^2.0.0 => 2.1.0"])
  /\ ~ arrow_iff_range_differs.
Proof.
  split; [reflexivity|]. split; [reflexivity|].
  split; [eexists; split; reflexivity|].
  intros H.
  destruct (H (Some "1.2.0") "1.2.0") as [H1 _]; [discriminate|].
  now apply H1.
Qed.

(** C7, as amended.  The labels under [dependencies] are those of the
    dependencies [findDep] resolved with a non-empty version.  Such a
    label is the name, a space, and the styled version text, which reads
    [from => version] exactly when the declared range is a non-empty
    string and [version] alone otherwise; with [verbose], a space and the
    install path follow. *)
Theorem dependency_label_format
  (chalk_dim chalk_bold_cyan : string -> string) (config : Config.t)
  (fs : FileSystem) (jsonEnabled : bool) (pluginName : string)
  (verbose : bool) (out : Inspection.t) :
  inspect chalk_dim chalk_bold_cyan config fs jsonEnabled pluginName verbose
  = Ok out ->
  let plugin := PluginWithDeps.plugin (Inspection.value out) in
  let label (dep : string) (version pkgPath : string) : string :=
    dep ++ " "
    ++ chalk_dim (match Obj.get dep (declared plugin) with
                  | Some (String c r) => String c r ++ " => " ++ version
                  | _ => version
                  end)
    ++ (if verbose then " " ++ pkgPath else "") in
  forall l,
    In l (sectionOf (Inspection.tree out) "dependencies")
    <-> exists dep version pkgPath,
          In dep (Obj.keys (declared plugin))
          /\ findDep fs plugin dep = Ok (Found.mk (Some pkgPath) (Some version))
          /\ version <> ""
          /\ l = label dep version pkgPath.
Proof.
  intros Hout. apply inspect_ok_inv in Hout. destruct Hout as (plugin & _ & ->).
  cbn [Inspection.value Inspection.tree PluginWithDeps.plugin].
  intros l. rewrite section_dependencies.
  assert (Hlab : forall dep version pkgPath,
             locate fs plugin dep = Found.mk (Some pkgPath) (Some version) ->
             labelOf chalk_dim fs plugin verbose dep
             = dep ++ " "
               ++ chalk_dim (match Obj.get dep (declared plugin) with
                             | Some (String c r) => String c r ++ " => " ++ version
                             | _ => version
                             end)
               ++ (if verbose then " " ++ pkgPath else "")).
  { intros dep version pkgPath Hloc. unfold labelOf, msgOf, versionMsgOf.
    rewrite Hloc. cbn [Found.version Found.pkgPath JS.show].
    destruct (Obj.get dep (declared plugin)) as [[|c r]|]; destruct verbose;
      cbn [JS.truthy JS.show]; rewrite ?string_append_nil_r; reflexivity. }
  assert (Hres : forall dep,
             In dep (resolvedDeps fs plugin) <->
             exists version pkgPath,
               In dep (Obj.keys (declared plugin))
               /\ locate fs plugin dep = Found.mk (Some pkgPath) (Some version)
               /\ version <> "").
  { intros dep. rewrite resolvedDeps_In, resolvedb_found. split.
    - intros (Hin & version & Hv & Hne).
      destruct (firstReadable_version_path _ _ _ Hv) as (c & _ & Hp & _).
      exists version, c. repeat split; auto.
      unfold locate in *. destruct (firstReadable fs (candidates plugin dep)).
      simpl in *. now subst.
    - intros (version & pkgPath & Hin & Hloc & Hne). split; [exact Hin|].
      exists version. rewrite Hloc. auto. }
  rewrite in_map_iff. split.
  - intros (dep & <- & Hin). apply keepFirst_incl in Hin.
    apply Hres in Hin. destruct Hin as (version & pkgPath & Hin & Hloc & Hne).
    exists dep, version, pkgPath. repeat split; auto.
    + rewrite findDep_locate. now rewrite Hloc.
  - intros (dep & version & pkgPath & Hin & Hfind & Hne & ->).
    rewrite findDep_locate in Hfind. injection Hfind as Hloc.
    rewrite <- (Hlab dep version pkgPath Hloc).
    assert (Hin' : In dep (resolvedDeps fs plugin))
      by (apply Hres; eauto).
    destruct (keepFirst_complete (labelOf chalk_dim fs plugin verbose) []
                (resolvedDeps fs plugin) dep Hin') as [[]|H].
    apply in_map_iff in H. destruct H as (d' & E & Hd').
    exists d'. split; [exact E | exact Hd'].
Qed.

Lemma dependency_label_format_witness :
  exists out,
    inspect Sample.plain Sample.plain Sample.config Sample.twoCopies
      false "foo" true = Ok out
    /\ In "bar ^1.0.0 => 1.2.0 /plugins/node_modules/foo/node_modules/bar"
          (sectionOf (Inspection.tree out) "dependencies").
Proof.
  eexists. split; [reflexivity|].
  apply (proj2 (dependency_label_format Sample.plain Sample.plain Sample.config
                  Sample.twoCopies false "foo" true _ eq_refl _)).
  exists "bar", "1.2.0", "/plugins/node_modules/foo/node_modules/bar".
  repeat split.
  - vm_compute. tauto.
  - discriminate.
Defined.

(** ** C8 *)

(** C8.  The test [partIndex === -1] of [trimUntil] is false for every
    path and marker, because [Math.max] of no index is [-Infinity] and an
    index is never negative; and on a path none of whose segments is the
    marker, [trimUntil] returns the empty string, which differs from the
    path unless the path is empty itself. *)
Theorem trimUntil_without_marker (fsPath part : string) :
  JS.num_eqb (partIndexOf fsPath part) (JS.Int (-1)) = false
  /\ (~ In part (JS.split Path.sepChar fsPath) ->
      partIndexOf fsPath part = JS.NegInfinity
      /\ trimUntil fsPath part = ""
      /\ (fsPath <> "" -> trimUntil fsPath part <> fsPath)).
Proof.
  split.
  - unfold partIndexOf.
    pose proof (Math_max_nonneg _
                  (markerIndices_nonneg (JS.split Path.sepChar fsPath) part)) as H.
    destruct (JS.Math_max _) as [|z]; simpl in *; [reflexivity|].
    apply Z.eqb_neq. lia.
  - intros Hno.
    assert (E : trimUntil fsPath part = "").
    { unfold trimUntil. rewrite (markerIndices_absent _ _ Hno). reflexivity. }
    repeat split.
    + unfold partIndexOf. now rewrite (markerIndices_absent _ _ Hno).
    + exact E.
    + rewrite E. intros Hne Heq. now apply Hne.
Qed.

Lemma trimUntil_without_marker_witness :
  ~ In "node_modules" (JS.split Path.sepChar "/plugins/foo")
  /\ trimUntil "/plugins/foo" "node_modules" = "".
Proof.
  assert (H : ~ In "node_modules" (JS.split Path.sepChar "/plugins/foo")).
  { simpl. intros [H|[H|[H|[]]]]; discriminate H. }
  split; [exact H|].
  exact (proj1 (proj2 (proj2 (trimUntil_without_marker
                                "/plugins/foo" "node_modules") H))).
Defined.

(** ** C9 *)

(** C9.  The [while] loop of [findDep] exits for every root: each
    iteration strictly shortens [start], so the loop entered with
    [path.join(root, 'node_modules')] exits after at most as many
    iterations as that path has characters, having pushed the paths that
    [searchPaths] lists after the first. *)
Theorem chainLoop_terminates (root : string) :
  (forall start,
      1 < JS.countMatches "node_modules" start 0 ->
      String.length (trimUntil (Path.dirname start) "node_modules")
      < String.length start)
  /\ exists pushed,
      ChainLoop (Path.join [root; "node_modules"]) pushed
      /\ List.length pushed <= String.length (Path.join [root; "node_modules"])
      /\ searchPaths root = Path.join [root; "node_modules"] :: pushed.
Proof.
  split; [exact chain_step_shorter|].
  set (start := Path.join [root; "node_modules"]).
  destruct (chainLoop_enough_fuel (String.length start) start (le_n _))
    as [H1 H2].
  exists (chainLoop (String.length start) start). repeat split; assumption.
Qed.

Lemma chainLoop_terminates_witness :
  1 < JS.countMatches "node_modules" "/plugins/node_modules/foo/node_modules" 0
  /\ String.length
       (trimUntil (Path.dirname "/plugins/node_modules/foo/node_modules")
          "node_modules")
     < String.length "/plugins/node_modules/foo/node_modules".
Proof.
  assert (H : 1 < JS.countMatches "node_modules"
                    "/plugins/node_modules/foo/node_modules" 0)
    by (vm_compute; lia).
  split; [exact H|].
  exact (proj1 (chainLoop_terminates "/plugins/node_modules/foo") _ H).
Defined.

(** ** C10 *)

(** C10.  With and without [verbose], [inspect] resolves to the same
    value, flat record included, or throws the same error. *)
Theorem verbose_leaves_flat_record (chalk_dim chalk_bold_cyan : string -> string)
  (config : Config.t) (fs : FileSystem) (jsonEnabled : bool)
  (pluginName : string) :
  flatOf (inspect chalk_dim chalk_bold_cyan config fs jsonEnabled pluginName true)
  = flatOf (inspect chalk_dim chalk_bold_cyan config fs jsonEnabled pluginName
              false).
Proof.
  destruct (findPlugin config pluginName) as [plugin|e] eqn:E.
  - now rewrite !(inspect_installed _ _ _ _ _ _ _ _ E).
  - now rewrite !(inspect_not_installed _ _ _ _ _ _ _ _ E).
Qed.

(* ================================================================= *)
(** * Further properties *)

(** ** Splitting and joining *)

Lemma prefix_append (s t : string) : String.prefix s (s ++ t) = true.
Proof.
  induction s as [|a s IH]; simpl; [now destruct t|].
  destruct (ascii_dec a a); [exact IH | congruence].
Qed.

Lemma prefix_refl (s : string) : String.prefix s s = true.
Proof. rewrite <- (string_append_nil_r s) at 2. apply prefix_append. Qed.

Lemma prefix_empty (s : string) : String.prefix "" s = true.
Proof. now destruct s. Qed.

Lemma prefix_trans (s1 s2 s3 : string) :
  String.prefix s1 s2 = true -> String.prefix s2 s3 = true ->
  String.prefix s1 s3 = true.
Proof.
  revert s2 s3; induction s1 as [|a s1 IH]; intros s2 s3; [intros; apply prefix_empty|].
  destruct s2 as [|b s2]; simpl; [discriminate|].
  destruct (ascii_dec a b) as [->|]; [|discriminate].
  destruct s3 as [|c s3]; simpl; [discriminate|].
  destruct (ascii_dec b c) as [->|]; [|discriminate].
  apply IH.
Qed.

Lemma append_assoc (s1 s2 s3 : string) : (s1 ++ s2) ++ s3 = s1 ++ s2 ++ s3.
Proof. induction s1; simpl; congruence. Qed.

Lemma concat_app (sep : string) (l1 l2 : list string) :
  l1 <> [] -> l2 <> [] ->
  String.concat sep (l1 ++ l2)
  = String.concat sep l1 ++ sep ++ String.concat sep l2.
Proof.
  intros H1 H2. induction l1 as [|x l1 IH]; [congruence|].
  destruct l1 as [|y l1].
  - destruct l2; [congruence | reflexivity].
  - change (String.concat sep ((x :: y :: l1) ++ l2))
      with (x ++ sep ++ String.concat sep ((y :: l1) ++ l2)).
    rewrite IH by discriminate.
    change (String.concat sep (x :: y :: l1))
      with (x ++ sep ++ String.concat sep (y :: l1)).
    now rewrite !append_assoc.
Qed.

Lemma concat_firstn_prefix (sep : string) (l : list string) (n : nat) :
  String.prefix (String.concat sep (firstn n l)) (String.concat sep l) = true.
Proof.
  destruct n as [|n]; [apply prefix_empty|].
  destruct (Nat.le_gt_cases (List.length l) (S n)) as [Hle|Hgt].
  - rewrite firstn_all2 by exact Hle. apply prefix_refl.
  - rewrite <- (firstn_skipn (S n) l) at 2.
    rewrite concat_app.
    + apply prefix_append.
    + destruct l; [simpl in Hgt; lia | discriminate].
    + intros E. apply (f_equal (@List.length string)) in E.
      rewrite length_skipn in E. simpl in E. lia.
Qed.

Lemma split_free (c : ascii) (s : string) :
  JS.includes c s = false -> JS.split c s = [s].
Proof.
  induction s as [|a r IH]; simpl; [reflexivity|].
  destruct (Ascii.eqb a c); simpl; [discriminate|].
  intros H. now rewrite (IH H).
Qed.

Lemma split_app_sep (c : ascii) (s r : string) :
  JS.includes c s = false ->
  JS.split c (s ++ String c r) = s :: JS.split c r.
Proof.
  induction s as [|a s IH]; simpl.
  - now rewrite Ascii.eqb_refl.
  - destruct (Ascii.eqb a c); simpl; [discriminate|].
    intros H. now rewrite (IH H).
Qed.

Lemma split_parts_free (c : ascii) (s : string) :
  Forall (fun seg => JS.includes c seg = false) (JS.split c s).
Proof.
  induction s as [|a r IH]; simpl; [repeat constructor|].
  destruct (Ascii.eqb a c) eqn:E; [constructor; [reflexivity | exact IH]|].
  destruct (JS.split c r) as [|h t]; [repeat constructor; simpl; now rewrite E|].
  inversion IH; subst. constructor; [simpl; now rewrite E | assumption].
Qed.

(** Joining segments that hold no separator and splitting again gives the
    segments back. *)
Lemma split_concat (c : ascii) (l : list string) :
  l <> [] -> Forall (fun seg => JS.includes c seg = false) l ->
  JS.split c (String.concat (String c "") l) = l.
Proof.
  intros Hne Hfree. induction l as [|x l IH]; [congruence|].
  inversion Hfree; subst.
  destruct l as [|y l]; [now apply split_free|].
  change (String.concat (String c "") (x :: y :: l))
    with (x ++ String c (String.concat (String c "") (y :: l))).
  rewrite split_app_sep by assumption.
  f_equal. apply IH; [discriminate | assumption].
Qed.

Lemma in_split_last {A : Type} (x : A) (l : list A) :
  (forall a b : A, {a = b} + {a <> b}) ->
  In x l -> exists pre post, l = (pre ++ x :: post)%list /\ ~ In x post.
Proof.
  intros dec. induction l as [|y l IH]; [intros []|].
  intros Hin. destruct (in_dec dec x l) as [Hl|Hl].
  - destruct (IH Hl) as (pre & post & -> & Hpost).
    exists (y :: pre), post. auto.
  - destruct Hin as [->|Hin]; [|contradiction].
    exists [], l. auto.
Qed.

(** ** [trimUntil] at the last marker *)

Lemma markerIndices_positions (parts : list string) (part : string) :
  markerIndices parts part = positions part parts 0.
Proof.
  unfold markerIndices.
  assert (G : forall a i,
             fst (fold_left
                    (fun (st : list Z * Z) (e : string) =>
                       let (a, i) := st in
                       ((if e =? part then (a ++ [i])%list else a), (i + 1)%Z))
                    parts (a, i))
             = (a ++ positions part parts i)%list).
  { induction parts as [|e r IH]; intros a i; simpl.
    - now rewrite app_nil_r.
    - rewrite IH. destruct (e =? part); [now rewrite <- app_assoc | reflexivity]. }
  apply (G [] 0%Z).
Qed.

Lemma positions_app (part : string) (l1 l2 : list string) (i : Z) :
  positions part (l1 ++ l2) i
  = (positions part l1 i
     ++ positions part l2 (i + Z.of_nat (List.length l1)))%list.
Proof.
  revert i; induction l1 as [|e r IH]; intros i.
  - simpl. now rewrite Z.add_0_r.
  - cbn [app positions List.length]. rewrite IH.
    replace (i + 1 + Z.of_nat (List.length r))%Z
      with (i + Z.of_nat (S (List.length r)))%Z by lia.
    now destruct (e =? part).
Qed.

Lemma positions_absent (part : string) (l : list string) (i : Z) :
  ~ In part l -> positions part l i = [].
Proof.
  revert i; induction l as [|e r IH]; intros i Hn; simpl; [reflexivity|].
  destruct (String.eqb_spec e part) as [->|_].
  - exfalso. apply Hn. now left.
  - apply IH. intros H. apply Hn. now right.
Qed.

Lemma positions_bound (part : string) (l : list string) (i : Z) :
  Forall (fun z => i <= z < i + Z.of_nat (List.length l))%Z (positions part l i).
Proof.
  revert i; induction l as [|e r IH]; intros i; [constructor|].
  assert (Hr : Forall (fun z => i <= z < i + Z.of_nat (List.length (e :: r)))%Z
                 (positions part r (i + 1)%Z)).
  { eapply Forall_impl; [|apply IH]. intros z Hz. cbv beta in Hz |- *.
    cbn [List.length]. rewrite Nat2Z.inj_succ. lia. }
  cbn [positions]. destruct (e =? part); [|exact Hr].
  constructor; [cbn [List.length]; rewrite Nat2Z.inj_succ; lia | exact Hr].
Qed.

Lemma Math_max_last (l : list Z) (m : Z) :
  Forall (fun z => z <= m)%Z l -> JS.Math_max (l ++ [m]) = JS.Int m.
Proof.
  unfold JS.Math_max. rewrite fold_left_app. simpl.
  assert (G : forall acc,
             match acc with JS.NegInfinity => True | JS.Int z => (z <= m)%Z end ->
             Forall (fun z => z <= m)%Z l ->
             match fold_left (fun a x => JS.num_max a (JS.Int x)) l acc with
             | JS.NegInfinity => True
             | JS.Int z => (z <= m)%Z
             end).
  { induction l as [|x l IH]; intros acc Hacc Hl; simpl; [exact Hacc|].
    inversion Hl; subst. apply IH; [|assumption].
    destruct acc; simpl in *; lia. }
  intros Hl. specialize (G JS.NegInfinity I Hl).
  destruct (fold_left _ l JS.NegInfinity); simpl; [reflexivity|].
  f_equal. lia.
Qed.

Lemma trimUntil_at (fsPath part : string) (pre post : list string) :
  JS.split Path.sepChar fsPath = (pre ++ part :: post)%list ->
  ~ In part post ->
  trimUntil fsPath part = JS.join Path.sep (pre ++ [part]).
Proof.
  intros Hsplit Hpost. unfold trimUntil. rewrite Hsplit.
  rewrite markerIndices_positions, positions_app.
  cbn [positions]. rewrite String.eqb_refl.
  rewrite (positions_absent part post) by exact Hpost.
  rewrite Z.add_0_l, Math_max_last.
  - cbn [JS.num_eqb JS.num_add].
    destruct (Z.eqb_spec (Z.of_nat (List.length pre)) (-1)) as [E|_]; [lia|].
    unfold JS.slice0.
    destruct (Z.ltb_spec (Z.of_nat (List.length pre) + 1) 0) as [E|_]; [lia|].
    rewrite length_app. cbn [List.length].
    rewrite Z.min_l by lia.
    replace (Z.to_nat (Z.of_nat (List.length pre) + 1))
      with (List.length pre + 1) by lia.
    rewrite firstn_app, firstn_all2 by lia.
    replace (List.length pre + 1 - List.length pre) with 1 by lia.
    reflexivity.
  - eapply Forall_impl; [|apply positions_bound]. intros z Hz. simpl in Hz. lia.
Qed.

Lemma trimUntil_absent (fsPath part : string) :
  ~ In part (JS.split Path.sepChar fsPath) -> trimUntil fsPath part = "".
Proof.
  intros Hno. unfold trimUntil. now rewrite (markerIndices_absent _ _ Hno).
Qed.

(** X1.  When some segment of the path is the marker, [trimUntil] cuts the
    path just after the last such segment: the segments of the result are
    those of the path up to and including the last marker. *)
Theorem trimUntil_cuts_after_last_marker (fsPath part : string) :
  In part (JS.split Path.sepChar fsPath) ->
  exists pre post,
    JS.split Path.sepChar fsPath = (pre ++ part :: post)%list
    /\ ~ In part post
    /\ trimUntil fsPath part = JS.join Path.sep (pre ++ [part])
    /\ JS.split Path.sepChar (trimUntil fsPath part) = (pre ++ [part])%list.
Proof.
  intros Hin.
  destruct (in_split_last part _ string_dec Hin) as (pre & post & Hsplit & Hpost).
  exists pre, post. repeat split; auto.
  - now apply trimUntil_at with (post := post).
  - rewrite (trimUntil_at _ _ _ _ Hsplit Hpost).
    apply (split_concat Path.sepChar); [now destruct pre|].
    pose proof (split_parts_free Path.sepChar fsPath) as Hfree.
    rewrite Hsplit in Hfree. apply Forall_app in Hfree. destruct Hfree as [H1 H2].
    inversion H2; subst. apply Forall_app. split; [assumption|].
    now constructor.
Qed.

Lemma trimUntil_cuts_after_last_marker_witness :
  In "node_modules" (JS.split Path.sepChar "/a/node_modules/b/node_modules/c")
  /\ exists pre post,
       JS.split Path.sepChar "/a/node_modules/b/node_modules/c"
       = (pre ++ "node_modules" :: post)%list
       /\ ~ In "node_modules" post
       /\ trimUntil "/a/node_modules/b/node_modules/c" "node_modules"
          = JS.join Path.sep (pre ++ ["node_modules"])
       /\ JS.split Path.sepChar
            (trimUntil "/a/node_modules/b/node_modules/c" "node_modules")
          = (pre ++ ["node_modules"])%list.
Proof.
  assert (H : In "node_modules"
                 (JS.split Path.sepChar "/a/node_modules/b/node_modules/c"))
    by (simpl; tauto).
  split; [exact H|].
  exact (trimUntil_cuts_after_last_marker _ _ H).
Defined.

(** X2.  Whatever the path and the marker, the result of [trimUntil] is a
    prefix of the path, hence never longer than it. *)
Theorem trimUntil_is_prefix (fsPath part : string) :
  String.prefix (trimUntil fsPath part) fsPath = true
  /\ String.length (trimUntil fsPath part) <= String.length fsPath.
Proof.
  split; [|apply trimUntil_length].
  unfold trimUntil. destruct (JS.num_eqb _ _); [apply prefix_refl|].
  destruct (slice0_is_firstn (JS.split Path.sepChar fsPath)
              (JS.num_add (JS.Math_max
                 (markerIndices (JS.split Path.sepChar fsPath) part)) 1))
    as [n ->].
  rewrite <- (join_split fsPath) at 2. apply concat_firstn_prefix.
Qed.

(** X3.  [trimUntil] is idempotent: trimming its result again at the same
    marker changes nothing. *)
Theorem trimUntil_idempotent (fsPath part : string) :
  trimUntil (trimUntil fsPath part) part = trimUntil fsPath part.
Proof.
  destruct (in_dec string_dec part (JS.split Path.sepChar fsPath)) as [Hin|Hno].
  - destruct (in_split_last part _ string_dec Hin) as (pre & post & Hsplit & Hpost).
    rewrite (trimUntil_at _ _ _ _ Hsplit Hpost).
    apply trimUntil_at with (post := []); [|intros []].
    apply (split_concat Path.sepChar); [now destruct pre|].
    pose proof (split_parts_free Path.sepChar fsPath) as Hfree.
    rewrite Hsplit in Hfree. apply Forall_app in Hfree. destruct Hfree as [H1 H2].
    inversion H2; subst. apply Forall_app. split; [assumption|].
    now constructor.
  - rewrite (trimUntil_absent _ _ Hno).
    destruct (string_dec part "") as [->|Hne]; [reflexivity|].
    apply trimUntil_absent. simpl. intros [E|[]]. now apply Hne.
Qed.

(** X4.  A path whose last segment is the marker is left as it is. *)
Theorem trimUntil_keeps_path_ending_at_marker (fsPath part : string)
  (pre : list string) :
  JS.split Path.sepChar fsPath = (pre ++ [part])%list ->
  trimUntil fsPath part = fsPath.
Proof.
  intros Hsplit.
  rewrite (trimUntil_at fsPath part pre []); [|exact Hsplit | intros []].
  rewrite <- Hsplit. apply join_split.
Qed.

Lemma trimUntil_keeps_path_ending_at_marker_witness :
  JS.split Path.sepChar "/plugins/foo/node_modules"
  = (["" ; "plugins"; "foo"] ++ ["node_modules"])%list
  /\ trimUntil "/plugins/foo/node_modules" "node_modules"
     = "/plugins/foo/node_modules".
Proof.
  split; [reflexivity|].
  exact (trimUntil_keeps_path_ending_at_marker "/plugins/foo/node_modules"
           "node_modules" [""; "plugins"; "foo"] eq_refl).
Defined.

(** ** The search chain, container by container *)

Lemma prefix_substring0 (n : nat) (s : string) :
  String.prefix (String.substring 0 n s) s = true.
Proof.
  revert s; induction n as [|n IH]; intros [|c s]; simpl; try reflexivity.
  destruct (ascii_dec c c); [apply IH | congruence].
Qed.

Lemma skipSegment_split (r : list ascii) (k : nat) :
  Path.skipSegment r = Some k ->
  exists r1 r2, r = (r1 ++ Path.sepChar :: r2)%list /\ List.length r2 = k.
Proof.
  induction r as [|c r IH]; simpl; [discriminate|].
  destruct (Ascii.eqb_spec c Path.sepChar) as [->|_].
  - intros [= <-]. now exists [], r.
  - intros H. destruct (IH H) as (r1 & r2 & -> & Hk). now exists (c :: r1), r2.
Qed.

Lemma skipSeparators_split (r : list ascii) (k : nat) :
  Path.skipSeparators r = Some k ->
  exists r1 r2, r = (r1 ++ Path.sepChar :: r2)%list /\ List.length r2 = k.
Proof.
  induction r as [|c r IH]; simpl; [discriminate|].
  destruct (Ascii.eqb c Path.sepChar).
  - intros H. destruct (IH H) as (r1 & r2 & -> & Hk). now exists (c :: r1), r2.
  - intros H. destruct (skipSegment_split _ _ H) as (r1 & r2 & -> & Hk).
    now exists (c :: r1), r2.
Qed.

(** [path.dirname] gives [.] or a prefix of the path. *)
Lemma dirname_prefix_or_dot (p : string) :
  Path.dirname p = "." \/ String.prefix (Path.dirname p) p = true.
Proof.
  destruct p as [|c0 rest]; [now left|].
  unfold Path.dirname.
  destruct (Path.skipSeparators (rev (list_ascii_of_string rest))) as [k|] eqn:E.
  - right.
    destruct (Ascii.eqb_spec c0 Path.sepChar) as [->|Hc];
      [destruct (Nat.eqb_spec k 0) as [->|Hk]|]; cbn [andb];
      try apply prefix_substring0.
    destruct (skipSeparators_split _ _ E) as (r1 & r2 & Hr & Hlen).
    destruct r2; [|discriminate].
    apply (f_equal (@rev ascii)) in Hr.
    rewrite rev_involutive, rev_app_distr in Hr. simpl in Hr.
    destruct rest as [|c1 rest']; [discriminate|].
    simpl in Hr. injection Hr as -> _. exact (prefix_append "//" rest').
  - destruct (Ascii.eqb_spec c0 Path.sepChar) as [->|Hc]; [right | now left].
    exact (prefix_append "/" rest).
Qed.

(** One turn of the loop: the new container is a prefix of the old one,
    and it is empty or ends with the segment [node_modules]. *)
Lemma chain_step_prefix (start : string) :
  String.prefix (trimUntil (Path.dirname start) "node_modules") start = true.
Proof.
  destruct (dirname_prefix_or_dot start) as [E|Hp].
  - rewrite E. apply prefix_empty.
  - eapply prefix_trans; [|exact Hp].
    unfold trimUntil. destruct (JS.num_eqb _ _); [apply prefix_refl|].
    destruct (slice0_is_firstn (JS.split Path.sepChar (Path.dirname start))
                (JS.num_add (JS.Math_max
                   (markerIndices (JS.split Path.sepChar (Path.dirname start))
                      "node_modules")) 1))
      as [n ->].
    rewrite <- (join_split (Path.dirname start)) at 2.
    apply concat_firstn_prefix.
Qed.

Lemma trimUntil_empty_or_marker (fsPath part : string) :
  trimUntil fsPath part = ""
  \/ exists pre,
       JS.split Path.sepChar (trimUntil fsPath part) = (pre ++ [part])%list.
Proof.
  destruct (in_dec string_dec part (JS.split Path.sepChar fsPath)) as [Hin|Hno].
  - right.
    destruct (in_split_last part _ string_dec Hin) as (pre & post & Hsplit & Hpost).
    exists pre. rewrite (trimUntil_at _ _ _ _ Hsplit Hpost).
    apply (split_concat Path.sepChar); [now destruct pre|].
    pose proof (split_parts_free Path.sepChar fsPath) as Hfree.
    rewrite Hsplit in Hfree. apply Forall_app in Hfree. destruct Hfree as [H1 H2].
    inversion H2; subst. apply Forall_app. split; [assumption|].
    now constructor.
  - left. now apply trimUntil_absent.
Qed.

Lemma chainLoop_Forall (P : string -> Prop) (fuel : nat) (start : string) :
  (forall s, P (trimUntil (Path.dirname s) "node_modules")) ->
  Forall P (chainLoop fuel start).
Proof.
  intros HP. revert start; induction fuel as [|fuel IH]; intros start;
    rewrite chainLoop_unfold;
    destruct (1 <? JS.countMatches "node_modules" start 0)%nat;
    constructor; auto.
Qed.

Lemma chainLoop_prefixes (fuel : nat) (start : string) :
  Forall (fun p => String.prefix p start = true) (chainLoop fuel start).
Proof.
  revert start; induction fuel as [|fuel IH]; intros start;
    rewrite chainLoop_unfold;
    destruct (1 <? JS.countMatches "node_modules" start 0)%nat;
    try constructor.
  - apply chain_step_prefix.
  - eapply Forall_impl; [|apply IH]. cbv beta. intros p Hp.
    eapply prefix_trans; [exact Hp | apply chain_step_prefix].
Qed.

Lemma chainLoop_sorted (fuel : nat) (start : string) :
  Sorted shorter (start :: chainLoop fuel start).
Proof.
  revert start; induction fuel as [|fuel IH]; intros start;
    rewrite chainLoop_unfold;
    destruct (Nat.ltb_spec 1 (JS.countMatches "node_modules" start 0))
      as [Hgt|Hle];
    try (repeat constructor; fail).
  constructor; [apply IH|]. constructor. now apply chain_step_shorter.
Qed.

Lemma shorter_trans (a b c : string) : shorter a b -> shorter b c -> shorter a c.
Proof. unfold shorter. lia. Qed.

Lemma sorted_shorter_NoDup (l : list string) :
  StronglySorted shorter l -> NoDup l.
Proof.
  induction 1 as [|x l Hs IH Hx]; constructor; [|exact IH].
  intros Hin. rewrite Forall_forall in Hx. specialize (Hx x Hin).
  unfold shorter in Hx. lia.
Qed.

Lemma split_app_sep_gen (c : ascii) (s r : string) :
  JS.split c (s ++ String c r) = (JS.split c s ++ JS.split c r)%list.
Proof.
  induction s as [|a s IH]; simpl.
  - now rewrite Ascii.eqb_refl.
  - destruct (Ascii.eqb a c); [now rewrite IH|].
    rewrite IH. pose proof (split_not_nil c s) as Hnn.
    destruct (JS.split c s); [congruence | reflexivity].
Qed.

Lemma normalizeStep_free (allow : bool) (stack : list string) (seg : string) :
  Forall (fun x => JS.includes Path.sepChar x = false) stack ->
  JS.includes Path.sepChar seg = false ->
  Forall (fun x => JS.includes Path.sepChar x = false)
         (Path.normalizeStep allow stack seg).
Proof.
  intros Hs Hseg. unfold Path.normalizeStep.
  destruct ((seg =? "") || (seg =? ".")); [exact Hs|].
  destruct (seg =? "..").
  - destruct stack as [|top below].
    + destruct allow; repeat constructor.
    + inversion Hs; subst. destruct (top =? "..").
      * destruct allow; [constructor; [reflexivity | exact Hs] | exact Hs].
      * assumption.
  - now constructor.
Qed.

Lemma normalize_fold_free (allow : bool) (segs stack : list string) :
  Forall (fun x => JS.includes Path.sepChar x = false) stack ->
  Forall (fun x => JS.includes Path.sepChar x = false) segs ->
  Forall (fun x => JS.includes Path.sepChar x = false)
         (fold_left (Path.normalizeStep allow) segs stack).
Proof.
  revert stack; induction segs as [|seg segs IH]; intros stack Hs Hsegs; simpl;
    [exact Hs|].
  inversion Hsegs; subst. apply IH; [|assumption].
  now apply normalizeStep_free.
Qed.

Lemma lastChar_append (s t : string) :
  t <> "" -> Path.lastChar (s ++ t) = Path.lastChar t.
Proof.
  intros Ht. unfold Path.lastChar.
  induction s as [|a s IH]; [reflexivity|].
  simpl. destruct (s ++ t) eqn:E.
  - destruct s; simpl in E; [congruence | discriminate].
  - exact IH.
Qed.

Lemma normalize_cons (c : ascii) (s : string) :
  Path.normalize (String c s)
  = match Path.normalizeString (String c s) (negb (Ascii.eqb c Path.sepChar)) with
    | EmptyString =>
        if Ascii.eqb c Path.sepChar then "/"
        else if match Path.lastChar (String c s) with
                | Some x => Ascii.eqb x Path.sepChar
                | None => false
                end then "./" else "."
    | String a q =>
        let q' := if match Path.lastChar (String c s) with
                     | Some x => Ascii.eqb x Path.sepChar
                     | None => false
                     end then String a q ++ "/" else String a q in
        if Ascii.eqb c Path.sepChar then "/" ++ q' else q'
    end.
Proof.
  unfold Path.normalize. cbv zeta.
  destruct (Path.normalizeString (String c s) (negb (Ascii.eqb c Path.sepChar)));
    reflexivity.
Qed.

(** The first container, [path.join(root, 'node_modules')], ends with the
    segment [node_modules]. *)
Lemma start_ends_with_marker (root : string) :
  exists pre,
    JS.split Path.sepChar (Path.join [root; "node_modules"])
    = (pre ++ ["node_modules"])%list.
Proof.
  destruct root as [|c r]; [now exists []|].
  unfold Path.join. cbn [filter String.eqb negb].
  change (JS.join "/" [String c r; "node_modules"])
    with (String c (r ++ String Path.sepChar "node_modules")).
  rewrite normalize_cons.
  assert (Hlast : Path.lastChar (String c (r ++ String Path.sepChar "node_modules"))
                  = Some "s"%char).
  { change (String c (r ++ String Path.sepChar "node_modules"))
      with (String c r ++ String Path.sepChar "node_modules").
    rewrite lastChar_append by discriminate. reflexivity. }
  rewrite Hlast. change (Ascii.eqb "s" Path.sepChar) with false. cbv zeta iota.
  set (allow := negb (Ascii.eqb c Path.sepChar)).
  unfold Path.normalizeString.
  assert (Hsplit : JS.split Path.sepChar
                     (String c (r ++ String Path.sepChar "node_modules"))
                   = (JS.split Path.sepChar (String c r) ++ ["node_modules"])%list).
  { change (String c (r ++ String Path.sepChar "node_modules"))
      with (String c r ++ String Path.sepChar "node_modules").
    now rewrite split_app_sep_gen. }
  rewrite Hsplit, fold_left_app.
  set (stack := fold_left (Path.normalizeStep allow)
                  (JS.split Path.sepChar (String c r)) []).
  assert (Hfree : Forall (fun x => JS.includes Path.sepChar x = false) stack).
  { apply normalize_fold_free; [constructor | apply split_parts_free]. }
  cbn [fold_left]. change (Path.normalizeStep allow stack "node_modules")
    with ("node_modules" :: stack).
  cbn [rev].
  assert (Hq : JS.split Path.sepChar
                 (JS.join Path.sep (rev stack ++ ["node_modules"]))
               = (rev stack ++ ["node_modules"])%list).
  { apply (split_concat Path.sepChar); [now destruct (rev stack)|].
    apply Forall_app. split; [now apply Forall_rev | now repeat constructor]. }
  destruct (JS.join Path.sep (rev stack ++ ["node_modules"])) as [|a q] eqn:Eq.
  - exfalso. simpl in Hq. destruct (rev stack) as [|x [|y l]]; discriminate.
  - destruct (Ascii.eqb c Path.sepChar).
    + exists ("" :: rev stack).
      change (JS.split Path.sepChar ("/" ++ String a q))
        with ("" :: JS.split Path.sepChar (String a q)).
      now rewrite Hq.
    + now exists (rev stack).
Qed.

(** X5.  Along the search chain every container is strictly shorter than
    the one before, so no container is probed twice. *)
Theorem searchPaths_strictly_shorter (root : string) :
  StronglySorted shorter (searchPaths root) /\ NoDup (searchPaths root).
Proof.
  assert (H : StronglySorted shorter (searchPaths root)).
  { apply Sorted_StronglySorted; [exact shorter_trans|]. apply chainLoop_sorted. }
  split; [exact H | now apply sorted_shorter_NoDup].
Qed.

(** X6.  Every container of the search chain is a prefix of the first one,
    [path.join(root, 'node_modules')]: the walk only climbs. *)
Theorem searchPaths_are_ancestors (root : string) :
  Forall (fun p => String.prefix p (Path.join [root; "node_modules"]) = true)
         (searchPaths root).
Proof.
  unfold searchPaths. constructor; [apply prefix_refl | apply chainLoop_prefixes].
Qed.

(** X7.  Every container of the search chain ends with the segment
    [node_modules], unless it is the empty path, which the loop pushes when
    the directory it climbs from has no such segment. *)
Theorem searchPaths_end_with_marker (root : string) :
  Forall (fun p => p = ""
                   \/ exists pre,
                        JS.split Path.sepChar p = (pre ++ ["node_modules"])%list)
         (searchPaths root).
Proof.
  unfold searchPaths. constructor.
  - right. apply start_ends_with_marker.
  - apply chainLoop_Forall. intros s. apply trimUntil_empty_or_marker.
Qed.

(** ** Paths made of plain segments *)

Lemma plain_facts (s : string) :
  isPlainSegment s = true ->
  s <> "" /\ s <> "." /\ s <> ".." /\ JS.includes Path.sepChar s = false.
Proof.
  unfold isPlainSegment. rewrite !andb_true_iff, !negb_true_iff.
  intros [[[H1 H2] H3] H4].
  apply String.eqb_neq in H1, H2, H3. auto.
Qed.

Lemma plain_free (l : list string) :
  Forall (fun s => isPlainSegment s = true) l ->
  Forall (fun s => JS.includes Path.sepChar s = false) l.
Proof.
  intros H. eapply Forall_impl; [|exact H]. intros s Hs. now apply plain_facts.
Qed.

Lemma normalizeStep_plain (allow : bool) (stack : list string) (seg : string) :
  isPlainSegment seg = true -> Path.normalizeStep allow stack seg = seg :: stack.
Proof.
  intros H. destruct (plain_facts _ H) as (H1 & H2 & H3 & _).
  unfold Path.normalizeStep.
  apply String.eqb_neq in H1, H2, H3. now rewrite H1, H2, H3.
Qed.

Lemma normalize_fold_plain (allow : bool) (l stack : list string) :
  Forall (fun s => isPlainSegment s = true) l ->
  fold_left (Path.normalizeStep allow) l stack = (rev l ++ stack)%list.
Proof.
  revert stack; induction l as [|x l IH]; intros stack H; [reflexivity|].
  inversion H; subst. cbn [fold_left rev].
  rewrite normalizeStep_plain by assumption.
  rewrite IH by assumption. now rewrite <- app_assoc.
Qed.

Lemma lastChar_cons (a b : ascii) (s : string) :
  Path.lastChar (String a (String b s)) = Path.lastChar (String b s).
Proof. reflexivity. Qed.

Lemma lastChar_free (c : ascii) (s : string) :
  s <> "" -> JS.includes c s = false ->
  exists x, Path.lastChar s = Some x /\ Ascii.eqb x c = false.
Proof.
  induction s as [|a s IH]; [congruence|]. intros _ H.
  simpl in H. apply orb_false_iff in H. destruct H as [Ha Hs].
  destruct s as [|b s].
  - exists a. split; [reflexivity | exact Ha].
  - rewrite lastChar_cons. apply IH; [discriminate | exact Hs].
Qed.

Lemma concat_plain_shape (l : list string) :
  l <> [] -> Forall (fun s => isPlainSegment s = true) l ->
  exists c s x,
    String.concat "/" l = String c s
    /\ Ascii.eqb c Path.sepChar = false
    /\ Path.lastChar (String.concat "/" l) = Some x
    /\ Ascii.eqb x Path.sepChar = false.
Proof.
  intros Hne Hl.
  assert (Hfirst : exists c s, String.concat "/" l = String c s
                               /\ Ascii.eqb c Path.sepChar = false).
  { destruct l as [|x l]; [congruence|]. inversion Hl; subst.
    destruct (plain_facts _ H1) as (Hx & _ & _ & Hfree).
    destruct x as [|c x]; [congruence|].
    simpl in Hfree. apply orb_false_iff in Hfree. destruct Hfree as [Hc _].
    destruct l; [now exists c, x|].
    eexists c, _. split; [reflexivity | exact Hc]. }
  destruct Hfirst as (c & s & E & Hc).
  assert (Hlast : exists x, Path.lastChar (String.concat "/" l) = Some x
                            /\ Ascii.eqb x Path.sepChar = false).
  { destruct (exists_last Hne) as (l' & y & ->).
    apply Forall_app in Hl. destruct Hl as [_ Hy]. inversion Hy; subst.
    destruct (plain_facts _ H1) as (Hyne & _ & _ & Hfree).
    destruct (lastChar_free Path.sepChar y Hyne Hfree) as (x & Hx & Hxc).
    exists x. split; [|exact Hxc].
    destruct l' as [|z l']; [exact Hx|].
    rewrite concat_app by discriminate.
    rewrite <- append_assoc. now rewrite lastChar_append. }
  destruct Hlast as (x & Hx & Hxc).
  exists c, s, x. auto.
Qed.

(** [path.normalize] leaves a relative path of plain segments as it is. *)
Lemma normalize_plain (l : list string) :
  l <> [] -> Forall (fun s => isPlainSegment s = true) l ->
  Path.normalize (String.concat "/" l) = String.concat "/" l.
Proof.
  intros Hne Hl.
  destruct (concat_plain_shape l Hne Hl) as (c & s & x & E & Hc & Hx & Hxc).
  assert (Hn : forall allow,
             Path.normalizeString (String.concat "/" l) allow
             = String.concat "/" l).
  { intros allow. unfold Path.normalizeString.
    rewrite (split_concat Path.sepChar) by (auto using plain_free).
    rewrite normalize_fold_plain by assumption.
    now rewrite app_nil_r, rev_involutive. }
  rewrite E in *. rewrite normalize_cons, Hn, Hx, Hc, Hxc. reflexivity.
Qed.

(** The same for an absolute path. *)
Lemma normalize_plain_absolute (l : list string) :
  l <> [] -> Forall (fun s => isPlainSegment s = true) l ->
  Path.normalize ("/" ++ String.concat "/" l) = "/" ++ String.concat "/" l.
Proof.
  intros Hne Hl.
  destruct (concat_plain_shape l Hne Hl) as (c & s & x & E & Hc & Hx & Hxc).
  change ("/" ++ String.concat "/" l)
    with (String Path.sepChar (String.concat "/" l)).
  rewrite normalize_cons.
  assert (Hn : Path.normalizeString (String Path.sepChar (String.concat "/" l))
                 (negb (Ascii.eqb Path.sepChar Path.sepChar))
               = String.concat "/" l).
  { unfold Path.normalizeString.
    change (JS.split Path.sepChar (String Path.sepChar (String.concat "/" l)))
      with ("" :: JS.split Path.sepChar (String.concat "/" l)).
    rewrite (split_concat Path.sepChar) by (auto using plain_free).
    cbn [fold_left].
    change (Path.normalizeStep (negb (Ascii.eqb Path.sepChar Path.sepChar)) [] "")
      with (@nil string).
    rewrite normalize_fold_plain by assumption.
    now rewrite app_nil_r, rev_involutive. }
  rewrite Hn.
  assert (Hl2 : Path.lastChar (String Path.sepChar (String.concat "/" l)) = Some x).
  { rewrite E. rewrite lastChar_cons. now rewrite <- E. }
  rewrite Hl2, Hxc, E. reflexivity.
Qed.

Lemma filter_nonempty_plain (l : list string) :
  Forall (fun s => isPlainSegment s = true) l ->
  filter (fun a => negb (a =? "")) l = l.
Proof.
  intros H. apply forallb_filter_id. apply forallb_forall.
  intros s Hs. rewrite Forall_forall in H.
  destruct (plain_facts _ (H s Hs)) as (Hne & _).
  apply String.eqb_neq in Hne. now rewrite Hne.
Qed.

(** The dependency path of a name made of plain segments is the name. *)
Lemma dependencyPathOf_plain (l : list string) :
  l <> [] -> Forall (fun s => isPlainSegment s = true) l ->
  dependencyPathOf (String.concat "/" l) = String.concat "/" l.
Proof.
  intros Hne Hl. unfold dependencyPathOf.
  change "/"%char with Path.sepChar.
  rewrite (split_concat Path.sepChar) by (auto using plain_free).
  unfold Path.join. rewrite filter_nonempty_plain by assumption.
  destruct l as [|x l]; [congruence|].
  now apply normalize_plain.
Qed.

(** Joining an absolute path of plain segments with a relative one. *)
Lemma join_plain_absolute (l m : list string) :
  l <> [] -> m <> [] ->
  Forall (fun s => isPlainSegment s = true) l ->
  Forall (fun s => isPlainSegment s = true) m ->
  Path.join ["/" ++ String.concat "/" l; String.concat "/" m]
  = "/" ++ String.concat "/" l ++ "/" ++ String.concat "/" m.
Proof.
  intros Hl Hm Pl Pm.
  destruct (concat_plain_shape m Hm Pm) as (c & s & x & E & _).
  unfold Path.join.
  change (filter (fun a => negb (a =? ""))
            ["/" ++ String.concat "/" l; String.concat "/" m])
    with (("/" ++ String.concat "/" l)
          :: filter (fun a => negb (a =? "")) [String.concat "/" m]).
  rewrite E. cbn [filter String.eqb negb]. rewrite <- E.
  change (JS.join "/" ["/" ++ String.concat "/" l; String.concat "/" m])
    with (("/" ++ String.concat "/" l) ++ "/" ++ String.concat "/" m).
  rewrite append_assoc, <- concat_app by assumption.
  apply normalize_plain_absolute.
  - now destruct l.
  - apply Forall_app. now split.
Qed.

(** X8.  The relative path searched for a dependency is its name: one
    segment for a plain name, the two segments kept apart for a scoped
    name. *)
Theorem dependencyPathOf_name (name : string) :
  isPlainSegment name = true ->
  dependencyPathOf name = name
  /\ forall scope,
       isPlainSegment scope = true ->
       dependencyPathOf (scope ++ "/" ++ name) = scope ++ "/" ++ name.
Proof.
  intros Hname. split.
  - apply (dependencyPathOf_plain [name]); [discriminate | now constructor].
  - intros scope Hscope.
    apply (dependencyPathOf_plain [scope; name]); [discriminate|].
    now repeat constructor.
Qed.

Lemma dependencyPathOf_name_witness :
  isPlainSegment "name" = true
  /\ dependencyPathOf "@scope/name" = "@scope/name".
Proof.
  split; [reflexivity|].
  exact (proj2 (dependencyPathOf_name "name" eq_refl) "@scope" eq_refl).
Defined.

(** X9.  For a plugin whose root is an absolute path of plain segments
    and a dependency of plain segments, the first manifest read is
    [root/node_modules/dependency/package.json]; when it is readable,
    [findDep] resolves to [root/node_modules/dependency] and to its
    version, whatever lies further up. *)
Theorem findDep_direct_install (fs : FileSystem) (plugin : Plugin.t)
  (rootSegments depSegments : list string) (v : option string) :
  rootSegments <> [] -> depSegments <> [] ->
  Forall (fun s => isPlainSegment s = true) rootSegments ->
  Forall (fun s => isPlainSegment s = true) depSegments ->
  Plugin.root plugin = "/" ++ String.concat "/" rootSegments ->
  let dependency := String.concat "/" depSegments in
  let installPath := Plugin.root plugin ++ "/node_modules/" ++ dependency in
  (exists rest, candidates plugin dependency = installPath :: rest)
  /\ manifestPath installPath = installPath ++ "/package.json"
  /\ (fs (installPath ++ "/package.json") = Manifest v ->
      findDep fs plugin dependency = Ok (Found.mk (Some installPath) v)).
Proof.
  intros Hr Hd Pr Pd Hroot dependency installPath.
  assert (Pnm : Forall (fun s => isPlainSegment s = true) ["node_modules"])
    by now repeat constructor.
  assert (Ppj : Forall (fun s => isPlainSegment s = true) ["package.json"])
    by now repeat constructor.
  assert (Hstart : Path.join [Plugin.root plugin; "node_modules"]
                   = "/" ++ String.concat "/" (rootSegments ++ ["node_modules"])).
  { rewrite Hroot.
    change "node_modules" with (String.concat "/" ["node_modules"]) at 1.
    rewrite join_plain_absolute by (assumption || discriminate).
    now rewrite concat_app by (assumption || discriminate). }
  assert (Hinstall : installPath
                     = "/" ++ String.concat "/"
                                ((rootSegments ++ ["node_modules"]) ++ depSegments)).
  { unfold installPath. rewrite Hroot.
    rewrite (concat_app "/" (rootSegments ++ ["node_modules"]) depSegments)
      by (try assumption; now destruct rootSegments).
    rewrite (concat_app "/" rootSegments ["node_modules"])
      by (assumption || discriminate).
    unfold dependency. cbn [String.concat].
    now rewrite !append_assoc. }
  assert (Hcand : Path.join [Path.join [Plugin.root plugin; "node_modules"];
                             dependencyPathOf dependency] = installPath).
  { rewrite Hstart. unfold dependency at 1.
    rewrite dependencyPathOf_plain by assumption.
    rewrite join_plain_absolute;
      [| now destruct rootSegments | assumption
       | apply Forall_app; now split | assumption].
    rewrite Hinstall.
    now rewrite (concat_app "/" (rootSegments ++ ["node_modules"]) depSegments)
      by (try assumption; now destruct rootSegments). }
  assert (Hmanifest : manifestPath installPath = installPath ++ "/package.json").
  { unfold manifestPath. rewrite Hinstall.
    change "package.json" with (String.concat "/" ["package.json"]) at 1.
    rewrite join_plain_absolute;
      [reflexivity | now destruct rootSegments | discriminate | | assumption].
    apply Forall_app. split; [|assumption]. apply Forall_app. now split. }
  assert (Hcands : exists rest, candidates plugin dependency = installPath :: rest).
  { unfold candidates, searchPaths. cbn [map]. rewrite Hcand. eauto. }
  split; [exact Hcands|]. split; [exact Hmanifest|].
  intros Hfs. destruct Hcands as [rest Hrest].
  rewrite findDep_locate. unfold locate. rewrite Hrest. f_equal.
  apply (firstReadable_hit fs [] rest installPath v); [intros c' [] |].
  now rewrite Hmanifest.
Qed.

Lemma findDep_direct_install_witness :
  Sample2.directFiles "/plugins/foo/node_modules/bar/package.json"
  = Manifest (Some "1.2.0")
  /\ findDep Sample2.directFiles Sample2.direct "bar"
     = Ok (Found.mk (Some "/plugins/foo/node_modules/bar") (Some "1.2.0")).
Proof.
  split; [reflexivity|].
  refine (proj2 (proj2 (findDep_direct_install Sample2.directFiles Sample2.direct
                          ["plugins"; "foo"] ["bar"] (Some "1.2.0")
                          _ _ _ _ eq_refl)) eq_refl);
    try discriminate; repeat constructor.
Defined.

(** ** The result of [findDep] *)

Lemma firstReadable_cases (fs : FileSystem) (cands : list string) :
  (firstReadable fs cands = Found.mk None None
   /\ forall c, In c cands -> readable fs c = false)
  \/ exists pre c post v,
       cands = (pre ++ c :: post)%list
       /\ (forall c', In c' pre -> readable fs c' = false)
       /\ fs (manifestPath c) = Manifest v
       /\ firstReadable fs cands = Found.mk (Some c) v.
Proof.
  induction cands as [|c0 cands IH].
  - left. split; [reflexivity | intros c []].
  - destruct (fs (manifestPath c0)) as [code| | |v] eqn:E.
    4: { right. exists [], c0, cands, v. simpl. rewrite E.
         repeat split; auto. intros c' []. }
    all: destruct IH as [[Hn Hall]|(pre & c & post & v & -> & Hpre & Hv & Hf)];
      [ left; simpl; rewrite E; split; [exact Hn|];
        intros c [<-|Hin]; [unfold readable; now rewrite E | now apply Hall]
      | right; exists (c0 :: pre), c, post, v; simpl; rewrite E;
        repeat split; auto;
        intros c' [<-|Hin]; [unfold readable; now rewrite E | now apply Hpre] ].
Qed.

(** X10.  [findDep] resolves either to [{pkgPath: null, version: null}],
    when no candidate holds a readable manifest, or to the first
    candidate that holds one together with the version read there: a
    version never comes without the path it was read at. *)
Theorem findDep_result_shape (fs : FileSystem) (plugin : Plugin.t)
  (dep : string) :
  exists found,
    findDep fs plugin dep = Ok found
    /\ ((Found.pkgPath found = None /\ Found.version found = None
         /\ forall c, In c (candidates plugin dep) -> readable fs c = false)
        \/ exists pre c post,
             candidates plugin dep = (pre ++ c :: post)%list
             /\ (forall c', In c' pre -> readable fs c' = false)
             /\ Found.pkgPath found = Some c
             /\ fs (manifestPath c) = Manifest (Found.version found)).
Proof.
  exists (locate fs plugin dep). split; [apply findDep_locate|].
  unfold locate.
  destruct (firstReadable_cases fs (candidates plugin dep))
    as [[-> Hall]|(pre & c & post & v & Hc & Hpre & Hv & ->)].
  - left. auto.
  - right. exists pre, c, post. auto.
Qed.

(** X11.  [findDep] looks at nothing but the manifests of the candidates:
    two file systems that agree there give the same result. *)
Theorem findDep_reads_only_candidates (fs1 fs2 : FileSystem)
  (plugin : Plugin.t) (dep : string) :
  (forall c, In c (candidates plugin dep) ->
             fs1 (manifestPath c) = fs2 (manifestPath c)) ->
  findDep fs1 plugin dep = findDep fs2 plugin dep.
Proof.
  intros H. rewrite !findDep_locate. unfold locate. f_equal.
  apply firstReadable_ext. intros c Hin. rewrite (H c Hin).
  destruct (fs2 (manifestPath c)); auto.
Qed.

Lemma findDep_reads_only_candidates_witness :
  Sample.nested "/elsewhere/node_modules/bar/package.json"
  <> Sample2.nestedAndMore "/elsewhere/node_modules/bar/package.json"
  /\ findDep Sample.nested Sample.foo "bar"
     = findDep Sample2.nestedAndMore Sample.foo "bar".
Proof.
  split; [discriminate|].
  apply findDep_reads_only_candidates.
  intros c [<-|[<-|[]]]; reflexivity.
Defined.

(** X12.  A manifest that is the JSON [null] makes the read of [version]
    throw inside the [try] block: it counts as a missing file, and the
    walk goes on to the next candidate. *)
Theorem null_manifest_is_skipped (fs : FileSystem) (plugin : Plugin.t)
  (dep : string) :
  findDep fs plugin dep = findDep (nullAsAbsent fs) plugin dep
  /\ forall pre post c v,
      candidates plugin dep = (pre ++ c :: post)%list ->
      (forall c', In c' pre -> fs (manifestPath c') = JsonNull) ->
      fs (manifestPath c) = Manifest v ->
      findDep fs plugin dep = Ok (Found.mk (Some c) v).
Proof.
  split.
  - rewrite !findDep_locate. unfold locate. f_equal.
    apply firstReadable_ext. intros c _. unfold nullAsAbsent.
    destruct (fs (manifestPath c)); auto.
  - intros pre post c v Hc Hpre Hv.
    rewrite findDep_locate. unfold locate. rewrite Hc. f_equal.
    apply firstReadable_hit; [|exact Hv].
    intros c' Hin. unfold readable. now rewrite (Hpre c' Hin).
Qed.

Lemma null_manifest_is_skipped_witness :
  Sample2.nullInner
    (manifestPath "/plugins/node_modules/foo/node_modules/bar") = JsonNull
  /\ findDep Sample2.nullInner Sample.foo "bar"
     = Ok (Found.mk (Some "/plugins/node_modules/bar") (Some "1.2.0")).
Proof.
  split; [reflexivity|].
  apply (proj2 (null_manifest_is_skipped Sample2.nullInner Sample.foo "bar")
           ["/plugins/node_modules/foo/node_modules/bar"] []).
  - reflexivity.
  - intros c' [<-|[]]. reflexivity.
  - reflexivity.
Defined.

(** X13.  A readable manifest without a version, or with an empty one,
    stops the walk all the same: [findDep] resolves to its path with that
    version, candidates further up are not looked at, and [inspect] leaves
    the dependency out of the tree and of the flat record. *)
Theorem versionless_manifest_hides_outer_copies (fs : FileSystem)
  (plugin : Plugin.t) (dep : string) (pre post : list string) (c : string)
  (v : option string) :
  candidates plugin dep = (pre ++ c :: post)%list ->
  (forall c', In c' pre -> readable fs c' = false) ->
  fs (manifestPath c) = Manifest v ->
  JS.truthy v = false ->
  findDep fs plugin dep = Ok (Found.mk (Some c) v)
  /\ (forall chalk_dim dependencies pluginHeader verbose st,
         depStep chalk_dim fs plugin dependencies pluginHeader verbose st dep
         = Ok st)
  /\ (forall chalk_dim chalk_bold_cyan config jsonEnabled pluginName verbose out,
         inspect chalk_dim chalk_bold_cyan config fs jsonEnabled pluginName verbose
         = Ok out ->
         PluginWithDeps.plugin (Inspection.value out) = plugin ->
         Obj.get dep (PluginWithDeps.deps (Inspection.value out)) = None).
Proof.
  intros Hc Hpre Hv Hfalsy.
  assert (Hloc : locate fs plugin dep = Found.mk (Some c) v).
  { unfold locate. rewrite Hc. now apply firstReadable_hit. }
  split; [|split].
  - rewrite findDep_locate. now rewrite Hloc.
  - intros chalk_dim dependencies pluginHeader verbose [tree depsJson].
    unfold depStep. rewrite findDep_locate, Hloc. cbn [bind Found.version].
    destruct v as [[|a v]|]; try reflexivity. discriminate.
  - intros chalk_dim chalk_bold_cyan config jsonEnabled pluginName verbose out
      Hout Hplugin.
    apply inspect_ok_inv in Hout. destruct Hout as (plugin' & _ & ->).
    simpl in Hplugin. subst plugin'. simpl.
    destruct (Obj.get dep (reportDeps fs plugin)) as [e|] eqn:E; [|reflexivity].
    apply reportDeps_get in E. destruct E as [Hin _].
    apply resolvedDeps_In in Hin. destruct Hin as [_ Hr].
    unfold resolvedb in Hr. rewrite Hloc in Hr. simpl in Hr. congruence.
Qed.

Lemma versionless_manifest_hides_outer_copies_witness :
  readable Sample2.versionlessInner "/plugins/node_modules/bar" = true
  /\ findDep Sample2.versionlessInner Sample.foo "bar"
     = Ok (Found.mk (Some "/plugins/node_modules/foo/node_modules/bar") None).
Proof.
  split; [reflexivity|].
  refine (proj1 (versionless_manifest_hides_outer_copies
                   Sample2.versionlessInner Sample.foo "bar" []
                   ["/plugins/node_modules/bar"]
                   "/plugins/node_modules/foo/node_modules/bar" None
                   eq_refl _ eq_refl eq_refl)).
  intros c' [].
Defined.

(** ** [findPlugin] and the report of [inspect] *)

(** X14.  [findPlugin] returns the first installed plugin of the given
    name, and throws [<name> not installed] exactly when no installed
    plugin has that name.  It warns that the plugin is a JIT plugin exactly
    when, besides, [jitPlugins] is an object in which the name is found
    with a truthy value: as a property of its own that is a non-empty
    string or, when it has no such property, as one of the names that
    every object inherits, such as [constructor]. *)
Theorem findPlugin_finds_by_name (config : Config.t) (pluginName : string) :
  (forall plugin,
      findPlugin config pluginName = Ok plugin ->
      Plugin.name plugin = pluginName
      /\ exists before after,
           Config.getPluginsList config = (before ++ plugin :: after)%list
           /\ forall p, In p before -> Plugin.name p <> pluginName)
  /\ (forall e,
         findPlugin config pluginName = Throw e <->
         e = Error (pluginName ++ " not installed")
         /\ forall p, In p (Config.getPluginsList config) ->
                      Plugin.name p <> pluginName)
  /\ ((exists w, findPluginWarning config pluginName = Some w) <->
      findPlugin config pluginName
      = Throw (Error (pluginName ++ " not installed"))
      /\ exists jitPlugins,
           Config.jitPlugins config = Some jitPlugins
           /\ match Obj.get pluginName jitPlugins with
              | Some version => version <> ""
              | None => In pluginName Obj.inherited
              end).
Proof.
  assert (Hjit : isJitPlugin config pluginName = true <->
                 exists jitPlugins,
                   Config.jitPlugins config = Some jitPlugins
                   /\ match Obj.get pluginName jitPlugins with
                      | Some version => version <> ""
                      | None => In pluginName Obj.inherited
                      end).
  { unfold isJitPlugin.
    destruct (Config.jitPlugins config) as [jitPlugins|].
    - assert (Hi : Obj.isInherited pluginName = true
                   <-> In pluginName Obj.inherited).
      { unfold Obj.isInherited. rewrite existsb_exists. split.
        - intros (x & Hx & E). apply String.eqb_eq in E. now subst.
        - intros Hin. exists pluginName. split; [exact Hin|].
          apply String.eqb_refl. }
      split.
      + intros H. exists jitPlugins. split; [reflexivity|].
        destruct (Obj.get pluginName jitPlugins) as [[|c v]|];
          [discriminate | discriminate | now apply Hi].
      + intros (j & [= <-] & H).
        destruct (Obj.get pluginName jitPlugins) as [[|c v]|];
          [congruence | reflexivity | now apply Hi].
    - split; [discriminate | intros (j & Hj & _); discriminate]. }
  unfold findPlugin, findPluginWarning.
  assert (Hfind : forall l,
             match find (fun plg => Plugin.name plg =? pluginName) l with
             | Some plugin =>
                 Plugin.name plugin = pluginName
                 /\ exists before after,
                      l = (before ++ plugin :: after)%list
                      /\ forall p, In p before -> Plugin.name p <> pluginName
             | None => forall p, In p l -> Plugin.name p <> pluginName
             end).
  { induction l as [|p0 l IH]; simpl; [intros p []|].
    destruct (String.eqb_spec (Plugin.name p0) pluginName) as [E|Hne].
    - split; [exact E|]. exists [], l. split; [reflexivity | intros p []].
    - destruct (find _ l) as [plugin|].
      + destruct IH as (Hn & before & after & -> & Hb). split; [exact Hn|].
        exists (p0 :: before), after. split; [reflexivity|].
        intros p [<-|Hin]; auto.
      + intros p [<-|Hin]; auto. }
  specialize (Hfind (Config.getPluginsList config)).
  destruct (find _ (Config.getPluginsList config)) as [plugin|].
  - split; [|split].
    + intros p [= <-]. exact Hfind.
    + intros e. split; [discriminate|]. intros [_ Hno].
      destruct Hfind as (Hn & before & after & Hl & _).
      exfalso. apply (Hno plugin); [|exact Hn].
      rewrite Hl. apply in_or_app. right. now left.
    + split; [intros [w Hw]; discriminate | intros [H _]; discriminate].
  - split; [|split].
    + discriminate.
    + intros e. split; [intros [= <-]; auto | intros [-> _]; reflexivity].
    + rewrite <- Hjit.
      destruct (isJitPlugin config pluginName).
      * split; [auto | eauto].
      * split; [intros [w Hw]; discriminate | intros [_ H]; discriminate].
Qed.

Lemma findPlugin_finds_by_name_witness :
  findPlugin Sample2.plugins "bare" = Ok Sample2.bare
  /\ Plugin.name Sample2.bare = "bare"
  /\ Obj.get "constructor" [("jit", "1.0.0")] = None
  /\ exists w, findPluginWarning Sample2.plugins "constructor" = Some w.
Proof.
  split; [reflexivity|].
  split; [exact (proj1 (proj1 (findPlugin_finds_by_name Sample2.plugins "bare")
                          Sample2.bare eq_refl))|].
  split; [reflexivity|].
  apply (proj2 (proj2 (findPlugin_finds_by_name Sample2.plugins "constructor"))).
  split; [reflexivity|].
  exists [("jit", "1.0.0")]. split; [reflexivity|].
  simpl. tauto.
Defined.

(** X15.  [inspect] fails only by [findPlugin]: it throws exactly the
    error of [findPlugin], and for an installed plugin it returns, with
    the plugin as the registry holds it, and has displayed the tree
    exactly when JSON output is not enabled. *)
Theorem inspect_fails_only_when_not_installed
  (chalk_dim chalk_bold_cyan : string -> string) (config : Config.t)
  (fs : FileSystem) (jsonEnabled : bool) (pluginName : string)
  (verbose : bool) :
  (forall e,
      inspect chalk_dim chalk_bold_cyan config fs jsonEnabled pluginName verbose
      = Throw e
      <-> findPlugin config pluginName = Throw e)
  /\ (forall plugin,
         findPlugin config pluginName = Ok plugin ->
         exists out,
           inspect chalk_dim chalk_bold_cyan config fs jsonEnabled pluginName
             verbose = Ok out
           /\ PluginWithDeps.plugin (Inspection.value out) = plugin
           /\ Inspection.displayed out = negb jsonEnabled).
Proof.
  destruct (findPlugin config pluginName) as [plugin|e0] eqn:E.
  - rewrite (inspect_installed _ _ _ _ _ _ _ _ E). split.
    + intros e. split; discriminate.
    + intros p [= <-]. eexists. split; [reflexivity|]. split; reflexivity.
  - rewrite (inspect_not_installed _ _ _ _ _ _ _ _ E). split.
    + intros e. split; intros [= ->]; reflexivity.
    + discriminate.
Qed.

Lemma inspect_fails_only_when_not_installed_witness :
  findPlugin Sample2.plugins "missing" = Throw (Error "missing not installed")
  /\ inspect Sample.plain Sample.plain Sample2.plugins Sample.nested false
       "missing" false = Throw (Error "missing not installed").
Proof.
  split; [reflexivity|].
  exact (proj2 (proj1 (inspect_fails_only_when_not_installed
                         Sample.plain Sample.plain Sample2.plugins Sample.nested
                         false "missing" false) _) eq_refl).
Defined.

(** X16.  The tree has one root, labelled with the styled name of the
    plugin; under it come, in this order, the version, the tag if it is a
    non-empty string, the homepage if it is a non-empty string, the
    location, and the nodes [commands] and [dependencies].  None of these
    labels is an array index, so they are shown in the order of their
    creation. *)
Theorem inspect_tree_layout
  (chalk_dim chalk_bold_cyan : string -> string) (config : Config.t)
  (fs : FileSystem) (jsonEnabled : bool) (pluginName : string)
  (verbose : bool) (out : Inspection.t) :
  inspect chalk_dim chalk_bold_cyan config fs jsonEnabled pluginName verbose
  = Ok out ->
  let plugin := PluginWithDeps.plugin (Inspection.value out) in
  exists header,
    TreeOps.nodes (Inspection.tree out)
    = [(chalk_bold_cyan (Plugin.name plugin), header)]
    /\ map fst (TreeOps.nodes header)
       = ("version " ++ Plugin.version plugin)
         :: List.app
              match Plugin.tag plugin with
              | Some (String c t) => ["tag " ++ String c t]
              | _ => []
              end
              (List.app
                 match PJSON.homepage (Plugin.pjson plugin) with
                 | Some (String c h) => ["homepage " ++ String c h]
                 | _ => []
                 end
                 ["location " ++ Plugin.root plugin; "commands"; "dependencies"])
    /\ Obj.keys (TreeOps.nodes header) = map fst (TreeOps.nodes header).
Proof.
  intros Hout. apply inspect_ok_inv in Hout. destruct Hout as (plugin & _ & ->).
  cbn [Inspection.value Inspection.tree PluginWithDeps.plugin].
  unfold reportTree, rooted, fixedNodes. eexists. split; [reflexivity|].
  cbn [TreeOps.nodes]. split.
  - destruct (Plugin.tag plugin) as [[|c t]|];
      destruct (PJSON.homepage (Plugin.pjson plugin)) as [[|c' h]|]; reflexivity.
  - apply keys_without_index. intros k Hin.
    destruct (JS.truthy (Plugin.tag plugin));
      destruct (JS.truthy (PJSON.homepage (Plugin.pjson plugin)));
      cbn [List.app map fst In] in Hin;
      repeat match type of Hin with
             | _ \/ _ => destruct Hin as [<-|Hin]
             end;
      try contradiction;
      first [ apply (arrayIndex_space "version")
            | apply (arrayIndex_space "tag")
            | apply (arrayIndex_space "homepage")
            | apply (arrayIndex_space "location")
            | reflexivity ].
Qed.

Lemma inspect_tree_layout_witness :
  exists out header,
    inspect Sample.plain Sample.plain (Config.mk [Sample2.direct] None)
      Sample2.directFiles false "foo" false = Ok out
    /\ TreeOps.nodes (Inspection.tree out) = [("foo", header)]
    /\ map fst (TreeOps.nodes header)
       = ["version 0.1.0"; "tag latest"; "homepage https://example.org/foo";
          "location /plugins/foo"; "commands"; "dependencies"].
Proof.
  destruct (inspect_tree_layout Sample.plain Sample.plain
              (Config.mk [Sample2.direct] None) Sample2.directFiles false "foo"
              false _ eq_refl)
    as (header & H1 & H2 & _).
  eexists. exists header. split; [reflexivity|]. split; [exact H1 | exact H2].
Defined.

(** X17.  Whether JSON output is enabled changes neither the tree built
    nor the value returned, only whether the tree is displayed. *)
Theorem jsonEnabled_only_decides_display
  (chalk_dim chalk_bold_cyan : string -> string) (config : Config.t)
  (fs : FileSystem) (pluginName : string) (verbose : bool) :
  match inspect chalk_dim chalk_bold_cyan config fs true pluginName verbose,
        inspect chalk_dim chalk_bold_cyan config fs false pluginName verbose with
  | Ok quiet, Ok loud =>
      Inspection.tree quiet = Inspection.tree loud
      /\ Inspection.value quiet = Inspection.value loud
      /\ Inspection.displayed quiet = false
      /\ Inspection.displayed loud = true
  | Throw e1, Throw e2 => e1 = e2
  | _, _ => False
  end.
Proof.
  destruct (findPlugin config pluginName) as [plugin|e] eqn:E.
  - rewrite !(inspect_installed _ _ _ _ _ _ _ _ E). auto.
  - now rewrite !(inspect_not_installed _ _ _ _ _ _ _ _ E).
Qed.

(** X18.  The report does not depend on the order in which the plugin
    declares its commands: two plugins that differ only by that order get
    the same tree and the same flat record. *)
Theorem inspect_ignores_command_order
  (chalk_dim chalk_bold_cyan : string -> string) (config1 config2 : Config.t)
  (fs : FileSystem) (jsonEnabled : bool) (pluginName : string)
  (verbose : bool) (out1 out2 : Inspection.t) :
  inspect chalk_dim chalk_bold_cyan config1 fs jsonEnabled pluginName verbose
  = Ok out1 ->
  inspect chalk_dim chalk_bold_cyan config2 fs jsonEnabled pluginName verbose
  = Ok out2 ->
  let plugin1 := PluginWithDeps.plugin (Inspection.value out1) in
  let plugin2 := PluginWithDeps.plugin (Inspection.value out2) in
  Permutation (Plugin.commandIDs plugin1) (Plugin.commandIDs plugin2) ->
  Plugin.mk (Plugin.name plugin1) (Plugin.version plugin1) (Plugin.tag plugin1)
    (Plugin.root plugin1) (Plugin.commandIDs plugin2) (Plugin.pjson plugin1)
  = plugin2 ->
  Inspection.tree out1 = Inspection.tree out2
  /\ PluginWithDeps.deps (Inspection.value out1)
     = PluginWithDeps.deps (Inspection.value out2).
Proof.
  intros H1 H2.
  apply inspect_ok_inv in H1. destruct H1 as (p1 & _ & ->).
  apply inspect_ok_inv in H2. destruct H2 as (p2 & _ & ->).
  cbn [Inspection.value Inspection.tree PluginWithDeps.plugin PluginWithDeps.deps].
  intros Hperm <-.
  unfold reportTree, reportDeps, resolvedDeps, sortedDeps, declared, labelOf,
    entryOf, resolvedb, locate, candidates, fixedNodes, declared.
  cbn [Plugin.name Plugin.version Plugin.tag Plugin.root Plugin.commandIDs
       Plugin.pjson].
  now rewrite (sortBy_order_independent _ _ Hperm).
Qed.

Lemma inspect_ignores_command_order_witness :
  Permutation (Plugin.commandIDs Sample.foo) (Plugin.commandIDs Sample2.fooReordered)
  /\ exists out1 out2,
       inspect Sample.plain Sample.plain Sample.config Sample.twoCopies
         true "foo" false = Ok out1
       /\ inspect Sample.plain Sample.plain (Config.mk [Sample2.fooReordered] None)
            Sample.twoCopies true "foo" false = Ok out2
       /\ Inspection.tree out1 = Inspection.tree out2.
Proof.
  assert (Hp : Permutation (Plugin.commandIDs Sample.foo)
                 (Plugin.commandIDs Sample2.fooReordered)).
  { simpl. eapply perm_trans; [apply perm_swap|]. apply perm_skip, perm_swap. }
  split; [exact Hp|].
  eexists. eexists. split; [reflexivity|]. split; [reflexivity|].
  exact (proj1 (inspect_ignores_command_order Sample.plain Sample.plain
                  Sample.config (Config.mk [Sample2.fooReordered] None)
                  Sample.twoCopies true "foo" false _ _ eq_refl eq_refl Hp
                  eq_refl)).
Defined.

Lemma keepFirst_NoDup {A : Type} (f : A -> string) (seen : list string)
  (l : list A) :
  NoDup (map f (keepFirst f seen l))
  /\ forall x, In x (keepFirst f seen l) -> ~ In (f x) seen.
Proof.
  revert seen; induction l as [|x r IH]; intros seen; simpl.
  - split; [constructor | intros x []].
  - destruct (existsb (String.eqb (f x)) seen) eqn:E; [apply IH|].
    destruct (IH (seen ++ [f x])%list) as [Hnd Hfresh].
    assert (Hx : ~ In (f x) seen).
    { intros Hin. assert (existsb (String.eqb (f x)) seen = true); [|congruence].
      apply existsb_exists. exists (f x). split; [exact Hin|].
      apply String.eqb_refl. }
    split.
    + simpl. constructor; [|exact Hnd].
      intros Hin. apply in_map_iff in Hin. destruct Hin as (y & Ey & Hy).
      apply (Hfresh y Hy). apply in_or_app. right. left. now symmetry.
    + intros y [<-|Hy]; [exact Hx|].
      intros Hin. apply (Hfresh y Hy). apply in_or_app. now left.
Qed.

Lemma indexKeys_names (ks : list string) :
  map snd (Obj.indexKeys ks)
  = filter (fun k => match Obj.arrayIndex k with Some _ => true | None => false end)
           ks.
Proof.
  induction ks as [|k ks IH]; [reflexivity|].
  unfold Obj.indexKeys in *. simpl.
  destruct (Obj.arrayIndex k); simpl; now rewrite IH.
Qed.

(** [Object.keys] repeats no name when no property was created twice. *)
Lemma keys_NoDup {A : Type} (o : Obj.t A) :
  NoDup (map fst o) -> NoDup (Obj.keys o).
Proof.
  intros Hnd. unfold Obj.keys.
  assert (H1 : NoDup (map snd (isort (fun a b : N * string => (fst a <=? fst b)%N)
                                 (Obj.indexKeys (map fst o))))).
  { eapply Permutation_NoDup.
    - apply Permutation_map, isort_perm.
    - rewrite indexKeys_names. now apply NoDup_filter. }
  assert (H2 : NoDup (Obj.nameKeys (map fst o))) by now apply NoDup_filter.
  assert (H3 : forall k,
             In k (map snd (isort (fun a b : N * string => (fst a <=? fst b)%N)
                              (Obj.indexKeys (map fst o)))) ->
             ~ In k (Obj.nameKeys (map fst o))).
  { intros k Hin Hname. apply nameKeys_In in Hname. destruct Hname as [_ Hnone].
    apply in_map_iff in Hin. destruct Hin as ([n k'] & E & Hin). simpl in E. subst k'.
    apply (Permutation_in _ (Permutation_sym (isort_perm _ _))) in Hin.
    apply indexKeys_In in Hin. destruct Hin as [_ Hsome]. congruence. }
  clear Hnd. revert H1 H3.
  generalize (map snd (isort (fun a b : N * string => (fst a <=? fst b)%N)
                         (Obj.indexKeys (map fst o)))).
  induction l as [|x l IH]; intros H1 H3; [exact H2|].
  inversion H1; subst. simpl. constructor.
  - intros Hin. apply in_app_or in Hin. destruct Hin as [Hin|Hin];
      [contradiction | apply (H3 x); [now left | exact Hin]].
  - apply IH; [assumption | intros k Hk; apply H3; now right].
Qed.

(** X19.  No label comes twice under [commands] or under [dependencies],
    and no name comes twice in the flat record, also when the plugin lists
    a command twice. *)
Theorem report_has_no_duplicates
  (chalk_dim chalk_bold_cyan : string -> string) (config : Config.t)
  (fs : FileSystem) (jsonEnabled : bool) (pluginName : string)
  (verbose : bool) (out : Inspection.t) :
  inspect chalk_dim chalk_bold_cyan config fs jsonEnabled pluginName verbose
  = Ok out ->
  NoDup (sectionOf (Inspection.tree out) "commands")
  /\ NoDup (sectionOf (Inspection.tree out) "dependencies")
  /\ NoDup (Obj.keys (PluginWithDeps.deps (Inspection.value out))).
Proof.
  intros Hout. apply inspect_ok_inv in Hout. destruct Hout as (plugin & _ & ->).
  cbn [Inspection.value Inspection.tree PluginWithDeps.deps].
  split; [|split].
  - rewrite section_commands. apply keys_NoDup. rewrite insertAll_labels.
    pose proof (proj1 (keepFirst_NoDup (fun c : string => c) []
                         (sortBy (Plugin.commandIDs plugin) (fun c => c)))) as H.
    now rewrite map_id in H.
  - rewrite section_dependencies. apply keepFirst_NoDup.
  - apply keys_NoDup. rewrite reportDeps_keys.
    pose proof (proj1 (keepFirst_NoDup (fun d : string => d) []
                         (resolvedDeps fs plugin))) as H.
    now rewrite map_id in H.
Qed.

Lemma report_has_no_duplicates_witness :
  ~ NoDup (Plugin.commandIDs Sample2.direct)
  /\ exists out,
       inspect Sample.plain Sample.plain (Config.mk [Sample2.direct] None)
         Sample2.directFiles false "foo" false = Ok out
       /\ sectionOf (Inspection.tree out) "commands" = ["foo:a"; "foo:b"]
       /\ NoDup (sectionOf (Inspection.tree out) "commands").
Proof.
  split.
  - intros H. inversion H as [|x l Hx _]; subst. apply Hx. simpl. tauto.
  - eexists. split; [reflexivity|]. split; [reflexivity|].
    exact (proj1 (report_has_no_duplicates Sample.plain Sample.plain
                    (Config.mk [Sample2.direct] None) Sample2.directFiles false
                    "foo" false _ eq_refl)).
Defined.

(** X20.  A plugin whose manifest has no [dependencies], or an empty one,
    gets an empty [dependencies] node and an empty flat record. *)
Theorem inspect_without_dependencies
  (chalk_dim chalk_bold_cyan : string -> string) (config : Config.t)
  (fs : FileSystem) (jsonEnabled : bool) (pluginName : string)
  (verbose : bool) (out : Inspection.t) :
  inspect chalk_dim chalk_bold_cyan config fs jsonEnabled pluginName verbose
  = Ok out ->
  let plugin := PluginWithDeps.plugin (Inspection.value out) in
  PJSON.dependencies (Plugin.pjson plugin) = None
  \/ PJSON.dependencies (Plugin.pjson plugin) = Some [] ->
  sectionOf (Inspection.tree out) "dependencies" = []
  /\ PluginWithDeps.deps (Inspection.value out) = [].
Proof.
  intros Hout. apply inspect_ok_inv in Hout. destruct Hout as (plugin & _ & ->).
  cbn [Inspection.value Inspection.tree PluginWithDeps.plugin PluginWithDeps.deps].
  intros Hdeps.
  assert (E : resolvedDeps fs plugin = []).
  { unfold resolvedDeps, sortedDeps, declared.
    destruct Hdeps as [-> | ->]; reflexivity. }
  split.
  - rewrite section_dependencies, E. reflexivity.
  - unfold reportDeps. now rewrite E.
Qed.

Lemma inspect_without_dependencies_witness :
  exists out,
    inspect Sample.plain Sample.plain Sample2.plugins Sample.nested false
      "bare" true = Ok out
    /\ sectionOf (Inspection.tree out) "dependencies" = []
    /\ PluginWithDeps.deps (Inspection.value out) = [].
Proof.
  eexists. split; [reflexivity|].
  exact (inspect_without_dependencies Sample.plain Sample.plain Sample2.plugins
           Sample.nested false "bare" true _ eq_refl (or_introl eq_refl)).
Defined.

(** ** [parsePluginName] *)

Lemma includes_append (c : ascii) (s t : string) :
  JS.includes c (s ++ t) = JS.includes c s || JS.includes c t.
Proof.
  induction s as [|a s IH]; [reflexivity|].
  simpl. rewrite IH. now rewrite orb_assoc.
Qed.

Lemma firstPart_free (c : ascii) (s : string) :
  JS.includes c s = false -> JS.firstPart c s = s.
Proof. intros H. unfold JS.firstPart. now rewrite split_free. Qed.

Lemma firstPart_app (c : ascii) (s r : string) :
  JS.includes c s = false -> JS.firstPart c (s ++ String c r) = s.
Proof. intros H. unfold JS.firstPart. now rewrite split_app_sep. Qed.

(** A string is its part before the first [c], followed by nothing or by
    [c] and the rest. *)
Lemma firstPart_decomposition (c : ascii) (s : string) :
  JS.includes c (JS.firstPart c s) = false
  /\ exists rest,
       s = JS.firstPart c s ++ rest
       /\ (rest = "" \/ exists t, rest = String c t).
Proof.
  unfold JS.firstPart. split.
  - pose proof (split_parts_free c s) as H. pose proof (split_not_nil c s) as Hn.
    destruct (JS.split c s); [congruence|]. now inversion H.
  - induction s as [|a s IH]; simpl.
    + exists "". auto.
    + destruct (Ascii.eqb_spec a c) as [->|Hne].
      * exists (String c s). split; [reflexivity | right; now exists s].
      * destruct IH as (rest & E & Hrest).
        pose proof (split_not_nil c s) as Hn.
        destruct (JS.split c s) as [|h t]; [congruence|].
        exists rest. simpl in *. split; [now rewrite <- E | exact Hrest].
Qed.

Lemma bind_ok {A : Type} (r : Result A) : (x <- r ;; Ok x) = r.
Proof. now destruct r. Qed.

(** X21.  A scoped name, [@scope/name], is returned as it is, and with a
    version tag, [@scope/name@tag], it is returned without the tag; the
    registry is not asked. *)
Theorem parsePluginName_scoped (maybeUnfriendlyName : string -> Result string)
  (scoped tag : string) :
  JS.includes "@"%char scoped = false ->
  JS.includes "/"%char scoped = true ->
  parsePluginName maybeUnfriendlyName ("@" ++ scoped) = Ok ("@" ++ scoped)
  /\ parsePluginName maybeUnfriendlyName ("@" ++ scoped ++ "@" ++ tag)
     = Ok ("@" ++ scoped).
Proof.
  intros Hat Hslash.
  assert (Hscoped : forall rest,
            JS.includes "/"%char (scoped ++ rest) = true ->
            parsePluginName maybeUnfriendlyName (String "@" (scoped ++ rest))
            = Ok ("@" ++ JS.firstPart "@" (scoped ++ rest))).
  { intros rest H. unfold parsePluginName.
    replace (JS.includes "@" (String "@" (scoped ++ rest))) with true
      by reflexivity.
    replace (JS.includes "/" (String "@" (scoped ++ rest)))
      with (JS.includes "/" (scoped ++ rest)) by reflexivity.
    rewrite H. reflexivity. }
  split.
  - specialize (Hscoped "").
    rewrite string_append_nil_r in Hscoped.
    change ("@" ++ scoped) with (String "@" scoped) at 1.
    rewrite (Hscoped Hslash). now rewrite firstPart_free.
  - change ("@" ++ scoped ++ "@" ++ tag)
      with (String "@" (scoped ++ String "@" tag)).
    rewrite Hscoped by (rewrite includes_append, Hslash; reflexivity).
    now rewrite firstPart_app.
Qed.

Lemma parsePluginName_scoped_witness :
  JS.includes "@"%char "oclif/plugin-help" = false
  /\ parsePluginName Sample2.asGiven "@oclif/plugin-help@6.0.0"
     = Ok "@oclif/plugin-help".
Proof.
  split; [reflexivity|].
  exact (proj2 (parsePluginName_scoped Sample2.asGiven "oclif/plugin-help" "6.0.0"
                  eq_refl eq_refl)).
Defined.

(** X22.  Whenever the input holds both [@] and [/], its first character
    is dropped, whatever it is, and the result is [@] followed by what
    comes before the next [@]; the registry is not asked. *)
Theorem parsePluginName_with_at_and_slash (input : string) :
  JS.includes "@"%char input = true ->
  JS.includes "/"%char input = true ->
  exists name rest,
    JS.slice1 input = name ++ rest
    /\ JS.includes "@"%char name = false
    /\ (rest = "" \/ exists tag, rest = "@" ++ tag)
    /\ forall maybeUnfriendlyName,
         parsePluginName maybeUnfriendlyName input = Ok ("@" ++ name).
Proof.
  intros Hat Hslash.
  destruct (firstPart_decomposition "@" (JS.slice1 input)) as (Hfree & rest & E & Hrest).
  exists (JS.firstPart "@" (JS.slice1 input)), rest.
  repeat split; auto.
  intros maybeUnfriendlyName. unfold parsePluginName. now rewrite Hat, Hslash.
Qed.

Lemma parsePluginName_with_at_and_slash_witness :
  JS.includes "@"%char "foo/bar@1.0.0" = true
  /\ parsePluginName Sample2.asGiven "foo/bar@1.0.0" = Ok "@oo/bar".
Proof.
  split; [reflexivity|].
  destruct (parsePluginName_with_at_and_slash "foo/bar@1.0.0" eq_refl eq_refl)
    as (name & rest & _ & _ & _ & H).
  pose proof (H Sample2.asGiven) as H1.
  change (parsePluginName Sample2.asGiven "foo/bar@1.0.0")
    with (@Ok string "@oo/bar") in H1.
  rewrite (H Sample2.asGiven). symmetry. exact H1.
Defined.

(** X23.  An input without [@], or without [/], goes to the registry: what
    comes before the first [@] is passed to [maybeUnfriendlyName], whose
    answer or error is the result.  So a name without [@] is passed whole,
    and [name@tag] is passed without its tag. *)
Theorem parsePluginName_unscoped (maybeUnfriendlyName : string -> Result string)
  (name tag : string) :
  JS.includes "@"%char name = false ->
  parsePluginName maybeUnfriendlyName name = maybeUnfriendlyName name
  /\ (JS.includes "/"%char name = false ->
      JS.includes "/"%char tag = false ->
      parsePluginName maybeUnfriendlyName (name ++ "@" ++ tag)
      = maybeUnfriendlyName name).
Proof.
  intros Hat. unfold parsePluginName. split.
  - rewrite Hat. cbn [andb]. rewrite firstPart_free by exact Hat. apply bind_ok.
  - intros Hs Ht.
    change (name ++ "@" ++ tag) with (name ++ String "@" tag).
    rewrite (includes_append "/"), Hs. cbn [JS.includes orb].
    change (Ascii.eqb "@" "/") with false. cbn [orb]. rewrite Ht, andb_false_r.
    rewrite firstPart_app by exact Hat. apply bind_ok.
Qed.

Lemma parsePluginName_unscoped_witness :
  JS.includes "@"%char "plugin-help" = false
  /\ parsePluginName Sample2.asGiven "plugin-help@latest" = Ok "plugin-help".
Proof.
  split; [reflexivity|].
  exact (proj2 (parsePluginName_unscoped Sample2.asGiven "plugin-help" "latest"
                  eq_refl) eq_refl eq_refl).
Defined.

(** ** [run] *)

Lemma withBefore_nil (o : RunOutcome.t) : withBefore [] [] o = o.
Proof. destruct o as [s l [r|e]]; reflexivity. Qed.

Lemma withBefore_withBefore (p1 p2 : list PluginWithDeps.t) (s1 s2 : list Tree)
  (o : RunOutcome.t) :
  withBefore p1 s1 (withBefore p2 s2 o)
  = withBefore (p1 ++ p2)%list (s1 ++ s2)%list o.
Proof.
  destruct o as [s l [r|e]]; unfold withBefore; cbn;
    now rewrite ?app_assoc.
Qed.

Section RunFacts.

Variable chalk_dim : string -> string.
Variable chalk_bold_cyan : string -> string.
Variable chalk_bold_red : string -> string.
Variable maybeUnfriendlyName : string -> Result string.
Variable config : Config.t.
Variable aliases : Obj.t (option string).
Variable fs : FileSystem.
Variable jsonEnabled : bool.
Variable packageJsonName : Result string.

Lemma runLoop_acc (verbose : bool) (argv : list string) :
  forall plugins shown,
    runLoop chalk_dim chalk_bold_cyan chalk_bold_red maybeUnfriendlyName config
      aliases fs jsonEnabled packageJsonName verbose argv plugins shown
    = withBefore plugins shown
        (run chalk_dim chalk_bold_cyan chalk_bold_red maybeUnfriendlyName config
           aliases fs jsonEnabled packageJsonName argv verbose).
Proof.
  unfold run. induction argv as [|name rest IH]; intros plugins shown.
  - unfold withBefore. cbn. now rewrite !app_nil_r.
  - cbn [runLoop].
    destruct (pluginNameOf maybeUnfriendlyName aliases packageJsonName name)
      as [pluginName|e];
      [|unfold withBefore; cbn; now rewrite app_nil_r].
    destruct (inspect chalk_dim chalk_bold_cyan config fs jsonEnabled pluginName
                verbose) as [out|e];
      [|unfold withBefore; cbn; now rewrite app_nil_r].
    rewrite IH. rewrite (IH ([] ++ _)%list). rewrite withBefore_withBefore.
    destruct (Inspection.displayed out); cbn [List.app];
      now rewrite ?app_nil_r.
Qed.

(** One turn of the loop of [run]. *)
Lemma run_cons (verbose : bool) (name : string) (rest : list string) :
  run chalk_dim chalk_bold_cyan chalk_bold_red maybeUnfriendlyName config
    aliases fs jsonEnabled packageJsonName (name :: rest) verbose
  = match pluginNameOf maybeUnfriendlyName aliases packageJsonName name with
    | Throw e => RunOutcome.mk [] [] (Throw e)
    | Ok pluginName =>
        match inspect chalk_dim chalk_bold_cyan config fs jsonEnabled pluginName
                verbose with
        | Ok out =>
            withBefore [Inspection.value out]
              (if Inspection.displayed out then [Inspection.tree out] else [])
              (run chalk_dim chalk_bold_cyan chalk_bold_red maybeUnfriendlyName
                 config aliases fs jsonEnabled packageJsonName rest verbose)
        | Throw e =>
            RunOutcome.mk [] (log jsonEnabled (chalk_bold_red "failed"))
              (Throw e)
        end
    end.
Proof.
  unfold run at 1. cbn [runLoop].
  destruct (pluginNameOf maybeUnfriendlyName aliases packageJsonName name)
    as [pluginName|e]; [|reflexivity].
  destruct (inspect chalk_dim chalk_bold_cyan config fs jsonEnabled pluginName
              verbose) as [out|e]; [|reflexivity].
  rewrite runLoop_acc. now destruct (Inspection.displayed out).
Qed.

End RunFacts.

Lemma withBefore_result_ok (p : list PluginWithDeps.t) (s : list Tree)
  (o : RunOutcome.t) (results : list PluginWithDeps.t) :
  RunOutcome.result (withBefore p s o) = Ok results ->
  exists l, RunOutcome.result o = Ok l /\ results = (p ++ l)%list.
Proof.
  unfold withBefore. cbn. destruct (RunOutcome.result o) as [l|e];
    [intros [= <-]; eauto | discriminate].
Qed.

Lemma withBefore_result_throw (p : list PluginWithDeps.t) (s : list Tree)
  (o : RunOutcome.t) (e : JSError) :
  RunOutcome.result (withBefore p s o) = Throw e ->
  RunOutcome.result o = Throw e.
Proof.
  unfold withBefore. cbn. destruct (RunOutcome.result o) as [l|e'];
    [discriminate | intros [= <-]; reflexivity].
Qed.

(** X24.  [run] handles its arguments one after the other: when the first
    arguments succeed, running more arguments adds their trees and results
    after those of the first, and ends as the run of the further arguments
    ends; when one of the first arguments fails, the further ones are not
    looked at. *)
Theorem run_composes
  (chalk_dim chalk_bold_cyan chalk_bold_red : string -> string)
  (maybeUnfriendlyName : string -> Result string) (config : Config.t)
  (aliases : Obj.t (option string)) (fs : FileSystem) (jsonEnabled : bool)
  (packageJsonName : Result string) (argv1 argv2 : list string)
  (verbose : bool) :
  let run := run chalk_dim chalk_bold_cyan chalk_bold_red maybeUnfriendlyName
               config aliases fs jsonEnabled packageJsonName in
  match RunOutcome.result (run argv1 verbose) with
  | Ok plugins =>
      run (argv1 ++ argv2)%list verbose
      = withBefore plugins (RunOutcome.shown (run argv1 verbose))
          (run argv2 verbose)
  | Throw _ => run (argv1 ++ argv2)%list verbose = run argv1 verbose
  end.
Proof.
  cbv zeta. induction argv1 as [|name rest IH].
  - cbn. now rewrite withBefore_nil.
  - cbn [List.app]. rewrite !run_cons.
    destruct (pluginNameOf maybeUnfriendlyName aliases packageJsonName name)
      as [pluginName|e]; [|reflexivity].
    destruct (inspect chalk_dim chalk_bold_cyan config fs jsonEnabled pluginName
                verbose) as [out|e]; [|reflexivity].
    unfold withBefore at 1. cbn [RunOutcome.result RunOutcome.shown].
    destruct (RunOutcome.result
                (run chalk_dim chalk_bold_cyan chalk_bold_red maybeUnfriendlyName
                   config aliases fs jsonEnabled packageJsonName rest verbose))
      as [l|e] eqn:E.
    + rewrite IH. rewrite withBefore_withBefore.
      unfold withBefore at 3. cbn [RunOutcome.shown]. reflexivity.
    + now rewrite IH.
Qed.

(** X25.  When [run] succeeds it returns one record per argument, in the
    order of the arguments: the installed plugin that the argument names,
    with its flat record of dependencies.  Nothing is logged, and the trees
    of these plugins are displayed in the same order, or none at all when
    JSON output is enabled. *)
Theorem run_success
  (chalk_dim chalk_bold_cyan chalk_bold_red : string -> string)
  (maybeUnfriendlyName : string -> Result string) (config : Config.t)
  (aliases : Obj.t (option string)) (fs : FileSystem) (jsonEnabled : bool)
  (packageJsonName : Result string) (argv : list string) (verbose : bool)
  (results : list PluginWithDeps.t) :
  RunOutcome.result
    (run chalk_dim chalk_bold_cyan chalk_bold_red maybeUnfriendlyName config
       aliases fs jsonEnabled packageJsonName argv verbose)
  = Ok results ->
  let outcome := run chalk_dim chalk_bold_cyan chalk_bold_red
                   maybeUnfriendlyName config aliases fs jsonEnabled
                   packageJsonName argv verbose in
  Forall2 (fun arg r =>
             exists pluginName,
               pluginNameOf maybeUnfriendlyName aliases packageJsonName arg
               = Ok pluginName
               /\ findPlugin config pluginName = Ok (PluginWithDeps.plugin r)
               /\ PluginWithDeps.deps r
                  = reportDeps fs (PluginWithDeps.plugin r))
    argv results
  /\ RunOutcome.logged outcome = []
  /\ RunOutcome.shown outcome
     = if jsonEnabled then []
       else map (fun r => reportTree chalk_dim chalk_bold_cyan fs
                            (PluginWithDeps.plugin r) verbose) results.
Proof.
  cbv zeta. revert results. induction argv as [|name rest IH]; intros results.
  - cbn. intros [= <-]. repeat split; [constructor | now destruct jsonEnabled].
  - rewrite run_cons.
    destruct (pluginNameOf maybeUnfriendlyName aliases packageJsonName name)
      as [pluginName|e] eqn:En; [|discriminate].
    destruct (inspect chalk_dim chalk_bold_cyan config fs jsonEnabled pluginName
                verbose) as [out|e] eqn:Ei; [|discriminate].
    intros H. apply withBefore_result_ok in H. destruct H as (l & Hl & ->).
    destruct (IH l Hl) as (Hall & Hlog & Hshown).
    apply inspect_ok_inv in Ei. destruct Ei as (plugin & Hfind & ->).
    cbn [Inspection.value Inspection.displayed Inspection.tree].
    unfold withBefore. cbn [RunOutcome.logged RunOutcome.shown].
    rewrite Hshown. repeat split.
    + cbn [List.app]. constructor; [|exact Hall].
      exists pluginName. cbn. auto.
    + exact Hlog.
    + now destruct jsonEnabled.
Qed.

Lemma run_success_witness :
  exists results,
    RunOutcome.result
      (run Sample.plain Sample.plain Sample.plain Sample2.asGiven
         Sample2.plugins Sample2.aliases Sample2.directFiles false (Ok "foo")
         ["old"; "."; "bare@2.0.0"] false)
    = Ok results
    /\ map (fun r => Plugin.name (PluginWithDeps.plugin r)) results
       = ["bare"; "foo"; "bare"]
    /\ length
         (RunOutcome.shown
            (run Sample.plain Sample.plain Sample.plain Sample2.asGiven
               Sample2.plugins Sample2.aliases Sample2.directFiles false
               (Ok "foo") ["old"; "."; "bare@2.0.0"] false))
       = 3%nat.
Proof.
  eexists. split; [reflexivity|]. split; [reflexivity|].
  destruct (run_success Sample.plain Sample.plain Sample.plain Sample2.asGiven
              Sample2.plugins Sample2.aliases Sample2.directFiles false
              (Ok "foo") ["old"; "."; "bare@2.0.0"] false _ eq_refl)
    as (_ & _ & Hshown).
  rewrite Hshown. reflexivity.
Defined.

(** X26.  An argument whose alias is [null] stops [run] with the error
    [<name> is blocked], before anything is displayed or logged; for the
    argument [.] the name is the one that [package.json] gives. *)
Theorem run_blocked_alias
  (chalk_dim chalk_bold_cyan chalk_bold_red : string -> string)
  (maybeUnfriendlyName : string -> Result string) (config : Config.t)
  (aliases : Obj.t (option string)) (fs : FileSystem) (jsonEnabled : bool)
  (packageJsonName : Result string) (name : string) (rest : list string)
  (verbose : bool) :
  Obj.get name aliases = Some None ->
  let run := run chalk_dim chalk_bold_cyan chalk_bold_red maybeUnfriendlyName
               config aliases fs jsonEnabled packageJsonName in
  let blocked := RunOutcome.mk [] [] (Throw (Error (name ++ " is blocked"))) in
  (name <> "." -> run (name :: rest) verbose = blocked)
  /\ (packageJsonName = Ok name -> run ("." :: rest) verbose = blocked).
Proof.
  intros Hget. cbv zeta. split.
  - intros Hne. rewrite run_cons. unfold pluginNameOf.
    destruct (String.eqb_spec name ".") as [->|_]; [congruence|].
    cbn [bind]. unfold aliasOf. rewrite Hget. reflexivity.
  - intros Hpkg. rewrite run_cons. unfold pluginNameOf.
    change ("." =? ".") with true. cbv iota. rewrite Hpkg.
    cbn [bind]. unfold aliasOf. rewrite Hget. reflexivity.
Qed.

Lemma run_blocked_alias_witness :
  Obj.get "banned" Sample2.aliases = Some None
  /\ run Sample.plain Sample.plain Sample.plain Sample2.asGiven
       Sample2.plugins Sample2.aliases Sample2.directFiles false (Ok "foo")
       ["banned"; "bare"] false
     = RunOutcome.mk [] [] (Throw (Error "banned is blocked")).
Proof.
  split; [reflexivity|].
  refine (proj1 (run_blocked_alias Sample.plain Sample.plain Sample.plain
                   Sample2.asGiven Sample2.plugins Sample2.aliases
                   Sample2.directFiles false (Ok "foo") "banned" ["bare"] false
                   eq_refl) _).
  discriminate.
Defined.

(** X27.  When [run] throws, either the error is that of [findPlugin] for
    the name of one of the arguments, and [failed] is the one line logged,
    or no line at all when JSON output is enabled; or nothing is logged
    and the error comes from finding that name: the package file, a
    blocked alias, the registry, or an argument that is one of the names
    every object inherits, such as [constructor], for which
    [parsePluginName] is called with a function and throws a
    [TypeError]. *)
Theorem run_failure_log
  (chalk_dim chalk_bold_cyan chalk_bold_red : string -> string)
  (maybeUnfriendlyName : string -> Result string) (config : Config.t)
  (aliases : Obj.t (option string)) (fs : FileSystem) (jsonEnabled : bool)
  (packageJsonName : Result string) (argv : list string) (verbose : bool)
  (e : JSError) :
  RunOutcome.result
    (run chalk_dim chalk_bold_cyan chalk_bold_red maybeUnfriendlyName config
       aliases fs jsonEnabled packageJsonName argv verbose)
  = Throw e ->
  let outcome := run chalk_dim chalk_bold_cyan chalk_bold_red
                   maybeUnfriendlyName config aliases fs jsonEnabled
                   packageJsonName argv verbose in
  ((RunOutcome.logged outcome
    = if jsonEnabled then [] else [chalk_bold_red "failed"])
   /\ exists arg pluginName,
        In arg argv
        /\ pluginNameOf maybeUnfriendlyName aliases packageJsonName arg
           = Ok pluginName
        /\ findPlugin config pluginName = Throw e
        /\ e = Error (pluginName ++ " not installed"))
  \/ (RunOutcome.logged outcome = []
      /\ exists arg,
           In arg argv
           /\ pluginNameOf maybeUnfriendlyName aliases packageJsonName arg
              = Throw e
           /\ (arg <> "." -> Obj.get arg aliases = None ->
               In arg Obj.inherited -> e = TypeError)).
Proof.
  cbv zeta. induction argv as [|name rest IH].
  - discriminate.
  - rewrite run_cons.
    destruct (pluginNameOf maybeUnfriendlyName aliases packageJsonName name)
      as [pluginName|e0] eqn:En.
    + destruct (inspect chalk_dim chalk_bold_cyan config fs jsonEnabled
                  pluginName verbose) as [out|e0] eqn:Ei.
      * intros H. apply withBefore_result_throw in H.
        unfold withBefore. cbn [RunOutcome.logged].
        destruct (IH H) as [(Hlog & arg & pn & Hin & Hn & Hf)
                           |(Hlog & arg & Hin & Hn)].
        -- left. split; [exact Hlog|]. exists arg, pn. simpl. auto.
        -- right. split; [exact Hlog|]. exists arg. simpl. auto.
      * cbn. intros [= <-]. left. split; [reflexivity|].
        exists name, pluginName. split; [now left|]. split; [exact En|].
        destruct (findPlugin config pluginName) as [plugin|e1] eqn:Ef.
        -- rewrite (inspect_installed _ _ _ _ _ _ _ _ Ef) in Ei. discriminate.
        -- rewrite (inspect_not_installed _ _ _ _ _ _ _ _ Ef) in Ei.
           injection Ei as <-. split; [reflexivity|].
           unfold findPlugin in Ef.
           destruct (find (fun plg => Plugin.name plg =? pluginName)
                       (Config.getPluginsList config)); [discriminate|].
           now injection Ef as <-.
    + cbn. intros [= <-]. right. split; [reflexivity|].
      exists name. split; [now left|]. split; [exact En|].
      intros Hdot Hown Hin. revert En. unfold pluginNameOf.
      destruct (String.eqb_spec name ".") as [->|_]; [congruence|].
      cbn [bind]. unfold aliasOf. rewrite Hown.
      replace (Obj.isInherited name) with true.
      * cbn [bind]. now intros [= <-].
      * symmetry. unfold Obj.isInherited. apply existsb_exists.
        exists name. split; [exact Hin | apply String.eqb_refl].
Qed.

Lemma run_failure_log_witness :
  RunOutcome.result
    (run Sample.plain Sample.plain Sample.plain Sample2.asGiven
       Sample2.plugins Sample2.aliases Sample2.directFiles false (Ok "foo")
       ["bare"; "missing"; "foo"] false)
  = Throw (Error "missing not installed")
  /\ RunOutcome.logged
       (run Sample.plain Sample.plain Sample.plain Sample2.asGiven
          Sample2.plugins Sample2.aliases Sample2.directFiles true (Ok "foo")
          ["bare"; "missing"; "foo"] false)
     = []
  /\ run Sample.plain Sample.plain Sample.plain Sample2.asGiven
       Sample2.plugins Sample2.aliases Sample2.directFiles false (Ok "foo")
       ["bare"; "constructor"] false
     = RunOutcome.mk
         [reportTree Sample.plain Sample.plain Sample2.directFiles
            Sample2.bare false]
         [] (Throw TypeError)
  /\ (RunOutcome.logged
        (run Sample.plain Sample.plain Sample.plain Sample2.asGiven
           Sample2.plugins Sample2.aliases Sample2.directFiles false (Ok "foo")
           ["bare"; "missing"; "foo"] false)
      = ["failed"]
      \/ RunOutcome.logged
           (run Sample.plain Sample.plain Sample.plain Sample2.asGiven
              Sample2.plugins Sample2.aliases Sample2.directFiles false
              (Ok "foo") ["bare"; "missing"; "foo"] false)
         = []).
Proof.
  split; [reflexivity|]. split; [reflexivity|]. split; [reflexivity|].
  destruct (run_failure_log Sample.plain Sample.plain Sample.plain
              Sample2.asGiven Sample2.plugins Sample2.aliases
              Sample2.directFiles false (Ok "foo") ["bare"; "missing"; "foo"]
              false _ eq_refl) as [(Hlog & _)|(Hlog & _)].
  - left. exact Hlog.
  - right. exact Hlog.
Defined.

(** ** The search chain of a clean absolute root *)

Lemma prefix_before_sep (c : ascii) (pat a b : string) :
  JS.includes c pat = false ->
  String.prefix pat (a ++ String c b) = String.prefix pat a.
Proof.
  revert a; induction pat as [|x pat IH]; intros a Hfree.
  - now destruct a.
  - simpl in Hfree. apply orb_false_iff in Hfree. destruct Hfree as [Hx Hpat].
    destruct a as [|y a]; simpl.
    + destruct (ascii_dec x c) as [->|_]; [|reflexivity].
      now rewrite Ascii.eqb_refl in Hx.
    + destruct (ascii_dec x y); [now apply IH | reflexivity].
Qed.

(** The matches of a pattern without separator are counted segment by
    segment. *)
Lemma countMatches_sep_skip (c : ascii) (pat a b : string) (skip : nat) :
  JS.includes c pat = false -> pat <> "" ->
  skip <= String.length a ->
  JS.countMatches pat (a ++ String c b) skip
  = JS.countMatches pat a skip + JS.countMatches pat b 0.
Proof.
  intros Hfree Hne. revert skip; induction a as [|y a IH]; intros skip Hskip.
  - simpl in Hskip. assert (skip = 0) as -> by lia.
    change ("" ++ String c b) with (String c b).
    change (JS.countMatches pat (String c b) 0)
      with (if String.prefix pat (String c b)
            then S (JS.countMatches pat b (String.length pat - 1))
            else JS.countMatches pat b 0).
    replace (String.prefix pat (String c b)) with false; [reflexivity|].
    change (String c b) with ("" ++ String c b).
    rewrite prefix_before_sep by exact Hfree. now destruct pat.
  - destruct skip as [|k].
    + change (JS.countMatches pat (String y a ++ String c b) 0)
        with (if String.prefix pat (String y a ++ String c b)
              then S (JS.countMatches pat (a ++ String c b)
                        (String.length pat - 1))
              else JS.countMatches pat (a ++ String c b) 0).
      change (JS.countMatches pat (String y a) 0)
        with (if String.prefix pat (String y a)
              then S (JS.countMatches pat a (String.length pat - 1))
              else JS.countMatches pat a 0).
      rewrite prefix_before_sep by exact Hfree.
      destruct (String.prefix pat (String y a)) eqn:E.
      * apply prefix_length in E. simpl in E.
        rewrite IH by lia. reflexivity.
      * apply IH. lia.
    + simpl in Hskip. cbn [append JS.countMatches]. apply IH. lia.
Qed.

Lemma countMatches_clean (l : list string) :
  Forall (fun s => isCleanSegment s = true) l ->
  JS.countMatches "node_modules" (String.concat "/" l) 0
  = count_occ string_dec l "node_modules".
Proof.
  assert (Hone : forall x, isCleanSegment x = true ->
            JS.countMatches "node_modules" x 0
            = if string_dec x "node_modules" then 1 else 0).
  { intros x Hx. unfold isCleanSegment in Hx.
    apply andb_true_iff in Hx. destruct Hx as [_ Hx].
    destruct (string_dec x "node_modules") as [->|Hne]; [reflexivity|].
    apply orb_true_iff in Hx. destruct Hx as [Hx|Hx].
    - apply String.eqb_eq in Hx. contradiction.
    - now apply Nat.eqb_eq in Hx. }
  induction l as [|x l IH]; intros Hl; [reflexivity|].
  inversion Hl as [|? ? Hx Hl']; subst.
  destruct l as [|y l].
  - cbn [String.concat count_occ]. rewrite (Hone x Hx).
    now destruct (string_dec x "node_modules").
  - change (String.concat "/" (x :: y :: l))
      with (x ++ String "/" (String.concat "/" (y :: l))).
    rewrite countMatches_sep_skip by (try reflexivity; try discriminate; lia).
    rewrite (IH Hl'), (Hone x Hx).
    change (count_occ string_dec (x :: y :: l) "node_modules")
      with (if string_dec x "node_modules"
            then S (count_occ string_dec (y :: l) "node_modules")
            else count_occ string_dec (y :: l) "node_modules").
    now destruct (string_dec x "node_modules").
Qed.

Lemma countMatches_absolute (l : list string) :
  Forall (fun s => isCleanSegment s = true) l ->
  JS.countMatches "node_modules" (absolute l) 0
  = count_occ string_dec l "node_modules".
Proof.
  intros Hl. unfold absolute.
  change ("/" ++ String.concat "/" l) with ("" ++ String "/" (String.concat "/" l)).
  rewrite countMatches_sep_skip by (try reflexivity; try discriminate; simpl; lia).
  now rewrite countMatches_clean.
Qed.

Lemma clean_plain (l : list string) :
  Forall (fun s => isCleanSegment s = true) l ->
  Forall (fun s => isPlainSegment s = true) l.
Proof.
  intros H. eapply Forall_impl; [|exact H]. cbv beta. intros s Hs.
  unfold isCleanSegment in Hs. now apply andb_true_iff in Hs.
Qed.

Lemma list_ascii_of_string_append (a b : string) :
  list_ascii_of_string (a ++ b)
  = (list_ascii_of_string a ++ list_ascii_of_string b)%list.
Proof. induction a as [|c a IH]; simpl; [reflexivity | now rewrite IH]. Qed.

Lemma skipSegment_free (r1 r2 : list ascii) :
  Forall (fun c => Ascii.eqb c Path.sepChar = false) r1 ->
  Path.skipSegment (r1 ++ Path.sepChar :: r2) = Some (List.length r2).
Proof.
  induction 1 as [|c r1 Hc _ IH]; simpl.
  - reflexivity.
  - now rewrite Hc.
Qed.

Lemma free_chars (c : ascii) (s : string) :
  JS.includes c s = false ->
  Forall (fun a => Ascii.eqb a c = false) (list_ascii_of_string s).
Proof.
  induction s as [|a s IH]; simpl; [constructor|].
  intros H. apply orb_false_iff in H. destruct H as [Ha Hs].
  constructor; auto.
Qed.

Lemma substring0_append (a b : string) :
  String.substring 0 (String.length a) (a ++ b) = a.
Proof.
  induction a as [|c a IH]; simpl.
  - now destruct b.
  - now rewrite IH.
Qed.

(** [path.dirname] of an absolute path drops its last segment. *)
Lemma dirname_absolute (p x : string) :
  p <> "" -> x <> "" -> JS.includes Path.sepChar x = false ->
  Path.dirname ("/" ++ p ++ "/" ++ x) = "/" ++ p.
Proof.
  intros Hp Hx Hfree.
  change ("/" ++ p ++ "/" ++ x) with (String Path.sepChar (p ++ String Path.sepChar x)).
  unfold Path.dirname.
  rewrite list_ascii_of_string_append. cbn [list_ascii_of_string].
  rewrite rev_app_distr. cbn [rev]. rewrite <- app_assoc. cbn [List.app].
  pose proof (free_chars _ _ Hfree) as Hchars.
  apply Forall_rev in Hchars.
  destruct x as [|c x]; [congruence|].
  destruct (rev (list_ascii_of_string (String c x))) as [|c' r'] eqn:E.
  { apply (f_equal (@List.length ascii)) in E.
    rewrite length_rev in E. discriminate. }
  inversion Hchars as [|? ? Hc' Hr']; subst.
  cbn [List.app Path.skipSeparators]. rewrite Hc'.
  rewrite skipSegment_free by exact Hr'.
  rewrite length_rev, length_list_ascii_of_string.
  rewrite Ascii.eqb_refl. cbn [andb].
  destruct p as [|c0 p]; [congruence|].
  cbn [String.length Nat.eqb].
  change (String Path.sepChar (String c0 p ++ String Path.sepChar (String c x)))
    with (String Path.sepChar (String c0 p) ++ String Path.sepChar (String c x)).
  change (S (S (String.length p)))
    with (String.length (String Path.sepChar (String c0 p))).
  apply substring0_append.
Qed.

Lemma count_occ_rev (l : list string) :
  count_occ string_dec l "node_modules"
  = count_occ string_dec (rev l) "node_modules".
Proof.
  apply (proj1 (Permutation_count_occ string_dec l (rev l))).
  apply Permutation_rev.
Qed.

Lemma markerEnds_none (r : list string) :
  count_occ string_dec r "node_modules" = 0 -> markerEnds r = [].
Proof.
  induction r as [|s r IH]; [reflexivity|]. cbn [count_occ markerEnds].
  destruct (string_dec s "node_modules") as [->|Hne]; [discriminate|].
  apply String.eqb_neq in Hne. rewrite Hne. exact IH.
Qed.

Lemma first_marker (r : list string) :
  0 < count_occ string_dec r "node_modules" ->
  exists r1 r2,
    r = (r1 ++ "node_modules" :: r2)%list
    /\ ~ In "node_modules" r1
    /\ markerEnds r = rev ("node_modules" :: r2) :: markerEnds r2.
Proof.
  induction r as [|s r IH]; cbn [count_occ]; [lia|].
  destruct (string_dec s "node_modules") as [->|Hne].
  - intros _. exists [], r. repeat split; auto.
  - intros H. destruct (IH H) as (r1 & r2 & -> & Hno & E).
    exists (s :: r1), r2. repeat split.
    + intros [H1|H1]; [congruence | contradiction].
    + cbn [markerEnds]. apply String.eqb_neq in Hne. now rewrite Hne.
Qed.

Lemma absolute_snoc (l : list string) (x : string) :
  l <> [] -> absolute (l ++ [x]) = "/" ++ String.concat "/" l ++ "/" ++ x.
Proof.
  intros Hl. unfold absolute. now rewrite concat_app by (auto; discriminate).
Qed.

(** The loop of [findDep] entered at a clean folder [node_modules]: the
    next container is the one that ends at the marker before. *)
Lemma chainLoop_clean (fuel : nat) :
  forall r,
    Forall (fun s => isCleanSegment s = true) r ->
    String.length (absolute (rev ("node_modules" :: r))) <= fuel ->
    chainLoop fuel (absolute (rev ("node_modules" :: r)))
    = map absolute (markerEnds r).
Proof.
  induction fuel as [|fuel IH]; intros r Hr Hlen.
  { unfold absolute in Hlen. simpl in Hlen. lia. }
  assert (Hall : Forall (fun s => isCleanSegment s = true)
                   (rev ("node_modules" :: r))).
  { apply Forall_rev. constructor; [reflexivity | exact Hr]. }
  pose proof (countMatches_absolute _ Hall) as Hcount.
  rewrite <- (count_occ_rev ("node_modules" :: r)) in Hcount.
  cbn [count_occ] in Hcount.
  destruct (string_dec "node_modules" "node_modules") as [_|Hc]; [|congruence].
  rewrite chainLoop_unfold, Hcount.
  destruct (count_occ string_dec r "node_modules") as [|n] eqn:En.
  - cbn. now rewrite markerEnds_none.
  - change (1 <? S (S n))%nat with true. cbv iota.
    assert (Hgt : 1 < JS.countMatches "node_modules"
                        (absolute (rev ("node_modules" :: r))) 0)
      by (rewrite Hcount; lia).
    pose proof (chain_step_shorter _ Hgt) as Hshort.
    destruct (first_marker r) as (r1 & r2 & E & Hno & Hends); [lia|].
    assert (Hstep : trimUntil
                      (Path.dirname (absolute (rev ("node_modules" :: r))))
                      "node_modules"
                    = absolute (rev ("node_modules" :: r2))).
    { assert (Hrne : rev r <> []).
      { rewrite E. rewrite rev_app_distr. cbn [rev].
        intros H. apply (f_equal (@List.length string)) in H.
        rewrite !length_app in H. simpl in H. lia. }
      cbn [rev]. rewrite absolute_snoc by exact Hrne.
      assert (Hplain : Forall (fun s => isPlainSegment s = true) (rev r))
        by (apply clean_plain, Forall_rev, Hr).
      destruct (concat_plain_shape _ Hrne Hplain) as (c & s & x & Ec & _).
      rewrite dirname_absolute by (try reflexivity; try discriminate; congruence).
      rewrite (trimUntil_at _ _ ("" :: rev r2) (rev r1)).
      - unfold JS.join, Path.sep, absolute.
        rewrite <- app_comm_cons.
        destruct (rev r2 ++ ["node_modules"])%list eqn:E2;
          [now destruct (rev r2) | reflexivity].
      - change ("/" ++ String.concat "/" (rev r))
          with (String Path.sepChar (String.concat "/" (rev r))).
        change (JS.split Path.sepChar
                  (String Path.sepChar (String.concat "/" (rev r))))
          with ("" :: JS.split Path.sepChar (String.concat "/" (rev r))).
        rewrite (split_concat Path.sepChar) by (auto using plain_free).
        rewrite E, rev_app_distr. cbn [rev]. now rewrite <- app_assoc.
      - now rewrite <- in_rev. }
    rewrite Hstep in *. rewrite Hends. cbn [map]. f_equal.
    apply IH; [|lia].
    rewrite E in Hr. apply Forall_app in Hr. destruct Hr as [_ Hr].
    now inversion Hr.
Qed.

Lemma searchPaths_containersOf (segs : list string) :
  segs <> [] ->
  Forall (fun s => isCleanSegment s = true) segs ->
  searchPaths (absolute segs) = containersOf segs.
Proof.
  intros Hne Hsegs.
  assert (Hstart : Path.join [absolute segs; "node_modules"]
                   = absolute (rev ("node_modules" :: rev segs))).
  { cbn [rev]. rewrite rev_involutive. rewrite absolute_snoc by exact Hne.
    apply (join_plain_absolute segs ["node_modules"]);
      auto using clean_plain; try discriminate. }
  unfold searchPaths, containersOf. cbv zeta. rewrite Hstart.
  rewrite chainLoop_clean by (auto using Forall_rev).
  rewrite rev_app_distr. cbn [rev List.app markerEnds String.eqb].
  reflexivity.
Qed.

Lemma markerEnds_Forall (P : string -> Prop) (r : list string) :
  Forall P r ->
  Forall (fun pre => pre <> [] /\ Forall P pre) (markerEnds r).
Proof.
  induction 1 as [|s r Hs Hr IH]; cbn [markerEnds]; [constructor|].
  destruct (s =? "node_modules"); [|exact IH].
  constructor; [|exact IH]. split.
  - cbn [rev]. now destruct (rev r).
  - apply Forall_rev. now constructor.
Qed.

(** X28.  For a plugin whose root is an absolute path of clean segments,
    the search chain of [findDep] is known in full: it holds one container
    for every folder named [node_modules] on the way from the root of the
    file system to the folder [node_modules] of the plugin, innermost
    first.  So a plugin outside any [node_modules] has one container, and a
    plugin installed in a [node_modules] has two. *)
Theorem searchPaths_clean_root (segs : list string) :
  segs <> [] ->
  Forall (fun s => isCleanSegment s = true) segs ->
  searchPaths (absolute segs) = containersOf segs
  /\ List.length (searchPaths (absolute segs))
     = S (count_occ string_dec segs "node_modules").
Proof.
  intros Hne Hsegs.
  pose proof (searchPaths_containersOf segs Hne Hsegs) as Hclosed.
  split; [exact Hclosed|].
  rewrite Hclosed. unfold containersOf. rewrite length_map.
  rewrite rev_app_distr. cbn [rev List.app markerEnds].
  change ("node_modules" =? "node_modules") with true. cbv iota.
  cbn [List.length]. f_equal.
  rewrite (count_occ_rev segs).
  generalize (rev segs). intros r.
  induction r as [|s r IH]; [reflexivity|]. cbn [markerEnds count_occ].
  destruct (string_dec s "node_modules") as [->|Hs].
  - change ("node_modules" =? "node_modules") with true. cbv iota.
    cbn [List.length]. now rewrite IH.
  - apply String.eqb_neq in Hs. now rewrite Hs.
Qed.

Lemma searchPaths_clean_root_witness :
  Forall (fun s => isCleanSegment s = true) ["data"; "node_modules"; "@oclif"; "plugin-help"]
  /\ searchPaths "/data/node_modules/@oclif/plugin-help"
     = ["/data/node_modules/@oclif/plugin-help/node_modules";
        "/data/node_modules"].
Proof.
  assert (H : Forall (fun s => isCleanSegment s = true)
                ["data"; "node_modules"; "@oclif"; "plugin-help"])
    by (repeat constructor).
  split; [exact H|].
  refine (proj1 (searchPaths_clean_root
                   ["data"; "node_modules"; "@oclif"; "plugin-help"] _ H)).
  discriminate.
Defined.

(** X29.  For such a root and a dependency named by plain segments, the
    candidates that [findDep] tries are the containers with the name of the
    dependency appended: [path.join] changes nothing else, and no other
    folder is looked at. *)
Theorem candidates_clean_root (plugin : Plugin.t) (segs depSegs : list string) :
  Plugin.root plugin = absolute segs ->
  segs <> [] -> depSegs <> [] ->
  Forall (fun s => isCleanSegment s = true) segs ->
  Forall (fun s => isPlainSegment s = true) depSegs ->
  candidates plugin (String.concat "/" depSegs)
  = map (fun c => c ++ "/" ++ String.concat "/" depSegs) (containersOf segs).
Proof.
  intros Hroot Hne Hdne Hsegs Hdep. unfold candidates.
  rewrite Hroot, searchPaths_containersOf by assumption.
  rewrite dependencyPathOf_plain by assumption.
  unfold containersOf. rewrite !map_map. apply map_ext_in.
  intros pre Hin.
  assert (Hall : Forall (fun s => isPlainSegment s = true)
                   (rev (segs ++ ["node_modules"]))).
  { apply Forall_rev, Forall_app. split; [now apply clean_plain|].
    now repeat constructor. }
  pose proof (markerEnds_Forall _ _ Hall) as Hends.
  rewrite Forall_forall in Hends. destruct (Hends pre Hin) as [Hpne Hpre].
  unfold absolute. rewrite join_plain_absolute by assumption.
  reflexivity.
Qed.

Lemma candidates_clean_root_witness :
  Forall (fun s => isCleanSegment s = true)
    ["data"; "node_modules"; "@oclif"; "plugin-help"]
  /\ candidates
       (Plugin.mk "@oclif/plugin-help" "6.0.0" None
          "/data/node_modules/@oclif/plugin-help" [] (PJSON.mk None None))
       "@oclif/core"
     = ["/data/node_modules/@oclif/plugin-help/node_modules/@oclif/core";
        "/data/node_modules/@oclif/core"].
Proof.
  assert (H : Forall (fun s => isCleanSegment s = true)
                ["data"; "node_modules"; "@oclif"; "plugin-help"])
    by (repeat constructor).
  split; [exact H|].
  refine (candidates_clean_root
            (Plugin.mk "@oclif/plugin-help" "6.0.0" None
               "/data/node_modules/@oclif/plugin-help" [] (PJSON.mk None None))
            ["data"; "node_modules"; "@oclif"; "plugin-help"]
            ["@oclif"; "core"] eq_refl _ _ H _).
  - discriminate.
  - discriminate.
  - repeat constructor.
Defined.

(** X30.  An alias is followed once: the argument is replaced by its alias,
    and the alias itself is neither looked up again, nor checked for being
    blocked, nor read as [.]; an alias that is the empty string is
    ignored. *)
Theorem alias_is_followed_once (maybeUnfriendlyName : string -> Result string)
  (aliases : Obj.t (option string)) (packageJsonName : Result string)
  (name target : string) :
  name <> "." ->
  Obj.get name aliases = Some (Some target) ->
  pluginNameOf maybeUnfriendlyName aliases packageJsonName name
  = parsePluginName maybeUnfriendlyName (if target =? "" then name else target).
Proof.
  intros Hne Hget. unfold pluginNameOf.
  destruct (String.eqb_spec name ".") as [->|_]; [congruence|].
  cbn [bind]. unfold aliasOf. rewrite Hget.
  now destruct target.
Qed.

Lemma alias_is_followed_once_witness :
  Obj.get "old" [("old", Some "banned"); ("banned", None)] = Some (Some "banned")
  /\ pluginNameOf Sample2.asGiven [("old", Some "banned"); ("banned", None)]
       (Ok "foo") "old"
     = Ok "banned".
Proof.
  split; [reflexivity|].
  refine (alias_is_followed_once Sample2.asGiven
            [("old", Some "banned"); ("banned", None)] (Ok "foo") "old" "banned"
            _ eq_refl).
  discriminate.
Defined.
